(** * Sales / debt / inventory workflow of the ISTECH sales dashboard

    A shallow embedding of the store-facing logic of the pages
    [Debtors], [Sales], [Analysis], [Dashboard] and of
    [lib/debtorStats.ts].

    Modelling conventions.
    - Row identifiers (uuids issued by the database) are natural numbers.
    - JavaScript numbers holding money (prices, costs, totals, amounts
      owed) are IEEE 754 double-precision numbers ([float]): every sum,
      product and difference is rounded to the nearest double, as the
      code's [+], [*] and [-] are.  Quantities and stock are integers
      ([Z]); where a quantity meets a price it is the double nearest to
      that integer.  A number written to the store is read back as the
      same number.  Instants ([Date], timestamps) are integers counting
      milliseconds.
    - The remote store is a record of tables; a table is the list of its
      rows in insertion order.  [update ... eq] rewrites every matching
      row, [delete ... eq] drops every matching row, [insert] appends.
    - Every call to the hosted service may fail.  The [World] carries a
      script of faults: the head of the script decides the next call, a
      failed call leaves the tables untouched and answers with
      [data = null] and the scripted error.
    - A mutation is a computation [M A]: from a world to an outcome
      (returned value or thrown error) and the world it leaves behind.
      Nothing is rolled back when an error is thrown. *)

From Stdlib Require Import ZArith QArith List String Bool Lia.
From Stdlib Require Import Permutation Sorted.
From Stdlib Require Import Floats.
Import ListNotations.

#[local] Set Warnings "-inexact-float".
#[local] Close Scope Q_scope.
#[local] Open Scope string_scope.
#[local] Open Scope list_scope.
#[local] Open Scope Z_scope.

(** ** Numbers *)

(** A quantity as the JavaScript number it is: the double nearest to the
    integer. *)
Definition float_of_Z (z : Z) : float :=
  SF2Prim (binary_normalize prec emax z 0 false).

(** The rational number a finite double stands for (0 for the infinities
    and for NaN, which stand for none). *)
Definition value (x : float) : Q :=
  match Prim2SF x with
  | S754_finite s m e => ((if s then -1 else 1) * inject_Z (Zpos m) * Qpower 2 e)%Q
  | _ => 0%Q
  end.

(** [x || 0] is 0 for the falsy numbers: 0, -0 and NaN. *)
Definition falsy (x : float) : bool := (x =? 0)%float || is_nan x.

(** ** Data model *)

Definition uuid := nat.
Bind Scope nat_scope with uuid.

Inductive PaymentStatus := paid | pending | overdue.

Module Product.
Record row := mk {
  id : uuid;
  name : string;
  category : string;
  cost : float;
  stock_quantity : Z;
  is_active : bool;
  updated_at : Z
}.
Definition set_stock (q now : Z) (p : row) : row :=
  mk (id p) (name p) (category p) (cost p) q (is_active p) now.
End Product.

Module Customer.
Record row := mk {
  id : uuid;
  name : string;
  email : option string;
  phone : option string
}.
End Customer.

Module Sale.
Record row := mk {
  id : uuid;
  customer_id : uuid;
  user_id : uuid;
  total_amount : float;
  total_cost : float;
  payment_status : PaymentStatus;
  due_date : option string;
  sale_date : Z
}.
Definition set_payment_status (st : PaymentStatus) (s : row) : row :=
  mk (id s) (customer_id s) (user_id s) (total_amount s) (total_cost s)
     st (due_date s) (sale_date s).
End Sale.

Module SaleItem.
Record row := mk {
  id : uuid;
  sale_id : uuid;
  product_id : uuid;
  quantity : Z;
  unit_price : float;
  unit_cost : float
}.
End SaleItem.

Module Debtor.
Record row := mk {
  id : uuid;
  sale_id : uuid;
  customer_id : uuid;
  amount_owed : float;
  due_date : Z;
  is_resolved : bool;
  updated_at : Z
}.
Definition resolve (now : Z) (d : row) : row :=
  mk (id d) (sale_id d) (customer_id d) (amount_owed d) (due_date d)
     true now.
End Debtor.

(** The tables the workflow touches, and the counter from which the
    database draws the identifier of an inserted row. *)
Record Store := mkStore {
  products : list Product.row;
  customers : list Customer.row;
  sales : list Sale.row;
  sale_items : list SaleItem.row;
  debtors : list Debtor.row;
  next_id : uuid
}.

Definition with_products (s : Store) (l : list Product.row) : Store :=
  mkStore l (customers s) (sales s) (sale_items s) (debtors s) (next_id s).
Definition with_customers (s : Store) (l : list Customer.row) (n : uuid) : Store :=
  mkStore (products s) l (sales s) (sale_items s) (debtors s) n.
Definition with_sales (s : Store) (l : list Sale.row) (n : uuid) : Store :=
  mkStore (products s) (customers s) l (sale_items s) (debtors s) n.
Definition with_sale_items (s : Store) (l : list SaleItem.row) (n : uuid) : Store :=
  mkStore (products s) (customers s) (sales s) l (debtors s) n.
Definition with_debtors (s : Store) (l : list Debtor.row) : Store :=
  mkStore (products s) (customers s) (sales s) (sale_items s) l (next_id s).

(** ** Errors, responses and the mutation monad *)

(** What gets thrown: the error object of a failed store call, or a
    JavaScript [Error] built by the page itself. *)
Inductive Err :=
| PostgrestError (message : string)
| JsError (message : string).

Definition message (e : Err) : string :=
  match e with PostgrestError m => m | JsError m => m end.

(** The [{ data, error }] pair every client call resolves to. *)
Record response (A : Type) := mkResponse {
  data : option A;
  error : option Err
}.
Arguments mkResponse {A} _ _.
Arguments data {A} _.
Arguments error {A} _.

Definition ok {A} (a : A) : response A := mkResponse (Some a) None.
Definition failed {A} (e : Err) : response A := mkResponse None (Some e).

(** The error of [.single()] when the filter does not select exactly one
    row. *)
Definition PGRST116 : Err :=
  PostgrestError "JSON object requested, multiple (or no) rows returned".

Definition single {A} (rows : list A) : response A :=
  match rows with
  | [r] => ok r
  | _ => failed PGRST116
  end.

Record World := mkWorld {
  store : Store;
  faults : list (option Err);
  auth_user : option uuid
}.

Inductive outcome (A : Type) :=
| Returned (a : A)
| Thrown (e : Err).
Arguments Returned {A} _.
Arguments Thrown {A} _.

Definition M (A : Type) := World -> outcome A * World.

Definition ret {A} (a : A) : M A := fun w => (Returned a, w).
Definition throw {A} (e : Err) : M A := fun w => (Thrown e, w).
Definition bind {A B} (m : M A) (k : A -> M B) : M B :=
  fun w =>
    match m w with
    | (Returned a, w') => k a w'
    | (Thrown e, w') => (Thrown e, w')
    end.

Notation "x <- m ;; k" := (bind m (fun x => k))
  (at level 61, m at next level, right associativity).
Notation "m ;;; k" := (bind m (fun _ => k))
  (at level 61, right associativity).

(** [if (error) throw error;] *)
Definition throw_if_error {A} (r : response A) : M unit :=
  match error r with
  | Some e => throw e
  | None => ret tt
  end.

(** [for (const x of xs) { await body(x) }]: a throw leaves the loop. *)
Fixpoint for_of {A} (xs : list A) (body : A -> M unit) : M unit :=
  match xs with
  | [] => ret tt
  | x :: rest => body x ;;; for_of rest body
  end.

(** The entry of the fault script that decides the next call: an absent
    or empty entry lets the call through. *)
Definition next_fault (w : World) : option Err :=
  match faults w with
  | Some e :: _ => Some e
  | _ => None
  end.

(** One awaited call [await supabase.from(...)...]: it never throws, it
    resolves to a response.  A failed call does not reach the tables. *)
Definition await {A} (query : Store -> response A * Store) : M (response A) :=
  fun w =>
    match next_fault w with
    | Some e => (Returned (failed e), mkWorld (store w) (tl (faults w)) (auth_user w))
    | None =>
        let (r, s) := query (store w) in
        (Returned r, mkWorld s (tl (faults w)) (auth_user w))
    end.

(** [await supabase.auth.getUser()]: the signed-in user, or null when
    there is none or the call failed. *)
Definition getUser : M (option uuid) :=
  fun w =>
    match next_fault w with
    | Some _ => (Returned None, mkWorld (store w) (tl (faults w)) (auth_user w))
    | None => (Returned (auth_user w), mkWorld (store w) (tl (faults w)) (auth_user w))
    end.

(** ** Table queries *)

Definition update_where {A} (p : A -> bool) (f : A -> A) (rows : list A) : list A :=
  map (fun r => if p r then f r else r) rows.

Definition delete_where {A} (p : A -> bool) (rows : list A) : list A :=
  filter (fun r => negb (p r)) rows.

(** [from("debtors").update({is_resolved: true, updated_at}).eq("id", debtorId)] *)
Definition debtors_resolve (now : Z) (debtorId : uuid) (s : Store) : response unit * Store :=
  (ok tt,
   with_debtors s
     (update_where (fun d => Nat.eqb (Debtor.id d) debtorId) (Debtor.resolve now) (debtors s))).

(** [from("debtors").select("sale_id").eq("id", debtorId).single()] *)
Definition debtors_sale_id (debtorId : uuid) (s : Store) : response uuid * Store :=
  (match single (filter (fun d => Nat.eqb (Debtor.id d) debtorId) (debtors s)) with
   | {| data := Some d |} => ok (Debtor.sale_id d)
   | {| error := e |} => mkResponse None e
   end, s).

(** [from("sales").update({payment_status: "paid"}).eq("id", sale_id)] *)
Definition sales_set_paid (saleId : uuid) (s : Store) : response unit * Store :=
  (ok tt,
   with_sales s
     (update_where (fun x => Nat.eqb (Sale.id x) saleId) (Sale.set_payment_status paid) (sales s))
     (next_id s)).

(** ** Debtors page: [markAsPaidMutation] *)

Definition markAsPaidMutation (now : Z) (debtorId : uuid) : M unit :=
  r <- await (debtors_resolve now debtorId) ;;
  throw_if_error r ;;;
  debtor <- await (debtors_sale_id debtorId) ;;
  match data debtor with
  | Some sale_id =>
      r' <- await (sales_set_paid sale_id) ;;
      throw_if_error r'
  | None => ret tt
  end.

(** ** Sales page *)

(** An entry of [selectedProducts]: the product row as it was fetched
    when the line was added ([{...product, quantity, sellingPrice}]). *)
Record CartLine := mkLine {
  product : Product.row;
  quantity : Z;
  sellingPrice : float
}.

(** The state of the "Create New Sale" dialog. *)
Record SaleForm := mkForm {
  customerName : string;
  customerEmail : string;
  customerPhone : string;
  selectedProducts : list CartLine;
  paymentStatus : PaymentStatus;
  dueDate : string
}.

(** [s || null] on a string. *)
Definition or_null (s : string) : option string :=
  if String.eqb s EmptyString then None else Some s.

(** [from("customers").select("id").eq("name", customerName).single()] *)
Definition customers_by_name (n : string) (s : Store) : response uuid * Store :=
  (match single (filter (fun c => String.eqb (Customer.name c) n) (customers s)) with
   | {| data := Some c |} => ok (Customer.id c)
   | {| error := e |} => mkResponse None e
   end, s).

(** [from("customers").insert({name, email, phone}).select("id").single()] *)
Definition customers_insert (n : string) (e p : option string) (s : Store)
  : response uuid * Store :=
  (ok (next_id s),
   with_customers s (customers s ++ [Customer.mk (next_id s) n e p]) (S (next_id s))).

(** [from("sales").insert({...}).select().single()]; [sale_date] takes
    its column default, the instant of the insertion. *)
Definition sales_insert (customerId userId : uuid) (amount cost_ : float)
  (st : PaymentStatus) (due : option string) (now : Z) (s : Store)
  : response Sale.row * Store :=
  let r := Sale.mk (next_id s) customerId userId amount cost_ st due now in
  (ok r, with_sales s (sales s ++ [r]) (S (next_id s))).

(** The object built for each cart line before the bulk insert. *)
Record SaleItemInsert := mkItem {
  ins_sale_id : uuid;
  ins_product_id : uuid;
  ins_quantity : Z;
  ins_unit_price : float;
  ins_unit_cost : float
}.

Definition values_of (i : SaleItem.row) : SaleItemInsert :=
  mkItem (SaleItem.sale_id i) (SaleItem.product_id i) (SaleItem.quantity i)
         (SaleItem.unit_price i) (SaleItem.unit_cost i).

Fixpoint number_rows (n : uuid) (payload : list SaleItemInsert) : list SaleItem.row :=
  match payload with
  | [] => []
  | i :: rest =>
      SaleItem.mk n (ins_sale_id i) (ins_product_id i) (ins_quantity i)
                  (ins_unit_price i) (ins_unit_cost i)
      :: number_rows (S n) rest
  end.

(** [from("sale_items").insert(saleItems)] *)
Definition sale_items_insert (payload : list SaleItemInsert) (s : Store)
  : response unit * Store :=
  (ok tt,
   with_sale_items s (sale_items s ++ number_rows (next_id s) payload)
                   (next_id s + List.length payload)%nat).

(** [from("products").update({stock_quantity, updated_at}).eq("id", id)] *)
Definition products_set_stock (productId : uuid) (q now : Z) (s : Store)
  : response unit * Store :=
  (ok tt,
   with_products s
     (update_where (fun p => Nat.eqb (Product.id p) productId)
                   (Product.set_stock q now) (products s))).

(** [from("products").select("stock_quantity").eq("id", id).single()] *)
Definition products_stock (productId : uuid) (s : Store) : response Z * Store :=
  (match single (filter (fun p => Nat.eqb (Product.id p) productId) (products s)) with
   | {| data := Some p |} => ok (Product.stock_quantity p)
   | {| error := e |} => mkResponse None e
   end, s).

(** [from("sale_items").select("product_id, quantity").eq("sale_id", saleId)] *)
Definition sale_items_of (saleId : uuid) (s : Store)
  : response (list SaleItem.row) * Store :=
  (ok (filter (fun i => Nat.eqb (SaleItem.sale_id i) saleId) (sale_items s)), s).

(** [from("sales").delete().eq("id", saleId)] *)
Definition sales_delete (saleId : uuid) (s : Store) : response unit * Store :=
  (ok tt,
   with_sales s (delete_where (fun x => Nat.eqb (Sale.id x) saleId) (sales s))
              (next_id s)).

(** [selectedProducts.reduce((sum, item) => sum + item.sellingPrice * item.quantity, 0)] *)
Definition totalAmount (cart : list CartLine) : float :=
  fold_left (fun sum item => sum + sellingPrice item * float_of_Z (quantity item))%float
            cart 0%float.

(** [selectedProducts.reduce((sum, item) => sum + item.cost * item.quantity, 0)] *)
Definition totalCost (cart : list CartLine) : float :=
  fold_left (fun sum item => sum + Product.cost (product item) * float_of_Z (quantity item))%float
            cart 0%float.

Definition saleItems (saleId : uuid) (cart : list CartLine) : list SaleItemInsert :=
  map (fun item =>
         mkItem saleId (Product.id (product item)) (quantity item)
                (sellingPrice item) (Product.cost (product item)))
      cart.

(** Reading [.id] off a null [data]. *)
Definition TypeError : Err :=
  JsError "Cannot read properties of null (reading 'id')".

Definition createSaleMutation (form : SaleForm) (now : Z) : M Sale.row :=
  user <- getUser ;;
  match user with
  | None => throw (JsError "Not authenticated")
  | Some userId =>
      existingCustomer <- await (customers_by_name (customerName form)) ;;
      customerId <-
        match data existingCustomer with
        | Some cid => ret cid
        | None =>
            newCustomer <- await (customers_insert (customerName form)
                                    (or_null (customerEmail form))
                                    (or_null (customerPhone form))) ;;
            throw_if_error newCustomer ;;;
            match data newCustomer with
            | Some cid => ret cid
            | None => throw TypeError
            end
        end ;;
      sale <- await (sales_insert customerId userId
                       (totalAmount (selectedProducts form))
                       (totalCost (selectedProducts form))
                       (paymentStatus form) (or_null (dueDate form)) now) ;;
      throw_if_error sale ;;;
      match data sale with
      | None => throw TypeError
      | Some sale =>
          items <- await (sale_items_insert
                            (saleItems (Sale.id sale) (selectedProducts form))) ;;
          throw_if_error items ;;;
          for_of (selectedProducts form)
            (fun line =>
               r <- await (products_set_stock (Product.id (product line))
                             (Product.stock_quantity (product line) - quantity line)
                             now) ;;
               throw_if_error r) ;;;
          ret sale
      end
  end.

Definition deleteSaleMutation (saleId : uuid) (now : Z) : M unit :=
  saleItems <- await (sale_items_of saleId) ;;
  match data saleItems with
  | Some items =>
      for_of items
        (fun item =>
           found <- await (products_stock (SaleItem.product_id item)) ;;
           match data found with
           | Some stock =>
               await (products_set_stock (SaleItem.product_id item)
                        (stock + SaleItem.quantity item) now) ;;;
               ret tt
           | None => ret tt
           end)
  | None => ret tt
  end ;;;
  r <- await (sales_delete saleId) ;;
  throw_if_error r.

(** What the user is shown. *)
Record Toast := mkToast {
  title : string;
  description : string;
  destructive : bool
}.

Definition stockIssues (cart : list CartLine) : list CartLine :=
  filter (fun p => Product.stock_quantity (product p) <? quantity p) cart.

Definition is_empty {A} (l : list A) : bool :=
  match l with [] => true | _ => false end.

(** The submit handler of the dialog, followed to the toast raised by
    the handler itself or by [onSuccess] / [onError] of the mutation. *)
Definition handleSubmit (form : SaleForm) (now : Z) (w : World) : Toast * World :=
  if String.eqb (customerName form) EmptyString || is_empty (selectedProducts form) then
    (mkToast "Error" "Please enter customer name and add at least one product" true, w)
  else if negb (is_empty (stockIssues (selectedProducts form))) then
    (mkToast "Insufficient Stock"
       (String.append "Not enough stock for: "
          (String.concat ", "
             (map (fun p => Product.name (product p))
                  (stockIssues (selectedProducts form)))))
       true, w)
  else
    match createSaleMutation form now w with
    | (Returned _, w') =>
        (mkToast "✅ Success" "Sale created successfully and stock updated" false, w')
    | (Thrown e, w') => (mkToast "Error" (message e) true, w')
    end.

(** ** Debtors page: urgency of a due date *)

(** [1000 * 3600 * 24] *)
Definition day_ms : Z := 1000 * 3600 * 24.

(** [Math.ceil(a / b)] for an integer [a] and a positive integer [b]. *)
Definition ceil_div (a b : Z) : Z := - ((- a) / b).

(** [Math.ceil((due.getTime() - now.getTime()) / (1000 * 3600 * 24))] *)
Definition daysUntilDue (due now : Z) : Z := ceil_div (due - now) day_ms.

(** The colour class of the due-date cell: red is "Overdue", yellow is
    "Due soon", green is "Not due yet". *)
Definition getStatusColor (dueDate now : Z) : string :=
  let d := daysUntilDue dueDate now in
  if d <? 0 then "text-red-600"
  else if d <=? 7 then "text-yellow-600"
  else "text-green-600".

(** The text next to the status icon. *)
Inductive DueLabel :=
| DaysOverdue (n : Z)
| DueToday
| DaysLeft (n : Z).

Definition dueLabel (dueDate now : Z) : DueLabel :=
  let d := daysUntilDue dueDate now in
  if d <? 0 then DaysOverdue (Z.abs d)
  else if d =? 0 then DueToday
  else DaysLeft d.

(** ** lib/debtorStats.ts *)

Record DebtorStats := mkStats {
  totalOutstanding : float;
  overdueDebtors : Z;
  totalResolved : float;
  activeDebtors : Z
}.

(** [x || 0] where [x] is a number or undefined. *)
Definition or_zero (x : option float) : float :=
  match x with
  | Some v => if falsy v then 0%float else v
  | None => 0%float
  end.

(** [n || 0] where [n] is an integer (a length, a count of units) or
    undefined. *)
Definition int_or_zero (n : option Z) : Z :=
  match n with
  | Some v => if v =? 0 then 0 else v
  | None => 0
  end.

(** [isAfter(date, dateToCompare)] of date-fns. *)
Definition isAfter (date dateToCompare : Z) : bool := dateToCompare <? date.

(** [rows.reduce((sum, d) => sum + Number(d.amount_owed), 0)] *)
Definition sum_amount_owed (rows : list Debtor.row) : float :=
  fold_left (fun sum d => sum + Debtor.amount_owed d)%float rows 0%float.

(** The body of [fetchDebtorStats] below the error check; [allDebtors] is
    null or the fetched rows, [now] is what [new Date()] yields. *)
Definition debtorStats (now : Z) (allDebtors : option (list Debtor.row)) : DebtorStats :=
  mkStats
    (or_zero (option_map
       (fun l => sum_amount_owed (filter (fun d => negb (Debtor.is_resolved d)) l))
       allDebtors))
    (int_or_zero (option_map
       (fun l => Z.of_nat (List.length
          (filter (fun d => negb (Debtor.is_resolved d) && isAfter now (Debtor.due_date d)) l)))
       allDebtors))
    (or_zero (option_map
       (fun l => sum_amount_owed (filter (fun d => Debtor.is_resolved d) l))
       allDebtors))
    (int_or_zero (option_map
       (fun l => Z.of_nat (List.length (filter (fun d => negb (Debtor.is_resolved d)) l)))
       allDebtors)).

(** [from("debtors").select("amount_owed, is_resolved, due_date")] *)
Definition debtors_all (s : Store) : response (list Debtor.row) * Store :=
  (ok (debtors s), s).

Definition fetchDebtorStats (now : Z) : M DebtorStats :=
  r <- await debtors_all ;;
  throw_if_error r ;;;
  ret (debtorStats now (data r)).

(** ** Dashboard and Analysis pages: totals of a period *)

(** [from("sales").select(...).gte("sale_date", start).lte("sale_date", end)] *)
Definition sales_in_period (start end_ : Z) (s : Store) : response (list Sale.row) * Store :=
  (ok (filter (fun x => (start <=? Sale.sale_date x) && (Sale.sale_date x <=? end_))
              (sales s)), s).

(** [salesData.reduce((sum, sale) => sum + Number(sale.total_amount), 0)] *)
Definition sum_total_amount (rows : list Sale.row) : float :=
  fold_left (fun sum sale => sum + Sale.total_amount sale)%float rows 0%float.

(** [salesData.reduce((sum, sale) => sum + Number(sale.total_cost), 0)] *)
Definition sum_total_cost (rows : list Sale.row) : float :=
  fold_left (fun sum sale => sum + Sale.total_cost sale)%float rows 0%float.

Module Report.
Record Totals := mkTotals {
  totalRevenue : float;
  totalCost : float;
  totalProfit : float;
  salesCount : Z
}.

(** The "Calculate metrics" lines, the same in both pages; [salesData]
    is null when the query failed. *)
Definition metrics (salesData : option (list Sale.row)) : Totals :=
  let totalRevenue := or_zero (option_map sum_total_amount salesData) in
  let totalCost := or_zero (option_map sum_total_cost salesData) in
  mkTotals totalRevenue totalCost (totalRevenue - totalCost)%float
           (int_or_zero (option_map (fun l => Z.of_nat (List.length l)) salesData)).
End Report.

Module Dashboard.
(** [queryFn] of the "dashboard-stats" query, for the period
    [getDateRange()] returned. *)
Definition stats (start end_ : Z) : M Report.Totals :=
  salesData <- await (sales_in_period start end_) ;;
  ret (Report.metrics (data salesData)).
End Dashboard.

Module Analysis.
(** [queryFn] of the "analytics" query, for the period [getDateRange()]
    returned. *)
Definition analyticsData (start end_ : Z) : M Report.Totals :=
  salesData <- await (sales_in_period start end_) ;;
  ret (Report.metrics (data salesData)).
End Analysis.

(** ** Vocabulary of the specification *)

(** "Σ f over the rows that satisfy keep", for money: the rows are taken
    one after the other in table order and each amount is added, in
    double precision, to what the rows before it came to, starting from
    0. *)
Fixpoint fsum_from {A} (keep : A -> bool) (f : A -> float) (acc : float)
  (rows : list A) : float :=
  match rows with
  | [] => acc
  | r :: rest => fsum_from keep f (if keep r then (acc + f r)%float else acc) rest
  end.

Definition fsum_where {A} (keep : A -> bool) (f : A -> float) (rows : list A) : float :=
  fsum_from keep f 0%float rows.

(** A figure that shows a sum is the same number as the sum (the two
    zeros being one number); for a sum that is not a number the figure
    is 0. *)
Definition shows (figure sum : float) : Prop :=
  if is_nan sum then figure = 0%float else (sum =? figure)%float = true.

(** "Σ g", taken exactly, over rational numbers. *)
Definition exact_sum {A} (g : A -> Q) (rows : list A) : Q :=
  fold_right (fun r acc => (g r + acc)%Q) 0%Q rows.

(** "Σ f over the rows that satisfy keep", for integers. *)
Fixpoint sum_where {A} (keep : A -> bool) (f : A -> Z) (rows : list A) : Z :=
  match rows with
  | [] => 0
  | r :: rest => (if keep r then f r else 0) + sum_where keep f rest
  end.

(** "the number of rows that satisfy keep". *)
Fixpoint count_where {A} (keep : A -> bool) (rows : list A) : Z :=
  match rows with
  | [] => 0
  | r :: rest => (if keep r then 1 else 0) + count_where keep rest
  end.

Definition everything {A} (_ : A) : bool := true.

Definition unresolved (d : Debtor.row) : bool := negb (Debtor.is_resolved d).

(** "unresolved Debtors whose dueDate < now" *)
Definition overdue_at (now : Z) (d : Debtor.row) : bool :=
  unresolved d && (Debtor.due_date d <? now).

(** "saleDate in [start, end]", both ends included. *)
Definition in_closed (start end_ : Z) (x : Sale.row) : bool :=
  (start <=? Sale.sale_date x) && (Sale.sale_date x <=? end_).

(** "saleDate in [start, end)", the end excluded. *)
Definition in_half_open (start end_ : Z) (x : Sale.row) : bool :=
  (start <=? Sale.sale_date x) && (Sale.sale_date x <? end_).

(** No call of the world's future fails. *)
Definition quiet (w : World) : Prop :=
  forallb (fun f => match f with None => true | Some _ => false end) (faults w) = true.

(** ** What the operations do when every call goes through *)

(** The tables after [markAsPaidMutation]. *)
Definition markPaid_store (now : Z) (debtorId : uuid) (s : Store) : Store :=
  let s1 := snd (debtors_resolve now debtorId s) in
  match data (fst (debtors_sale_id debtorId s1)) with
  | Some sale_id => snd (sales_set_paid sale_id s1)
  | None => s1
  end.

(** The stock column after the loop of [createSaleMutation] ran over the
    whole cart: one write per line, in cart order, of the stock the line
    carries minus the quantity sold. *)
Definition stock_writes (now : Z) (cart : list CartLine) (rows : list Product.row)
  : list Product.row :=
  fold_left
    (fun rows line =>
       update_where (fun p => Nat.eqb (Product.id p) (Product.id (product line)))
         (Product.set_stock (Product.stock_quantity (product line) - quantity line) now)
         rows)
    cart rows.

(** The stock of a product as the store answers it
    ([select("stock_quantity").eq("id", id).single()]). *)
Definition stock_of (productId : uuid) (s : Store) : option Z :=
  data (fst (products_stock productId s)).

(** The cart lines that sell a given product. *)
Definition lines_of (productId : uuid) (cart : list CartLine) : list CartLine :=
  filter (fun line => Nat.eqb (Product.id (product line)) productId) cart.

(** The units of a product a sale holds: the sum of quantity over the
    sale's items for that product. *)
Definition units_sold (saleId productId : uuid) (s : Store) : Z :=
  sum_where (fun i => Nat.eqb (SaleItem.product_id i) productId) SaleItem.quantity
            (filter (fun i => Nat.eqb (SaleItem.sale_id i) saleId) (sale_items s)).

(** One round of the restoring loop of [deleteSaleMutation]. *)
Definition restore_step (now : Z) (s : Store) (item : SaleItem.row) : Store :=
  match stock_of (SaleItem.product_id item) s with
  | Some stock =>
      snd (products_set_stock (SaleItem.product_id item)
             (stock + SaleItem.quantity item) now s)
  | None => s
  end.

Definition restore_store (now : Z) (items : list SaleItem.row) (s : Store) : Store :=
  fold_left (restore_step now) items s.

(** A computation that, however it ends, leaves the debtors table as it
    found it. *)
Definition keeps_debtors {A} (m : M A) : Prop :=
  forall w, debtors (store (snd (m w))) = debtors (store w).

(** ** Sample data *)

Definition ann_owes : Debtor.row := Debtor.mk 1 10 100 30 5000 false 0.
Definition bob_owes : Debtor.row := Debtor.mk 2 11 101 45 9000 false 0.
Definition cy_paid : Debtor.row := Debtor.mk 3 12 102 70 1000 true 2000.

Definition sale_of_ann : Sale.row := Sale.mk 10 100 7 30 20 pending None 4000.
Definition sale_of_bob : Sale.row := Sale.mk 11 101 7 45 25 pending None 6000.
Definition sale_of_cy : Sale.row := Sale.mk 12 102 7 70 40 paid None 500.

Definition soap : Product.row := Product.mk 20 "Soap" "Hygiene" 10 3 true 0.
Definition rice : Product.row := Product.mk 21 "Rice" "Food" 8 12 true 0.

Definition shop : Store :=
  mkStore [soap; rice]
          [Customer.mk 100 "Ann" None None; Customer.mk 101 "Bob" None None;
           Customer.mk 102 "Cy" None None]
          [sale_of_ann; sale_of_bob; sale_of_cy]
          [SaleItem.mk 30 10 20 2 15 10; SaleItem.mk 31 11 21 3 15 8]
          [ann_owes; bob_owes; cy_paid]
          40.

(** The shop with every call going through, signed in as user 7. *)
Definition calm_shop : World := mkWorld shop [] (Some 7%nat).

(** The shop when the second call of an operation fails. *)
Definition second_call_fails : World :=
  mkWorld shop [None; Some (PostgrestError "TypeError: Failed to fetch")] (Some 7%nat).

(** The shop when the third call of an operation fails. *)
Definition third_call_fails : World :=
  mkWorld shop [None; None; Some (PostgrestError "TypeError: Failed to fetch")] (Some 7%nat).

Definition two_soaps : CartLine := mkLine soap 2 15.
Definition five_soaps : CartLine := mkLine soap 5 15.

(** Ann buys two soaps and pays. *)
Definition ann_buys_soap : SaleForm :=
  mkForm "Ann" EmptyString EmptyString [two_soaps] paid EmptyString.

(** The row the store answers with for that sale. *)
Definition soap_sale : Sale.row := Sale.mk 40 100 7 30 20 paid None 9000.

(** Ann asks for five soaps; three are in stock. *)
Definition ann_wants_five : SaleForm :=
  mkForm "Ann" EmptyString EmptyString [five_soaps] pending "2026-01-31".

(** Soap as it was fetched when ten were in stock, and a cart line made
    then that has since been raised to five units. *)
Definition soap_as_fetched : Product.row := Product.mk 20 "Soap" "Hygiene" 10 10 true 0.
Definition five_soaps_of_ten : CartLine := mkLine soap_as_fetched 5 15.

(** Ann asks for five soaps on that cart; three are in stock by now. *)
Definition ann_wants_five_late : SaleForm :=
  mkForm "Ann" EmptyString EmptyString [five_soaps_of_ten] paid EmptyString.

(** Three soaps sold off at 0.1 each. *)
Definition three_soaps_at_a_tenth : CartLine := mkLine soap 3 0.1.
Definition ann_buys_cheap_soap : SaleForm :=
  mkForm "Ann" EmptyString EmptyString [three_soaps_at_a_tenth] paid EmptyString.

(** ** Debtors page: the rest of the row *)

(** The icon next to the status text. *)
Inductive Icon := AlertTriangle | Clock | CheckCircle.

Definition getStatusIcon (dueDate now : Z) : Icon :=
  let d := daysUntilDue dueDate now in
  if d <? 0 then AlertTriangle
  else if d <=? 7 then Clock
  else CheckCircle.

(** [queryFn] of the "debtor-stats" query of the Debtors page: the same
    figures as [fetchDebtorStats], but the error of the read is not
    looked at. *)
Definition debtorStats_queryFn (now : Z) : M DebtorStats :=
  r <- await debtors_all ;;
  ret (debtorStats now (data r)).

(** ** Sales page: editing the cart *)

(** [updated[existingIndex].quantity += 1]: the first line of the
    product, which is the one [findIndex] answers. *)
Fixpoint increment_first (productId : uuid) (cart : list CartLine) : list CartLine :=
  match cart with
  | [] => []
  | p :: rest =>
      if Nat.eqb (Product.id (product p)) productId
      then mkLine (product p) (quantity p + 1) (sellingPrice p) :: rest
      else p :: increment_first productId rest
  end.

(** [addProductToSale]: a new line carries the product row as fetched,
    one unit and the default selling price [product.cost * 1.5]. *)
Definition addProductToSale (cart : list CartLine) (p : Product.row) : list CartLine :=
  if existsb (fun l => Nat.eqb (Product.id (product l)) (Product.id p)) cart
  then increment_first (Product.id p) cart
  else cart ++ [mkLine p 1 (Product.cost p * 1.5)%float].

Definition removeProductFromSale (cart : list CartLine) (productId : uuid)
  : list CartLine :=
  filter (fun p => negb (Nat.eqb (Product.id (product p)) productId)) cart.

Definition updateProductQuantity (cart : list CartLine) (productId : uuid) (q : Z)
  : list CartLine :=
  if q <=? 0 then removeProductFromSale cart productId
  else map (fun p => if Nat.eqb (Product.id (product p)) productId
                     then mkLine (product p) q (sellingPrice p) else p) cart.

Definition updateSellingPrice (cart : list CartLine) (productId : uuid) (price : float)
  : list CartLine :=
  map (fun p => if Nat.eqb (Product.id (product p)) productId
                then mkLine (product p) (quantity p) price else p) cart.

(** The units of a product a cart asks for. *)
Definition cart_quantity (productId : uuid) (cart : list CartLine) : Z :=
  sum_where (fun l => Nat.eqb (Product.id (product l)) productId) quantity cart.

(** One line per product, and every line asks for at least one unit. *)
Definition cart_ok (cart : list CartLine) : Prop :=
  NoDup (map (fun l => Product.id (product l)) cart) /\
  Forall (fun l => 0 < quantity l) cart.

(** ** Dashboard: a point of the chart *)

(** [from("sales").select("total_amount, total_cost")
      .gte("sale_date", dayStart).lt("sale_date", dayEnd)] *)
Definition sales_in_day (dayStart dayEnd : Z) (s : Store)
  : response (list Sale.row) * Store :=
  (ok (filter (fun x => (dayStart <=? Sale.sale_date x) && (Sale.sale_date x <? dayEnd))
              (sales s)), s).

Record ChartPoint := mkPoint {
  chart_date : string;
  chart_sales : float;
  chart_expenses : float;
  chart_profit : float
}.

(** The body of [chartPromises] for one day, whose label and bounds
    ([startOfDay], [endOfDay]) are given. *)
Definition chartPoint (label : string) (dayStart dayEnd : Z) : M ChartPoint :=
  dayStats <- await (sales_in_day dayStart dayEnd) ;;
  let sales := or_zero (option_map sum_total_amount (data dayStats)) in
  let expenses := or_zero (option_map sum_total_cost (data dayStats)) in
  ret (mkPoint label sales expenses (sales - expenses)%float).

(** ** Analysis page: breakdown by category and by product *)

Module Perf.
(** A row of [productPerformance]: a sale item with its product, if the
    product is still there. *)
Record row := mk {
  quantity : Z;
  unit_price : float;
  unit_cost : float;
  products : option Product.row
}.
End Perf.

Module Figures.
Record t := mk {
  revenue : float;
  cost : float;
  profit : float;
  quantity : Z
}.
End Figures.

(** [s || fallback] on a string. *)
Definition or_else (s fallback : string) : string :=
  if String.eqb s EmptyString then fallback else s.

(** [item.products?.category || 'Uncategorized'] *)
Definition category_of (item : Perf.row) : string :=
  match Perf.products item with
  | Some p => or_else (Product.category p) "Uncategorized"
  | None => "Uncategorized"
  end.

(** [item.products?.name || 'Unknown'] *)
Definition product_name_of (item : Perf.row) : string :=
  match Perf.products item with
  | Some p => or_else (Product.name p) "Unknown"
  | None => "Unknown"
  end.

(** A JavaScript [Map] with string keys: its entries in insertion
    order. *)
Definition JsMap := list (string * Figures.t).

(** [map.get(key)] *)
Definition map_get (key : string) (m : JsMap) : option Figures.t :=
  option_map snd (find (fun e => String.eqb (fst e) key) m).

(** [map.set(key, value)]: an existing key keeps its place. *)
Fixpoint map_set (key : string) (value : Figures.t) (m : JsMap) : JsMap :=
  match m with
  | [] => [(key, value)]
  | e :: rest =>
      if String.eqb (fst e) key then (key, value) :: rest
      else e :: map_set key value rest
  end.

(** The body of the two [forEach] loops, for the key each one groups
    by. *)
Definition tally (key : Perf.row -> string) (m : JsMap) (item : Perf.row) : JsMap :=
  let revenue := (float_of_Z (Perf.quantity item) * Perf.unit_price item)%float in
  let cost := (float_of_Z (Perf.quantity item) * Perf.unit_cost item)%float in
  let profit := (revenue - cost)%float in
  let current :=
    match map_get (key item) m with
    | Some c => c
    | None => Figures.mk 0 0 0 0
    end in
  map_set (key item)
    (Figures.mk (Figures.revenue current + revenue)%float
                (Figures.cost current + cost)%float
                (Figures.profit current + profit)%float
                (Figures.quantity current + Perf.quantity item))
    m.

(** [productPerformance?.forEach(...)] into a fresh map. *)
Definition group_by (key : Perf.row -> string) (productPerformance : option (list Perf.row))
  : JsMap :=
  match productPerformance with
  | Some rows => fold_left (tally key) rows []
  | None => []
  end.

(** [Array.from(categoryMap.entries()).map(([name, data]) => ({name, ...}))] *)
Definition categoryData (productPerformance : option (list Perf.row)) : JsMap :=
  group_by category_of productPerformance.

(** The comparator [(a, b) => b.profit - a.profit]. *)
Definition compare_profit (a b : string * Figures.t) : float :=
  (Figures.profit (snd b) - Figures.profit (snd a))%float.

(** The comparator sends [a] behind [b]: its answer is positive. *)
Definition sorts_after (a b : string * Figures.t) : bool :=
  (0 <? compare_profit a b)%float.

(** [.sort(comparator)]: a stable sort; an entry moves behind those the
    comparator sends it behind. *)
Fixpoint insert_by_profit (x : string * Figures.t) (sorted : JsMap) : JsMap :=
  match sorted with
  | [] => [x]
  | y :: rest =>
      if sorts_after x y
      then y :: insert_by_profit x rest
      else x :: y :: rest
  end.

Definition sort_by_profit (entries : JsMap) : JsMap :=
  fold_right insert_by_profit [] entries.

(** [Array.from(productMap.entries()).map(...).sort(...).slice(0, 10)] *)
Definition topProducts (productPerformance : option (list Perf.row)) : JsMap :=
  firstn 10 (sort_by_profit (group_by product_name_of productPerformance)).

(** [productPerformance?.reduce((sum, item) => sum + item.quantity, 0) || 0] *)
Definition totalQuantitySold (productPerformance : option (list Perf.row)) : Z :=
  int_or_zero (option_map
             (fun rows => fold_left (fun sum item => sum + Perf.quantity item) rows 0)
             productPerformance).

(** ** More sample data *)

(** The shop when the first call of an operation fails. *)
Definition first_call_fails : World :=
  mkWorld shop [Some (PostgrestError "TypeError: Failed to fetch")] (Some 7%nat).

(** ** Frames *)

(** A computation each of whose runs takes the tables from a state to a
    state related by [R]. *)
Definition every_run (R : Store -> Store -> Prop) {A} (m : M A) : Prop :=
  forall w, R (store w) (store (snd (m w))).

(** What [markAsPaidMutation] on debtor [d] may change: is_resolved and
    updated_at of the rows of debtor [d], and the payment status of
    sales. *)
Definition marks_only (d : uuid) (s s' : Store) : Prop :=
  products s' = products s /\
  customers s' = customers s /\
  sale_items s' = sale_items s /\
  filter (fun r => negb (Nat.eqb (Debtor.id r) d)) (debtors s')
  = filter (fun r => negb (Nat.eqb (Debtor.id r) d)) (debtors s) /\
  map (fun r => (Debtor.id r, Debtor.sale_id r, Debtor.customer_id r,
                 Debtor.amount_owed r, Debtor.due_date r)) (debtors s')
  = map (fun r => (Debtor.id r, Debtor.sale_id r, Debtor.customer_id r,
                   Debtor.amount_owed r, Debtor.due_date r)) (debtors s) /\
  map (Sale.set_payment_status paid) (sales s')
  = map (Sale.set_payment_status paid) (sales s).

(** What [deleteSaleMutation] on sale [saleId] may change, whatever the
    fate of its calls: stock_quantity and updated_at of products, and
    the presence of the sales carrying that identifier. *)
Definition deletes_only (saleId : uuid) (s s' : Store) : Prop :=
  customers s' = customers s /\
  debtors s' = debtors s /\
  map (fun p => (Product.id p, Product.name p, Product.category p, Product.cost p,
                 Product.is_active p)) (products s')
  = map (fun p => (Product.id p, Product.name p, Product.category p, Product.cost p,
                   Product.is_active p)) (products s) /\
  (forall x, In x (sales s') -> In x (sales s)) /\
  (forall x, In x (sales s) -> Sale.id x <> saleId -> In x (sales s')).

(** "saleDate exactly at the end of the day's bounds" *)
Definition at_day_end (dayStart dayEnd : Z) (x : Sale.row) : bool :=
  (dayStart <=? Sale.sale_date x) && (Sale.sale_date x =? dayEnd).

(** The revenue, the cost and the profit of one item, as the page
    computes them. *)
Definition item_revenue (item : Perf.row) : float :=
  (float_of_Z (Perf.quantity item) * Perf.unit_price item)%float.
Definition item_cost (item : Perf.row) : float :=
  (float_of_Z (Perf.quantity item) * Perf.unit_cost item)%float.
Definition item_profit (item : Perf.row) : float :=
  (item_revenue item - item_cost item)%float.

(** The figures of one item added to the figures of its group. *)
Definition add_item (c : Figures.t) (item : Perf.row) : Figures.t :=
  Figures.mk (Figures.revenue c + item_revenue item)%float
             (Figures.cost c + item_cost item)%float
             (Figures.profit c + item_profit item)%float
             (Figures.quantity c + Perf.quantity item).

(** "for each group: quantity = Σ quantity, revenue = Σ quantity×unitPrice,
    cost = Σ quantity×unitCost, profit = Σ of the items' profits", the
    money added up in double precision in the order of the items. *)
Definition group_figures (key : Perf.row -> string) (k : string) (rows : list Perf.row)
  : Figures.t :=
  let mine := fun i => String.eqb (key i) k in
  Figures.mk (fsum_where mine item_revenue rows)
             (fsum_where mine item_cost rows)
             (fsum_where mine item_profit rows)
             (sum_where mine Perf.quantity rows).

(** The sum of one integer figure over the entries of a map. *)
Definition sum_figure (f : Figures.t -> Z) (m : JsMap) : Z :=
  sum_where everything (fun e => f (snd e)) m.

(** "sorted descending by profit": the profit of [b] is at most the
    profit of [a]. *)
Definition by_profit (a b : string * Figures.t) : Prop :=
  (Figures.profit (snd b) <=? Figures.profit (snd a))%float = true.

(** Every profit in a map is a number.  (A profit that is not a number
    compares with nothing: the comparator is then not consistent, and
    [Array.prototype.sort] leaves the order open.) *)
Definition profits_are_numbers (m : JsMap) : Prop :=
  Forall (fun e => is_nan (Figures.profit (snd e)) = false) m.

(** Items sold in the shop: two soaps, three bags of rice, and one soap
    more. *)
Definition items_sold : list Perf.row :=
  [Perf.mk 2 15 10 (Some soap); Perf.mk 3 15 8 (Some rice); Perf.mk 1 14.5 10 (Some soap)].

(** Items of which one overflows: ten units at a price and at a cost of
    1e308 make a revenue and a cost of infinity, and a profit that is
    not a number. *)
Definition salt : Product.row := Product.mk 22 "Salt" "Food" 10 50 true 0.
Definition items_that_overflow : list Perf.row :=
  [Perf.mk 1 11 10 (Some soap); Perf.mk 10 1e308 1e308 (Some rice);
   Perf.mk 1 12 10 (Some salt)].

(** ** Sales that match their items *)

(** What the items of a sale add up to, for one figure of an item: the
    items are taken in table order and added up in double precision. *)
Definition items_total (f : SaleItem.row -> float) (saleId : uuid) (s : Store) : float :=
  fsum_where (fun i => Nat.eqb (SaleItem.sale_id i) saleId) f (sale_items s).

(** Every sale has its own identifier, identifiers in use were issued
    by the store, and the totals on every sale are what its items add
    up to, unit price times quantity and unit cost times quantity. *)
Definition sales_match_items (s : Store) : Prop :=
  NoDup (map Sale.id (sales s)) /\
  Forall (fun x => (Sale.id x < next_id s)%nat) (sales s) /\
  Forall (fun i => (SaleItem.sale_id i < next_id s)%nat) (sale_items s) /\
  Forall (fun x =>
            Sale.total_amount x
            = items_total (fun i => SaleItem.unit_price i * float_of_Z (SaleItem.quantity i))%float
                          (Sale.id x) s /\
            Sale.total_cost x
            = items_total (fun i => SaleItem.unit_cost i * float_of_Z (SaleItem.quantity i))%float
                          (Sale.id x) s)
         (sales s).

(** A shop whose sales carry the totals of their items. *)
Definition tidy_shop : Store :=
  mkStore [soap; rice]
          [Customer.mk 100 "Ann" None None; Customer.mk 101 "Bob" None None]
          [sale_of_ann; Sale.mk 11 101 7 45 24 pending None 6000]
          [SaleItem.mk 30 10 20 2 15 10; SaleItem.mk 31 11 21 3 15 8]
          [ann_owes]
          40.

(** No product is recorded with a negative stock. *)
Definition stock_never_negative (s : Store) : Prop :=
  Forall (fun p => 0 <= Product.stock_quantity p) (products s).

(** A step that keeps a property of the tables. *)
Definition keeps (P : Store -> Prop) (s s' : Store) : Prop := P s -> P s'.

(** ** Facts about doubles

    Derived from the specification of the binary64 operations
    ([SpecFloat]) that the primitive floats are bound to. *)

Lemma digits2_pos_size (p : positive) : digits2_pos p = Pos.size p.
Proof. induction p; simpl; congruence. Qed.

Lemma digits2_bounds (p : positive) :
  2 ^ (Zpos (digits2_pos p) - 1) <= Zpos p < 2 ^ Zpos (digits2_pos p).
Proof.
  rewrite digits2_pos_size.
  pose proof (Pos.size_gt p) as Hgt. pose proof (Pos.size_le p) as Hle.
  apply Pos2Z.pos_lt_pos in Hgt. apply Pos2Z.pos_le_pos in Hle.
  rewrite Pos2Z.inj_pow in Hgt, Hle.
  change (Zpos p~0) with (2 * Zpos p) in Hle.
  split; [|exact Hgt].
  assert (E : 2 ^ Zpos (Pos.size p) = 2 * 2 ^ (Zpos (Pos.size p) - 1)).
  { rewrite <- Z.pow_succ_r by lia. f_equal. lia. }
  lia.
Qed.

Lemma shr_1_m (mrs : shr_record) :
  0 <= shr_m mrs -> shr_m (shr_1 mrs) = shr_m mrs / 2.
Proof.
  destruct mrs as [m r s]. simpl. intros Hm.
  destruct m as [|[p|p|]|p]; simpl in *.
  - reflexivity.
  - change (Zpos p~1) with (1 + 2 * Zpos p).
    rewrite Z.add_comm, Z.mul_comm, Z.div_add_l by lia. reflexivity.
  - change (Zpos p~0) with (2 * Zpos p).
    rewrite Z.mul_comm, Z.div_mul by lia. reflexivity.
  - reflexivity.
  - lia.
Qed.

Lemma iter_pos_shr_1 (n : positive) (mrs : shr_record) :
  0 <= shr_m mrs ->
  shr_m (iter_pos shr_1 n mrs) = shr_m mrs / 2 ^ Zpos n.
Proof.
  revert mrs. induction n as [n IH|n IH|]; intros mrs Hm; cbn [iter_pos].
  - assert (H1 : 0 <= shr_m (shr_1 mrs)).
    { rewrite shr_1_m by exact Hm. apply Z.div_pos; lia. }
    assert (H2 : 0 <= shr_m (iter_pos shr_1 n (shr_1 mrs))).
    { rewrite IH by exact H1. apply Z.div_pos; [exact H1|]. apply Z.pow_pos_nonneg; lia. }
    rewrite IH by exact H2. rewrite IH by exact H1. rewrite shr_1_m by exact Hm.
    rewrite !Z.div_div by (try apply Z.pow_pos_nonneg; lia).
    f_equal.
    replace (Zpos n~1) with (Zpos n + Zpos n + 1) by lia.
    rewrite Z.pow_add_r by lia. rewrite Z.pow_add_r by lia.
    change (2 ^ 1) with 2. ring.
  - assert (H2 : 0 <= shr_m (iter_pos shr_1 n mrs)).
    { rewrite IH by exact Hm. apply Z.div_pos; [exact Hm|]. apply Z.pow_pos_nonneg; lia. }
    rewrite IH by exact H2. rewrite IH by exact Hm.
    rewrite !Z.div_div by (try apply Z.pow_pos_nonneg; lia).
    f_equal.
    replace (Zpos n~0) with (Zpos n + Zpos n) by lia.
    rewrite Z.pow_add_r by lia. ring.
  - rewrite shr_1_m by exact Hm. reflexivity.
Qed.

Lemma fexp_ge_emin (e : Z) : emin <= fexp prec emax e.
Proof. unfold fexp. apply Z.le_max_r. Qed.

(** Rounding a positive mantissa whose exponent is not below the least
    one never gives zero. *)
Lemma shr_fexp_pos (m e : Z) (l : location) :
  0 < m -> emin <= e ->
  0 < shr_m (fst (shr_fexp prec emax m e l)) /\
  emin <= snd (shr_fexp prec emax m e l).
Proof.
  intros Hm He. unfold shr_fexp, shr.
  assert (Hrec : shr_m (shr_record_of_loc m l) = m)
    by (destruct l as [|[| |]]; reflexivity).
  destruct m as [|p|p]; try lia.
  cbn [Zdigits2].
  pose proof (digits2_bounds p) as Hd.
  set (d := Zpos (digits2_pos p)) in *.
  unfold fexp.
  destruct (Z.max (d + e - prec) (SpecFloat.emin prec emax) - e) as [|n|n] eqn:En;
    cbn [fst snd]; rewrite ?Hrec; try (split; lia).
  rewrite iter_pos_shr_1 by (rewrite Hrec; lia). rewrite Hrec.
  assert (Hn : Zpos n = d - prec).
  { unfold prec, emax, SpecFloat.emin in *. lia. }
  split; [|lia].
  apply Z.div_str_pos. split; [apply Z.pow_pos_nonneg; lia|].
  rewrite Hn. apply Z.le_trans with (2 ^ (d - 1)); [|lia].
  apply Z.pow_le_mono_r; unfold prec; lia.
Qed.


Lemma round_nearest_even_ge (m : Z) (l : location) : m <= round_nearest_even m l.
Proof.
  destruct l as [|[| |]]; simpl; try lia. destruct (Z.even m); lia.
Qed.

(** A rounded positive number is positive: a finite double or infinity. *)
Lemma binary_round_aux_pos (m e : Z) (l : location) :
  0 < m -> emin <= e ->
  SFltb (S754_zero false) (binary_round_aux prec emax false m e l) = true.
Proof.
  intros Hm He. unfold binary_round_aux.
  destruct (shr_fexp_pos m e l Hm He) as (Hm1 & He1).
  destruct (shr_fexp prec emax m e l) as [mrs' e'] eqn:E1. cbn [fst snd] in Hm1, He1.
  pose proof (round_nearest_even_ge (shr_m mrs') (loc_of_shr_record mrs')) as Hr.
  set (m1 := round_nearest_even (shr_m mrs') (loc_of_shr_record mrs')) in *.
  destruct (shr_fexp_pos m1 e' loc_Exact ltac:(lia) He1) as (Hm2 & _).
  destruct (shr_fexp prec emax m1 e' loc_Exact) as [mrs'' e''] eqn:E2.
  cbn [fst snd] in Hm2.
  destruct (shr_m mrs'') as [|p|p]; try lia.
  destruct (e'' <=? emax - prec); reflexivity.
Qed.

Lemma binary_round_aux_neg (m e : Z) (l : location) :
  SFltb (S754_zero false) (binary_round_aux prec emax true m e l) = false.
Proof.
  unfold binary_round_aux.
  destruct (shr_fexp prec emax m e l) as [mrs' e'].
  destruct (shr_fexp prec emax _ e' loc_Exact) as [mrs'' e''].
  destruct (shr_m mrs'') as [|p|p]; try reflexivity.
  destruct (e'' <=? emax - prec); reflexivity.
Qed.

Lemma binary_normalize_sign (m e : Z) :
  emin <= e ->
  SFltb (S754_zero false) (binary_normalize prec emax m e false) = (0 <? m).
Proof.
  intros He. unfold binary_normalize, binary_round.
  destruct m as [|p|p]; [reflexivity| |].
  - destruct (shl_align p e (fexp prec emax (Zpos (digits2_pos p) + e))) as [mz ez] eqn:E.
    change (0 <? Zpos p) with true.
    apply binary_round_aux_pos; [lia|].
    unfold shl_align in E.
    destruct (fexp prec emax (Zpos (digits2_pos p) + e) - e) eqn:Ed;
      injection E as _ <-; try exact He.
    apply fexp_ge_emin.
  - destruct (shl_align p e (fexp prec emax (Zpos (digits2_pos p) + e))) as [mz ez].
    apply binary_round_aux_neg.
Qed.

Lemma iter_xO (m d : positive) : Zpos (Pos.iter xO m d) = Zpos m * 2 ^ Zpos d.
Proof.
  induction d as [|d IH] using Pos.peano_ind.
  - simpl. lia.
  - rewrite Pos.iter_succ, Pos2Z.inj_xO, IH, Pos2Z.inj_succ, Z.pow_succ_r by lia. ring.
Qed.

Lemma shl_align_fst (m : positive) (e e' : Z) :
  e' <= e -> Zpos (fst (shl_align m e e')) = Zpos m * 2 ^ (e - e').
Proof.
  intros Hle. unfold shl_align.
  destruct (e' - e) as [|d|d] eqn:Ed; cbn [fst]; try lia.
  - replace (e - e') with 0 by lia. lia.
  - rewrite iter_xO. f_equal. f_equal. lia.
Qed.

(** What a valid finite double owes to its format: the exponent is not
    below the least one, the mantissa has at most [prec] digits, and
    exactly [prec] above the least exponent. *)
Lemma bounded_canonical (m : positive) (e : Z) :
  bounded prec emax m e = true ->
  emin <= e /\ Zpos m < 2 ^ prec /\ (emin < e -> 2 ^ (prec - 1) <= Zpos m).
Proof.
  unfold bounded, canonical_mantissa, fexp. intros H.
  apply andb_true_iff in H. destruct H as (H & _). apply Z.eqb_eq in H.
  pose proof (digits2_bounds m) as (Hlo & Hhi).
  set (d := Zpos (digits2_pos m)) in *.
  assert (Hd : d <= prec) by lia.
  split; [lia|]. split.
  - apply Z.lt_le_trans with (2 ^ d); [exact Hhi|].
    apply Z.pow_le_mono_r; lia.
  - intros He. assert (d = prec) by lia. subst d. rewrite <- H0. exact Hlo.
Qed.

(** The sign of a difference tells the order: [y - x] is positive
    exactly when [x] is less than [y]. *)
Lemma SFsub_sign (X Y : spec_float) :
  valid_binary X = true -> valid_binary Y = true ->
  SFltb (S754_zero false) (SFsub prec emax Y X) = SFltb X Y.
Proof.
  intros HX HY.
  destruct X as [sx|sx| |sx mx ex], Y as [sy|sy| |sy my ey];
    try reflexivity;
    try (destruct sx; try destruct sy; reflexivity);
    try (destruct sy; reflexivity).
  cbn [valid_binary] in HX, HY.
  destruct (bounded_canonical mx ex HX) as (Hex & Hmx & Hnx).
  destruct (bounded_canonical my ey HY) as (Hey & Hmy & Hny).
  cbn [SFsub]. cbv zeta.
  rewrite binary_normalize_sign by lia.
  rewrite (shl_align_fst my ey (Z.min ey ex)) by lia.
  rewrite (shl_align_fst mx ex (Z.min ey ex)) by lia.
  unfold SFltb, SFcompare.
  change (Pos.compare_cont Eq mx my) with (Pos.compare mx my).
  assert (Hpow : forall k, 0 < k -> 2 <= 2 ^ k).
  { intros k Hk. change 2 with (2 ^ 1) at 1. apply Z.pow_le_mono_r; lia. }
  assert (H53 : 2 ^ prec = 2 * 2 ^ (prec - 1)) by reflexivity.
  destruct (Z.compare_spec ex ey) as [He|He|He].
  - subst ey. rewrite Z.min_id, Z.sub_diag. change (2 ^ 0) with 1.
    destruct (Pos.compare_spec mx my) as [Hm|Hm|Hm];
      destruct sx, sy; cbn [cond_Zopp CompOpp];
      try apply Z.ltb_lt; try apply Z.ltb_ge; try lia.
  - rewrite Z.min_r by lia. rewrite Z.sub_diag. change (2 ^ 0) with 1.
    pose proof (Hpow (ey - ex) ltac:(lia)) as Hk.
    pose proof (Hny ltac:(lia)) as Hbig.
    destruct sx, sy; cbn [cond_Zopp];
      try apply Z.ltb_lt; try apply Z.ltb_ge; nia.
  - rewrite Z.min_l by lia. rewrite Z.sub_diag. change (2 ^ 0) with 1.
    pose proof (Hpow (ex - ey) ltac:(lia)) as Hk.
    pose proof (Hnx ltac:(lia)) as Hbig.
    destruct sx, sy; cbn [cond_Zopp];
      try apply Z.ltb_lt; try apply Z.ltb_ge; nia.
Qed.

Ltac split_compare :=
  repeat match goal with
  | H : context [Z.compare ?a ?b] |- _ =>
      destruct (Z.compare_spec a b); cbn [CompOpp] in H; try discriminate H
  | H : context [Pos.compare ?a ?b] |- _ =>
      destruct (Pos.compare_spec a b); cbn [CompOpp] in H; try discriminate H
  | |- context [Z.compare ?a ?b] =>
      destruct (Z.compare_spec a b); cbn [CompOpp]; try reflexivity
  | |- context [Pos.compare ?a ?b] =>
      destruct (Pos.compare_spec a b); cbn [CompOpp]; try reflexivity
  end.

Lemma SFltb_asym (X Y : spec_float) : SFltb X Y = true -> SFltb Y X = false.
Proof.
  unfold SFltb, SFcompare.
  destruct X as [sx|sx| |sx mx ex], Y as [sy|sy| |sy my ey];
    try (intros _; reflexivity); try discriminate;
    try (destruct sx; try destruct sy; (discriminate || reflexivity));
    try (destruct sy; (discriminate || reflexivity)).
  change (Pos.compare_cont Eq mx my) with (Pos.compare mx my).
  change (Pos.compare_cont Eq my mx) with (Pos.compare my mx).
  destruct sx, sy; intros H; try reflexivity; try discriminate H;
    split_compare; subst; try lia.
Qed.

Lemma SFltb_neg_trans (X Y Z : spec_float) :
  Y <> S754_nan ->
  SFltb X Y = false -> SFltb Y Z = false -> SFltb X Z = false.
Proof.
  unfold SFltb, SFcompare. intros HY.
  destruct X as [sx|sx| |sx mx ex], Y as [sy|sy| |sy my ey], Z as [sz|sz| |sz mz ez];
    try reflexivity; try congruence;
    repeat match goal with s : bool |- _ => destruct s end;
    try reflexivity; try discriminate;
    change (Pos.compare_cont Eq) with Pos.compare;
    intros H1 H2; try discriminate H1; try discriminate H2; try reflexivity;
    split_compare; subst; try lia.
Qed.

Lemma SFleb_not_ltb (X Y : spec_float) :
  X <> S754_nan -> Y <> S754_nan -> SFleb X Y = negb (SFltb Y X).
Proof.
  unfold SFleb, SFltb, SFcompare. intros HX HY.
  destruct X as [sx|sx| |sx mx ex], Y as [sy|sy| |sy my ey];
    try congruence;
    repeat match goal with s : bool |- _ => destruct s end;
    try reflexivity;
    change (Pos.compare_cont Eq) with Pos.compare;
    split_compare; subst; try lia.
Qed.

Lemma not_nan (x : float) : is_nan x = false -> Prim2SF x <> S754_nan.
Proof.
  unfold is_nan. rewrite eqb_spec. intros H E. rewrite E in H. discriminate H.
Qed.

(** [0 < y - x] is [x < y], for all doubles. *)
Lemma sub_positive (x y : float) : (0 <? y - x)%float = (x <? y)%float.
Proof.
  rewrite !ltb_spec, sub_spec. apply SFsub_sign; apply Prim2SF_valid.
Qed.

Lemma ltb_asym (x y : float) : (x <? y)%float = true -> (y <? x)%float = false.
Proof. rewrite !ltb_spec. apply SFltb_asym. Qed.

Lemma ltb_neg_trans (x y z : float) :
  is_nan y = false ->
  (x <? y)%float = false -> (y <? z)%float = false -> (x <? z)%float = false.
Proof. intros Hy. rewrite !ltb_spec. apply SFltb_neg_trans, not_nan, Hy. Qed.

Lemma leb_not_ltb (x y : float) :
  is_nan x = false -> is_nan y = false -> (x <=? y)%float = negb (y <? x)%float.
Proof.
  intros Hx Hy. rewrite leb_spec, ltb_spec.
  apply SFleb_not_ltb; apply not_nan; assumption.
Qed.

(** ** Facts about sums *)

Lemma fold_left_add_shift {A} (f : A -> Z) (rows : list A) (acc : Z) :
  fold_left (fun sum r => sum + f r) rows acc
  = acc + fold_left (fun sum r => sum + f r) rows 0.
Proof.
  revert acc; induction rows as [|r rest IH]; intros acc; simpl.
  - lia.
  - rewrite IH, (IH (f r)). lia.
Qed.

Lemma reduce_sum {A} (f : A -> Z) (rows : list A) :
  fold_left (fun sum r => sum + f r) rows 0 = sum_where everything f rows.
Proof.
  induction rows as [|r rest IH]; simpl; [reflexivity|].
  rewrite fold_left_add_shift, IH. reflexivity.
Qed.

Lemma length_filter_count {A} (keep : A -> bool) (rows : list A) :
  Z.of_nat (List.length (filter keep rows)) = count_where keep rows.
Proof.
  induction rows as [|r rest IH]; simpl; [reflexivity|].
  destruct (keep r); simpl List.length; lia.
Qed.

Lemma sum_where_filter {A} (keep : A -> bool) (f : A -> Z) (rows : list A) :
  sum_where everything f (filter keep rows) = sum_where keep f rows.
Proof.
  induction rows as [|r rest IH]; simpl; [reflexivity|].
  destruct (keep r); simpl; rewrite IH; reflexivity.
Qed.

Lemma int_or_zero_Some (v : Z) : int_or_zero (Some v) = v.
Proof.
  unfold int_or_zero. destruct (v =? 0) eqn:E; [|reflexivity].
  apply Z.eqb_eq in E. congruence.
Qed.

(** ** Facts about sums of money *)

(** The code's [filter] and [reduce] go through the rows as the sum of
    the specification does. *)
Lemma reduce_filter_fsum_from {A} (keep : A -> bool) (f : A -> float) (rows : list A)
  (acc : float) :
  fold_left (fun sum r => (sum + f r)%float) (filter keep rows) acc
  = fsum_from keep f acc rows.
Proof.
  revert acc. induction rows as [|r rest IH]; intros acc; simpl; [reflexivity|].
  destruct (keep r); simpl; apply IH.
Qed.

Lemma reduce_filter_fsum {A} (keep : A -> bool) (f : A -> float) (rows : list A) :
  fold_left (fun sum r => (sum + f r)%float) (filter keep rows) 0%float
  = fsum_where keep f rows.
Proof. apply reduce_filter_fsum_from. Qed.

Lemma reduce_fsum_from {A} (f : A -> float) (rows : list A) (acc : float) :
  fold_left (fun sum r => (sum + f r)%float) rows acc = fsum_from everything f acc rows.
Proof.
  revert acc. induction rows as [|r rest IH]; intros acc; simpl; [reflexivity|].
  apply IH.
Qed.

Lemma reduce_fsum {A} (f : A -> float) (rows : list A) :
  fold_left (fun sum r => (sum + f r)%float) rows 0%float = fsum_where everything f rows.
Proof. apply reduce_fsum_from. Qed.

Lemma fsum_from_filter {A} (keep : A -> bool) (f : A -> float) (rows : list A)
  (acc : float) :
  fsum_from everything f acc (filter keep rows) = fsum_from keep f acc rows.
Proof.
  revert acc. induction rows as [|r rest IH]; intros acc; simpl; [reflexivity|].
  destruct (keep r); simpl; apply IH.
Qed.

Lemma fsum_from_ext {A} (keep keep' : A -> bool) (f f' : A -> float) (rows : list A)
  (acc : float) :
  (forall r, In r rows -> keep r = keep' r) ->
  (forall r, In r rows -> keep r = true -> f r = f' r) ->
  fsum_from keep f acc rows = fsum_from keep' f' acc rows.
Proof.
  revert acc. induction rows as [|r rest IH]; intros acc Hk Hf; simpl; [reflexivity|].
  rewrite <- (Hk r (or_introl eq_refl)).
  destruct (keep r) eqn:E.
  - rewrite <- (Hf r (or_introl eq_refl) E).
    apply IH; intros; [apply Hk | apply Hf]; auto; right; assumption.
  - apply IH; intros; [apply Hk | apply Hf]; auto; right; assumption.
Qed.

Lemma fsum_from_app {A} (keep : A -> bool) (f : A -> float) (a b : list A) (acc : float) :
  fsum_from keep f acc (a ++ b) = fsum_from keep f (fsum_from keep f acc a) b.
Proof.
  revert acc. induction a as [|r rest IH]; intros acc; simpl; [reflexivity|]. apply IH.
Qed.

Lemma fsum_from_none {A} (keep : A -> bool) (f : A -> float) (rows : list A) (acc : float) :
  filter keep rows = [] -> fsum_from keep f acc rows = acc.
Proof.
  intros H. rewrite <- fsum_from_filter, H. reflexivity.
Qed.

(** The figure [sum || 0] shows the sum. *)
Lemma or_zero_shows (sum : float) : shows (or_zero (Some sum)) sum.
Proof.
  unfold shows, or_zero, falsy.
  destruct (is_nan sum) eqn:En.
  - rewrite orb_true_r. reflexivity.
  - rewrite orb_false_r. destruct (sum =? 0)%float eqn:Ez; [exact Ez|].
    unfold is_nan in En. apply negb_false_iff in En. exact En.
Qed.

(** ** Due dates *)

Lemma ceil_div_spec (a b n : Z) :
  0 < b -> (ceil_div a b = n <-> (n - 1) * b < a <= n * b).
Proof.
  intros Hb. unfold ceil_div.
  pose proof (Z.div_mod (- a) b ltac:(lia)) as Hdm.
  pose proof (Z.mod_pos_bound (- a) b Hb) as Hm.
  split; intros H; nia.
Qed.

Lemma daysUntilDue_negative (due now : Z) :
  daysUntilDue due now < 0 <-> due <= now - day_ms.
Proof.
  unfold daysUntilDue.
  assert (Hd : 0 < day_ms) by reflexivity.
  pose proof (proj1 (ceil_div_spec (due - now) day_ms _ Hd) eq_refl) as H.
  split; intros; nia.
Qed.

(** C5, as the code has it.  The number of days until a due date is the
    ceiling of (dueDate - now) over one day.  The due-date cell is red
    (Overdue) exactly when that number is negative, which is when the
    due date lies a whole day or more in the past.  A due date equal to
    now gives 0 days, "Due today", and is not Overdue; so does a due date
    one millisecond in the past. *)
Theorem due_date_urgency (due now : Z) :
  (forall n, daysUntilDue due now = n
             <-> (n - 1) * day_ms < due - now <= n * day_ms) /\
  (getStatusColor due now = "text-red-600" <-> daysUntilDue due now < 0) /\
  (getStatusColor due now = "text-red-600" <-> due <= now - day_ms) /\
  (daysUntilDue now now = 0 /\ dueLabel now now = DueToday /\
   getStatusColor now now = "text-yellow-600") /\
  (daysUntilDue (now - 1) now = 0 /\ dueLabel (now - 1) now = DueToday /\
   getStatusColor (now - 1) now = "text-yellow-600").
Proof.
  assert (Hcolor : getStatusColor due now = "text-red-600" <-> daysUntilDue due now < 0).
  { unfold getStatusColor.
    destruct (daysUntilDue due now <? 0) eqn:E.
    - apply Z.ltb_lt in E. tauto.
    - apply Z.ltb_ge in E.
      destruct (daysUntilDue due now <=? 7); split; (discriminate || lia). }
  assert (Hnow : daysUntilDue now now = 0).
  { apply ceil_div_spec; [reflexivity|]. unfold day_ms. lia. }
  assert (Hpast : daysUntilDue (now - 1) now = 0).
  { apply ceil_div_spec; [reflexivity|]. unfold day_ms. lia. }
  split; [|split; [|split; [|split]]].
  - intros n. apply ceil_div_spec. reflexivity.
  - exact Hcolor.
  - rewrite Hcolor. apply daysUntilDue_negative.
  - unfold dueLabel, getStatusColor. rewrite Hnow. auto.
  - unfold dueLabel, getStatusColor. rewrite Hpast. auto.
Qed.

(** C5, as the specification words it, fails: a due date one
    millisecond before now is in the past, yet its cell is not red. *)
Lemma one_millisecond_late_is_not_overdue :
  999 < 1000 /\ getStatusColor 999 1000 <> "text-red-600" /\
  ~ (forall due now, getStatusColor due now = "text-red-600" <-> due < now).
Proof.
  split; [lia|]. split; [discriminate|].
  intros H. specialize (H 999 1000).
  assert (F : getStatusColor 999 1000 = "text-red-600") by (apply H; lia).
  discriminate F.
Qed.

(** ** Debtor statistics *)

Lemma debtorStats_sums (now : Z) (ds : list Debtor.row) :
  debtorStats now (Some ds)
  = mkStats (or_zero (Some (fsum_where unresolved Debtor.amount_owed ds)))
            (count_where (overdue_at now) ds)
            (or_zero (Some (fsum_where Debtor.is_resolved Debtor.amount_owed ds)))
            (count_where unresolved ds).
Proof.
  unfold debtorStats; simpl option_map. rewrite !int_or_zero_Some.
  unfold sum_amount_owed. rewrite !reduce_filter_fsum, !length_filter_count.
  reflexivity.
Qed.

(** C7.  Whenever the debtors can be read, [fetchDebtorStats] returns
    statistics and changes nothing.  The outstanding total shows the sum
    of amount_owed over all unresolved debtors (no date filter), the
    resolved total shows the sum of amount_owed over all resolved
    debtors, both sums being taken row after row in double precision;
    the overdue count is the number of unresolved debtors whose due date
    is strictly before the instant of the call.  With no debtors, and on
    null data, all the figures are zero. *)
Theorem debtor_stats_are_global (now : Z) (w : World) :
  next_fault w = None ->
  let ds := debtors (store w) in
  exists st,
    fst (fetchDebtorStats now w) = Returned st /\
    store (snd (fetchDebtorStats now w)) = store w /\
    shows (totalOutstanding st) (fsum_where unresolved Debtor.amount_owed ds) /\
    shows (totalResolved st) (fsum_where Debtor.is_resolved Debtor.amount_owed ds) /\
    overdueDebtors st = count_where (overdue_at now) ds /\
    activeDebtors st = count_where unresolved ds /\
    (ds = [] -> st = mkStats 0 0 0 0) /\
    debtorStats now (Some []) = mkStats 0 0 0 0 /\
    debtorStats now None = mkStats 0 0 0 0.
Proof.
  intros Hf ds.
  assert (E : fetchDebtorStats now w
              = (Returned (debtorStats now (Some ds)),
                 mkWorld (store w) (tl (faults w)) (auth_user w))).
  { unfold fetchDebtorStats, bind, await. rewrite Hf. reflexivity. }
  exists (debtorStats now (Some ds)). rewrite E.
  split; [reflexivity|]. split; [reflexivity|].
  rewrite debtorStats_sums.
  cbn [totalOutstanding totalResolved overdueDebtors activeDebtors].
  split; [apply or_zero_shows|]. split; [apply or_zero_shows|].
  split; [reflexivity|]. split; [reflexivity|].
  split; [|split; reflexivity].
  intros Hds. rewrite Hds. reflexivity.
Qed.

Lemma debtor_stats_are_global_witness :
  exists st,
    fst (fetchDebtorStats 6000 calm_shop) = Returned st /\
    shows (totalOutstanding st) (30 + 45)%float /\
    shows (totalResolved st) 70%float /\
    overdueDebtors st = 1 /\ activeDebtors st = 2.
Proof.
  destruct (debtor_stats_are_global 6000 calm_shop eq_refl)
    as (st & Hst & _ & Hout & Hres & Hover & Hactive & _).
  exists st. repeat split; assumption.
Defined.

(** ** Totals of a period *)

Lemma metrics_sums (keep : Sale.row -> bool) (rows : list Sale.row) :
  Report.metrics (Some (filter keep rows))
  = let revenue := or_zero (Some (fsum_where keep Sale.total_amount rows)) in
    let cost := or_zero (Some (fsum_where keep Sale.total_cost rows)) in
    Report.mkTotals revenue cost (revenue - cost)%float (count_where keep rows).
Proof.
  unfold Report.metrics; simpl option_map. rewrite int_or_zero_Some.
  unfold sum_total_amount, sum_total_cost.
  rewrite !reduce_filter_fsum, length_filter_count. reflexivity.
Qed.

(** C8, as the code has it.  For every period from start to end, both
    ends included, the dashboard and the analysis page report the same
    totals: the revenue shows the sum of total_amount and the cost shows
    the sum of total_cost, taken row after row in double precision over
    exactly the sales whose sale_date lies in the period; the profit is
    the difference of the two figures, and the count is the number of
    those sales. *)
Theorem period_totals (start end_ : Z) (w : World) :
  next_fault w = None ->
  let rows := sales (store w) in
  exists t,
    fst (Dashboard.stats start end_ w) = Returned t /\
    fst (Analysis.analyticsData start end_ w) = Returned t /\
    shows (Report.totalRevenue t)
          (fsum_where (in_closed start end_) Sale.total_amount rows) /\
    shows (Report.totalCost t)
          (fsum_where (in_closed start end_) Sale.total_cost rows) /\
    Report.totalProfit t = (Report.totalRevenue t - Report.totalCost t)%float /\
    Report.salesCount t = count_where (in_closed start end_) rows.
Proof.
  intros Hf rows.
  exists (Report.metrics (Some (filter (in_closed start end_) rows))).
  split; [|split].
  - unfold Dashboard.stats, bind, await. rewrite Hf. reflexivity.
  - unfold Analysis.analyticsData, bind, await. rewrite Hf. reflexivity.
  - rewrite metrics_sums.
    cbn [Report.totalRevenue Report.totalCost Report.totalProfit Report.salesCount].
    split; [apply or_zero_shows|]. split; [apply or_zero_shows|].
    split; reflexivity.
Qed.

Lemma period_totals_witness :
  exists t,
    fst (Dashboard.stats 500 4000 calm_shop) = Returned t /\
    shows (Report.totalRevenue t) (30 + 70)%float /\
    shows (Report.totalCost t) (20 + 40)%float /\
    Report.salesCount t = 2.
Proof.
  destruct (period_totals 500 4000 calm_shop eq_refl)
    as (t & Hd & _ & Hrev & Hcost & _ & Hcount).
  exists t. repeat split; assumption.
Defined.

(** C8 with the end of the period excluded fails: a sale dated exactly at
    the end of the period is counted by both pages. *)
Lemma sale_at_period_end_is_counted :
  Sale.sale_date sale_of_ann = 4000 /\
  fst (Dashboard.stats 500 4000 calm_shop)
  = Returned (Report.mkTotals 100 60 40 2) /\
  fst (Analysis.analyticsData 500 4000 calm_shop)
  = Returned (Report.mkTotals 100 60 40 2) /\
  fsum_where (in_half_open 500 4000) Sale.total_amount (sales shop) = 70%float /\
  fsum_where (in_half_open 500 4000) Sale.total_cost (sales shop) = 40%float /\
  ~ (forall start end_ w,
        next_fault w = None ->
        exists t,
          fst (Dashboard.stats start end_ w) = Returned t /\
          shows (Report.totalRevenue t)
                (fsum_where (in_half_open start end_) Sale.total_amount
                            (sales (store w)))).
Proof.
  repeat split.
  intros H. destruct (H 500 4000 calm_shop eq_refl) as (t & Ht & Hrev).
  injection Ht as <-. discriminate Hrev.
Qed.

(** ** Calls in a quiet world *)

Lemma quiet_next_fault (w : World) : quiet w -> next_fault w = None.
Proof.
  unfold quiet, next_fault. destruct (faults w) as [|[e|] script]; simpl;
    intros H; (reflexivity || discriminate).
Qed.

Lemma quiet_tl (w : World) (s : Store) (u : option uuid) :
  quiet w -> quiet (mkWorld s (tl (faults w)) u).
Proof.
  unfold quiet. simpl. destruct (faults w) as [|[e|] script]; simpl; auto.
  discriminate.
Qed.

Lemma await_quiet {A} (query : Store -> response A * Store) (w : World) :
  quiet w ->
  await query w
  = (Returned (fst (query (store w))),
     mkWorld (snd (query (store w))) (tl (faults w)) (auth_user w)).
Proof.
  intros Hq. unfold await. rewrite (quiet_next_fault w Hq).
  destruct (query (store w)); reflexivity.
Qed.

(** ** Marking a debt as paid *)

Lemma filter_update_where {A} (p : A -> bool) (f : A -> A) (rows : list A) :
  (forall r, p (f r) = p r) ->
  filter p (update_where p f rows) = map f (filter p rows).
Proof.
  intros Hp. unfold update_where.
  induction rows as [|r rest IH]; simpl; [reflexivity|].
  destruct (p r) eqn:E; simpl.
  - rewrite Hp, E. simpl. f_equal. exact IH.
  - rewrite E. exact IH.
Qed.

Lemma update_where_twice {A} (p : A -> bool) (f g : A -> A) (rows : list A) :
  (forall r, p (f r) = p r) ->
  (forall r, g (f r) = g r) ->
  update_where p g (update_where p f rows) = update_where p g rows.
Proof.
  intros Hp Hg. unfold update_where. rewrite map_map.
  apply map_ext. intros r. destruct (p r) eqn:E.
  - rewrite Hp, E. apply Hg.
  - rewrite E. reflexivity.
Qed.

Lemma update_where_In {A} (p : A -> bool) (f : A -> A) (rows : list A) (r : A) :
  In r (update_where p f rows) ->
  exists r0, In r0 rows /\ r = (if p r0 then f r0 else r0).
Proof.
  unfold update_where. rewrite in_map_iff.
  intros (r0 & E & Hin). exists r0. auto.
Qed.

Lemma sale_id_after_resolve (now : Z) (d : uuid) (s : Store) :
  data (fst (debtors_sale_id d (snd (debtors_resolve now d s))))
  = data (fst (debtors_sale_id d s)).
Proof.
  unfold debtors_sale_id, debtors_resolve; simpl.
  rewrite filter_update_where by reflexivity.
  destruct (filter (fun x => Nat.eqb (Debtor.id x) d) (debtors s)) as [|r [|r' rest]];
    reflexivity.
Qed.

Lemma bind_await_quiet {A B} (query : Store -> response A * Store) (k : response A -> M B) (w : World) :
  quiet w ->
  bind (await query) k w
  = k (fst (query (store w)))
      (mkWorld (snd (query (store w))) (tl (faults w)) (auth_user w)).
Proof.
  intros Hq. unfold bind. rewrite (await_quiet _ w Hq). reflexivity.
Qed.

Lemma markPaid_quiet_run (now : Z) (d : uuid) (w : World) :
  quiet w ->
  exists w', markAsPaidMutation now d w = (Returned tt, w') /\
             store w' = markPaid_store now d (store w) /\ quiet w'.
Proof.
  intros Hq. unfold markAsPaidMutation, markPaid_store.
  rewrite (bind_await_quiet _ _ w Hq).
  set (w1 := mkWorld _ _ _).
  assert (Hq1 : quiet w1) by (apply quiet_tl; exact Hq).
  change (fst (debtors_resolve now d (store w))) with (@ok unit tt).
  unfold throw_if_error at 1. simpl error. unfold bind at 1, ret at 1.
  rewrite (bind_await_quiet _ _ w1 Hq1).
  set (w2 := mkWorld _ _ _).
  assert (Hq2 : quiet w2) by (apply quiet_tl; exact Hq1).
  change (store w1) with (snd (debtors_resolve now d (store w))) in *.
  destruct (data (fst (debtors_sale_id d (snd (debtors_resolve now d (store w))))))
    as [sid|].
  - rewrite (bind_await_quiet _ _ w2 Hq2).
    eexists; split; [reflexivity|]. split; [reflexivity|].
    apply (quiet_tl w2). exact Hq2.
  - exists w2. auto.
Qed.

Lemma markPaid_quiet (now : Z) (d : uuid) (w : World) :
  quiet w ->
  fst (markAsPaidMutation now d w) = Returned tt /\
  store (snd (markAsPaidMutation now d w)) = markPaid_store now d (store w) /\
  quiet (snd (markAsPaidMutation now d w)).
Proof.
  intros Hq. destruct (markPaid_quiet_run now d w Hq) as (w' & -> & Hs & Hq').
  auto.
Qed.

Lemma markPaid_store_twice (t1 t2 : Z) (d : uuid) (s : Store) :
  markPaid_store t2 d (markPaid_store t1 d s) = markPaid_store t2 d s.
Proof.
  unfold markPaid_store.
  rewrite (sale_id_after_resolve t1 d s), (sale_id_after_resolve t2 d s).
  destruct (data (fst (debtors_sale_id d s))) as [sid|] eqn:E.
  - rewrite (sale_id_after_resolve t2 d).
    assert (E' : data (fst (debtors_sale_id d (snd (sales_set_paid sid (snd (debtors_resolve t1 d s))))))
                 = Some sid).
    { rewrite <- E, <- (sale_id_after_resolve t1 d s). reflexivity. }
    rewrite E'.
    unfold sales_set_paid, debtors_resolve, with_sales, with_debtors; simpl.
    rewrite !update_where_twice by reflexivity. reflexivity.
  - rewrite (sale_id_after_resolve t2 d), (sale_id_after_resolve t1 d s), E.
    unfold debtors_resolve, with_debtors; simpl.
    rewrite update_where_twice by reflexivity. reflexivity.
Qed.

Lemma markPaid_store_resolved (now : Z) (d : uuid) (s : Store) (r : Debtor.row) :
  In r (debtors (markPaid_store now d s)) ->
  Debtor.id r = d -> Debtor.is_resolved r = true.
Proof.
  unfold markPaid_store.
  destruct (data (fst (debtors_sale_id d (snd (debtors_resolve now d s))))); simpl;
    intros Hin Hid; apply update_where_In in Hin; destruct Hin as (r0 & _ & ->);
    destruct (Nat.eqb (Debtor.id r0) d) eqn:E; try reflexivity;
    apply Nat.eqb_neq in E; contradiction.
Qed.

Lemma markPaid_store_paid (now : Z) (d : uuid) (s : Store) (r : Debtor.row) (x : Sale.row) :
  filter (fun y => Nat.eqb (Debtor.id y) d) (debtors s) = [r] ->
  In x (sales (markPaid_store now d s)) ->
  Sale.id x = Debtor.sale_id r -> Sale.payment_status x = paid.
Proof.
  intros Hr. unfold markPaid_store.
  rewrite sale_id_after_resolve. unfold debtors_sale_id at 1; simpl. rewrite Hr; simpl.
  intros Hin Hid. apply update_where_In in Hin. destruct Hin as (x0 & _ & ->).
  destruct (Nat.eqb (Sale.id x0) (Debtor.sale_id r)) eqn:E; try reflexivity.
  apply Nat.eqb_neq in E. contradiction.
Qed.

(** X28.  When every call goes through and the debtor is in the store,
    [markAsPaidMutation] succeeds with the debtor resolved and its sale
    paid. *)
Lemma markPaid_when_calls_go_through (now : Z) (d : uuid) (w : World) (r : Debtor.row) :
  quiet w ->
  filter (fun y => Nat.eqb (Debtor.id y) d) (debtors (store w)) = [r] ->
  fst (markAsPaidMutation now d w) = Returned tt /\
  (forall r', In r' (debtors (store (snd (markAsPaidMutation now d w)))) ->
              Debtor.id r' = d -> Debtor.is_resolved r' = true) /\
  (forall x, In x (sales (store (snd (markAsPaidMutation now d w)))) ->
             Sale.id x = Debtor.sale_id r -> Sale.payment_status x = paid).
Proof.
  intros Hq Hr. destruct (markPaid_quiet now d w Hq) as (Hret & Hs & _).
  split; [exact Hret|]. rewrite Hs. split.
  - intros r'. apply markPaid_store_resolved.
  - intros x. apply (markPaid_store_paid now d (store w) r x Hr).
Qed.

Lemma update_where_keeps_In {A} (p : A -> bool) (f : A -> A) (rows : list A) (r : A) :
  In r rows -> p r = true -> In (f r) (update_where p f rows).
Proof.
  intros Hin Hp. unfold update_where. apply in_map_iff.
  exists r. rewrite Hp. auto.
Qed.

Lemma markPaid_store_tables (now : Z) (d : uuid) (s : Store) (r : Debtor.row) :
  filter (fun y => Nat.eqb (Debtor.id y) d) (debtors s) = [r] ->
  markPaid_store now d s
  = mkStore (products s) (customers s)
            (update_where (fun x => Nat.eqb (Sale.id x) (Debtor.sale_id r))
                          (Sale.set_payment_status paid) (sales s))
            (sale_items s)
            (update_where (fun y => Nat.eqb (Debtor.id y) d) (Debtor.resolve now)
                          (debtors s))
            (next_id s).
Proof.
  intros Hr. unfold markPaid_store.
  rewrite sale_id_after_resolve. unfold debtors_sale_id at 1; simpl. rewrite Hr.
  reflexivity.
Qed.

(** C9.  [markAsPaidMutation] never looks at is_resolved: when its calls
    go through it succeeds on any store, so also on a debtor that is
    already resolved, and run twice on the same debtor it leaves the
    tables as one run does.  For a debtor in the store that final state
    is: the debtors table as it was but for the debtor's row, which is
    there and resolved (stamped by the last run); the sales table as it
    was but for the sale the debtor refers to, which is there and paid;
    every other table as it was. *)
Theorem markPaid_twice_as_once (t1 t2 : Z) (d : uuid) (w : World) :
  quiet w ->
  let first := markAsPaidMutation t1 d w in
  let second := markAsPaidMutation t2 d (snd first) in
  let once := markAsPaidMutation t2 d w in
  fst first = Returned tt /\
  fst second = Returned tt /\
  fst once = Returned tt /\
  store (snd second) = store (snd once) /\
  forall r,
    filter (fun y => Nat.eqb (Debtor.id y) d) (debtors (store w)) = [r] ->
    store (snd second)
    = mkStore (products (store w)) (customers (store w))
              (update_where (fun x => Nat.eqb (Sale.id x) (Debtor.sale_id r))
                            (Sale.set_payment_status paid) (sales (store w)))
              (sale_items (store w))
              (update_where (fun y => Nat.eqb (Debtor.id y) d) (Debtor.resolve t2)
                            (debtors (store w)))
              (next_id (store w)) /\
    In (Debtor.resolve t2 r) (debtors (store (snd second))) /\
    (forall x, In x (sales (store w)) -> Sale.id x = Debtor.sale_id r ->
               In (Sale.set_payment_status paid x) (sales (store (snd second)))) /\
    (forall r', In r' (debtors (store (snd second))) ->
                Debtor.id r' = d -> Debtor.is_resolved r' = true) /\
    (forall x, In x (sales (store (snd second))) ->
               Sale.id x = Debtor.sale_id r -> Sale.payment_status x = paid).
Proof.
  intros Hq first second once.
  destruct (markPaid_quiet t1 d w Hq) as (Hr1 & Hs1 & Hq1).
  destruct (markPaid_quiet t2 d (snd first) Hq1) as (Hr2 & Hs2 & _).
  destruct (markPaid_quiet t2 d w Hq) as (Hr & Hs & _).
  assert (E : store (snd second) = markPaid_store t2 d (store w)).
  { subst second first. rewrite Hs2, Hs1. apply markPaid_store_twice. }
  split; [exact Hr1|]. split; [exact Hr2|]. split; [exact Hr|].
  split; [subst once; congruence|].
  intros r Hrow. rewrite E.
  pose proof (markPaid_store_tables t2 d (store w) r Hrow) as T.
  split; [exact T|].
  assert (Hin : In r (filter (fun y => Nat.eqb (Debtor.id y) d) (debtors (store w))))
    by (rewrite Hrow; left; reflexivity).
  apply filter_In in Hin. destruct Hin as (Hin & Hid).
  split; [|split; [|split]].
  - rewrite T. cbn [debtors]. apply update_where_keeps_In; assumption.
  - intros x Hx Hsale. rewrite T. cbn [sales].
    apply update_where_keeps_In; [exact Hx|].
    apply Nat.eqb_eq. exact Hsale.
  - intros r'. apply markPaid_store_resolved.
  - intros x. apply (markPaid_store_paid t2 d (store w) r x Hrow).
Qed.

Lemma markPaid_twice_as_once_witness :
  Debtor.is_resolved cy_paid = true /\
  fst (markAsPaidMutation 7000 3 calm_shop) = Returned tt /\
  fst (markAsPaidMutation 8000 3 (snd (markAsPaidMutation 7000 3 calm_shop)))
  = Returned tt /\
  In (Debtor.resolve 8000 cy_paid)
     (debtors (store (snd (markAsPaidMutation 8000 3
                             (snd (markAsPaidMutation 7000 3 calm_shop)))))) /\
  In (Sale.set_payment_status paid sale_of_cy)
     (sales (store (snd (markAsPaidMutation 8000 3
                           (snd (markAsPaidMutation 7000 3 calm_shop)))))).
Proof.
  destruct (markPaid_twice_as_once 7000 8000 3 calm_shop eq_refl)
    as (H1 & H2 & _ & _ & Hfinal).
  destruct (Hfinal cy_paid eq_refl) as (_ & Hdebtor & Hsale & _).
  split; [reflexivity|]. split; [exact H1|]. split; [exact H2|].
  split; [exact Hdebtor|].
  apply Hsale; [right; right; left; reflexivity | reflexivity].
Defined.

(** C1 at a store whose second call fails.  The lookup of the debtor's
    sale_id fails, its error is dropped, and [markAsPaidMutation]
    completes successfully with the debtor resolved while the sale the
    debtor refers to is still pending. *)
Theorem markPaid_succeeds_with_sale_unpaid :
  In ann_owes (debtors (store second_call_fails)) /\
  Debtor.sale_id ann_owes = Sale.id sale_of_ann /\
  fst (markAsPaidMutation 6000 (Debtor.id ann_owes) second_call_fails) = Returned tt /\
  debtors (store (snd (markAsPaidMutation 6000 (Debtor.id ann_owes) second_call_fails)))
  = [Debtor.resolve 6000 ann_owes; bob_owes; cy_paid] /\
  sales (store (snd (markAsPaidMutation 6000 (Debtor.id ann_owes) second_call_fails)))
  = [sale_of_ann; sale_of_bob; sale_of_cy] /\
  Sale.payment_status sale_of_ann = pending.
Proof.
  repeat split. left. reflexivity.
Qed.

(** ** Reading a successful run backwards *)

Lemma bind_returned {A B} (m : M A) (k : A -> M B) (w w' : World) (b : B) :
  bind m k w = (Returned b, w') ->
  exists a w1, m w = (Returned a, w1) /\ k a w1 = (Returned b, w').
Proof.
  unfold bind. destruct (m w) as [[a|e] w1]; intros H.
  - exists a, w1. auto.
  - discriminate.
Qed.

Lemma await_run {A} (query : Store -> response A * Store) (w w1 : World)
  (o : outcome (response A)) :
  await query w = (o, w1) ->
  exists r, o = Returned r /\
    ((exists e, r = failed e /\ store w1 = store w) \/
     query (store w) = (r, store w1)).
Proof.
  unfold await. destruct (next_fault w) as [e|].
  - intros H; inversion H; subst. eexists; split; [reflexivity|].
    left. exists e. auto.
  - destruct (query (store w)) as [r s] eqn:E.
    intros H; inversion H; subst. exists r; split; [reflexivity|].
    right. reflexivity.
Qed.

Lemma await_checked {A} (query : Store -> response A * Store) (w w' : World)
  (u : unit) :
  (r <- await query ;; throw_if_error r) w = (Returned u, w') ->
  exists r, query (store w) = (r, store w') /\ error r = None.
Proof.
  intros H. apply bind_returned in H. destruct H as (r0 & w1 & Ha & Ht).
  apply await_run in Ha. destruct Ha as (r1 & E & Hcase).
  inversion E; subst r1; clear E.
  unfold throw_if_error in Ht.
  destruct (error r0) as [e|] eqn:Er; [discriminate|].
  inversion Ht; subst w1.
  destruct Hcase as [(e & -> & _)|Hq]; [discriminate|].
  exists r0. auto.
Qed.

Lemma getUser_run (w w1 : World) (o : outcome (option uuid)) :
  getUser w = (o, w1) -> store w1 = store w.
Proof.
  unfold getUser. destruct (next_fault w); intros H; inversion H; reflexivity.
Qed.

Lemma stock_loop_returned (now : Z) (cart : list CartLine) (w w' : World) (u : unit) :
  for_of cart
    (fun line =>
       r <- await (products_set_stock (Product.id (product line))
                     (Product.stock_quantity (product line) - quantity line) now) ;;
       throw_if_error r) w = (Returned u, w') ->
  store w' = with_products (store w) (stock_writes now cart (products (store w))).
Proof.
  revert w. induction cart as [|line rest IH]; intros w H; simpl in H.
  - inversion H; subst. destruct (store w'); reflexivity.
  - apply bind_returned in H. destruct H as ([] & w1 & Hline & Hrest).
    apply await_checked in Hline. destruct Hline as (r & Hq & _).
    apply IH in Hrest. rewrite Hrest.
    unfold products_set_stock in Hq. injection Hq as _ Hs.
    rewrite <- Hs. reflexivity.
Qed.

Lemma customer_step (form : SaleForm) (existing : response uuid)
  (w w' : World) (cid : uuid) :
  match data existing with
  | Some cid => ret cid
  | None =>
      newCustomer <- await (customers_insert (customerName form)
                              (or_null (customerEmail form))
                              (or_null (customerPhone form))) ;;
      throw_if_error newCustomer ;;;
      match data newCustomer with
      | Some cid => ret cid
      | None => throw TypeError
      end
  end w = (Returned cid, w') ->
  products (store w') = products (store w) /\
  sales (store w') = sales (store w) /\
  sale_items (store w') = sale_items (store w) /\
  debtors (store w') = debtors (store w).
Proof.
  destruct (data existing) as [c|].
  - intros H; inversion H; subst. auto.
  - intros H. apply bind_returned in H. destruct H as (r & w1 & Ha & H).
    apply await_run in Ha. destruct Ha as (r1 & E & Hcase).
    inversion E; subst r1; clear E.
    apply bind_returned in H. destruct H as ([] & w2 & Ht & H).
    unfold throw_if_error in Ht. destruct (error r) eqn:Er; [discriminate|].
    inversion Ht; subst w2.
    destruct (data r); [|discriminate]. inversion H; subst w1.
    destruct Hcase as [(e & -> & _)|Hq]; [discriminate|].
    unfold customers_insert in Hq. injection Hq as _ Hs. rewrite <- Hs.
    simpl. auto.
Qed.

Lemma createSale_returned (form : SaleForm) (now : Z) (w w' : World) (sale : Sale.row) :
  createSaleMutation form now w = (Returned sale, w') ->
  Sale.total_amount sale = totalAmount (selectedProducts form) /\
  Sale.total_cost sale = totalCost (selectedProducts form) /\
  Sale.payment_status sale = paymentStatus form /\
  sales (store w') = sales (store w) ++ [sale] /\
  (exists n, sale_items (store w')
             = sale_items (store w)
               ++ number_rows n (saleItems (Sale.id sale) (selectedProducts form))) /\
  products (store w')
  = stock_writes now (selectedProducts form) (products (store w)) /\
  debtors (store w') = debtors (store w).
Proof.
  unfold createSaleMutation. intros H.
  apply bind_returned in H. destruct H as (user & w1 & Hu & H).
  apply getUser_run in Hu.
  destruct user as [userId|]; [|discriminate].
  apply bind_returned in H. destruct H as (existing & w2 & Hex & H).
  apply await_run in Hex. destruct Hex as (r & E & Hex).
  inversion E; subst r; clear E.
  assert (Hs2 : store w2 = store w).
  { rewrite <- Hu. destruct Hex as [(e & _ & Hs)|Hq]; [exact Hs|].
    unfold customers_by_name in Hq. injection Hq as _ Hs. symmetry. exact Hs. }
  clear Hex Hu w1.
  apply bind_returned in H. destruct H as (cid & w3 & Hc & H).
  apply customer_step in Hc. rewrite Hs2 in Hc.
  destruct Hc as (Hp3 & Hsl3 & Hi3 & Hd3).
  apply bind_returned in H. destruct H as (rs & w4 & Hins & H).
  apply await_run in Hins. destruct Hins as (r & E & Hins).
  inversion E; subst r; clear E.
  apply bind_returned in H. destruct H as ([] & w5 & Ht & H).
  unfold throw_if_error in Ht. destruct (error rs) eqn:Er; [discriminate|].
  inversion Ht; subst w5; clear Ht.
  destruct Hins as [(e & -> & _)|Hq]; [discriminate|].
  unfold sales_insert in Hq. injection Hq as Hrs Hs4. subst rs. simpl in H.
  set (row := Sale.mk _ _ _ _ _ _ _ _) in *.
  apply bind_returned in H. destruct H as (ri & w5 & Hitems & H).
  apply await_run in Hitems. destruct Hitems as (r & E & Hitems).
  inversion E; subst r; clear E.
  apply bind_returned in H. destruct H as ([] & w6 & Ht & H).
  unfold throw_if_error in Ht. destruct (error ri) eqn:Eri; [discriminate|].
  inversion Ht; subst w6; clear Ht.
  destruct Hitems as [(e & -> & _)|Hq]; [discriminate|].
  unfold sale_items_insert in Hq. injection Hq as _ Hs5.
  apply bind_returned in H. destruct H as ([] & w6 & Hloop & H).
  inversion H; subst sale w6; clear H.
  apply stock_loop_returned in Hloop.
  rewrite Hloop, <- Hs5, <- Hs4. simpl.
  rewrite Hp3, Hsl3, Hi3, Hd3.
  repeat split. exists (S (next_id (store w3))). reflexivity.
Qed.

Lemma values_of_number_rows (n : uuid) (payload : list SaleItemInsert) :
  map values_of (number_rows n payload) = payload.
Proof.
  revert n. induction payload as [|i rest IH]; intros n; simpl; [reflexivity|].
  rewrite IH. destruct i; reflexivity.
Qed.

(** ** Runs of [createSaleMutation] in a quiet world *)

Lemma stock_loop_quiet (now : Z) (cart : list CartLine) (w : World) :
  quiet w ->
  exists w',
    for_of cart
      (fun line =>
         r <- await (products_set_stock (Product.id (product line))
                       (Product.stock_quantity (product line) - quantity line) now) ;;
         throw_if_error r) w = (Returned tt, w') /\ quiet w'.
Proof.
  revert w. induction cart as [|line rest IH]; intros w Hq; simpl.
  - exists w. auto.
  - unfold bind at 1. rewrite (bind_await_quiet _ _ w Hq). simpl.
    apply IH. apply quiet_tl. exact Hq.
Qed.

Lemma bind_throw_if_ok {A B} (a : A) (k : unit -> M B) (w : World) :
  bind (throw_if_error (ok a)) k w = k tt w.
Proof. reflexivity. Qed.

Lemma getUser_quiet (w : World) :
  quiet w ->
  getUser w = (Returned (auth_user w), mkWorld (store w) (tl (faults w)) (auth_user w)).
Proof.
  intros Hq. unfold getUser. rewrite (quiet_next_fault w Hq). reflexivity.
Qed.

Lemma createSale_quiet (form : SaleForm) (now : Z) (w : World) (userId : uuid) :
  quiet w -> auth_user w = Some userId ->
  exists sale w', createSaleMutation form now w = (Returned sale, w').
Proof.
  intros Hq Hu. unfold createSaleMutation.
  unfold bind at 1. rewrite (getUser_quiet w Hq), Hu.
  set (w1 := mkWorld _ _ _).
  assert (Hq1 : quiet w1) by (apply quiet_tl; exact Hq).
  rewrite (bind_await_quiet _ _ w1 Hq1).
  set (w2 := mkWorld _ _ _).
  assert (Hq2 : quiet w2) by (apply quiet_tl; exact Hq1).
  unfold bind at 1.
  assert (Hc : exists cid w3,
    match data (fst (customers_by_name (customerName form) (store w1))) with
    | Some cid => ret cid
    | None =>
        newCustomer <- await (customers_insert (customerName form)
                                (or_null (customerEmail form))
                                (or_null (customerPhone form))) ;;
        throw_if_error newCustomer ;;;
        match data newCustomer with
        | Some cid => ret cid
        | None => throw TypeError
        end
    end w2 = (Returned cid, w3) /\ quiet w3).
  { destruct (data (fst (customers_by_name (customerName form) (store w1)))) as [c|].
    - exists c, w2. auto.
    - rewrite (bind_await_quiet _ _ w2 Hq2). simpl.
      eexists; eexists; split; [reflexivity|]. apply (quiet_tl w2). exact Hq2. }
  destruct Hc as (cid & w3 & -> & Hq3).
  rewrite (bind_await_quiet _ _ w3 Hq3).
  unfold sales_insert at 1 2; cbn [fst snd].
  set (w4 := mkWorld _ _ _).
  assert (Hq4 : quiet w4) by (apply quiet_tl; exact Hq3).
  rewrite bind_throw_if_ok. cbn [data ok].
  rewrite (bind_await_quiet _ _ w4 Hq4).
  unfold sale_items_insert at 1 2; cbn [fst snd].
  set (w5 := mkWorld _ _ _).
  assert (Hq5 : quiet w5) by (apply (quiet_tl w4); exact Hq4).
  rewrite bind_throw_if_ok.
  destruct (stock_loop_quiet now (selectedProducts form) w5 Hq5) as (w6 & Hloop & _).
  unfold bind at 1. rewrite Hloop.
  eexists; eexists; reflexivity.
Qed.

(** ** What [createSaleMutation] leaves alone *)

Lemma keeps_ret {A} (a : A) : keeps_debtors (ret a).
Proof. intros w. reflexivity. Qed.

Lemma keeps_throw {A} (e : Err) : keeps_debtors (@throw A e).
Proof. intros w. reflexivity. Qed.

Lemma keeps_bind {A B} (m : M A) (k : A -> M B) :
  keeps_debtors m -> (forall a, keeps_debtors (k a)) -> keeps_debtors (bind m k).
Proof.
  intros Hm Hk w. unfold bind. specialize (Hm w).
  destruct (m w) as [[a|e] w1]; simpl in *.
  - rewrite (Hk a w1). exact Hm.
  - exact Hm.
Qed.

Lemma keeps_await {A} (query : Store -> response A * Store) :
  (forall s, debtors (snd (query s)) = debtors s) -> keeps_debtors (await query).
Proof.
  intros Hquery w. unfold await. destruct (next_fault w); [reflexivity|].
  specialize (Hquery (store w)). destruct (query (store w)). exact Hquery.
Qed.

Lemma keeps_getUser : keeps_debtors getUser.
Proof. intros w. unfold getUser. destruct (next_fault w); reflexivity. Qed.

Lemma keeps_throw_if_error {A} (r : response A) : keeps_debtors (throw_if_error r).
Proof. intros w. unfold throw_if_error. destruct (error r); reflexivity. Qed.

Lemma keeps_for_of {A} (xs : list A) (body : A -> M unit) :
  (forall x, keeps_debtors (body x)) -> keeps_debtors (for_of xs body).
Proof.
  intros Hbody. induction xs as [|x rest IH]; simpl.
  - apply keeps_ret.
  - apply keeps_bind; auto.
Qed.

Create HintDb frame.
#[local] Hint Resolve keeps_ret keeps_throw keeps_getUser keeps_throw_if_error : frame.

Lemma createSale_keeps_debtors (form : SaleForm) (now : Z) :
  keeps_debtors (createSaleMutation form now).
Proof.
  unfold createSaleMutation.
  apply keeps_bind; [apply keeps_getUser|]. intros [userId|]; [|apply keeps_throw].
  apply keeps_bind; [apply keeps_await; reflexivity|]. intros existing.
  apply keeps_bind.
  { destruct (data existing); [apply keeps_ret|].
    apply keeps_bind; [apply keeps_await; reflexivity|]. intros r.
    apply keeps_bind; [apply keeps_throw_if_error|]. intros _.
    destruct (data r); auto with frame. }
  intros cid.
  apply keeps_bind; [apply keeps_await; reflexivity|]. intros rs.
  apply keeps_bind; [apply keeps_throw_if_error|]. intros _.
  destruct (data rs) as [sale|]; [|apply keeps_throw].
  apply keeps_bind; [apply keeps_await; reflexivity|]. intros ri.
  apply keeps_bind; [apply keeps_throw_if_error|]. intros _.
  apply keeps_bind; [|intros; apply keeps_ret].
  apply keeps_for_of. intros line.
  apply keeps_bind; [apply keeps_await; reflexivity|]. intros r.
  apply keeps_throw_if_error.
Qed.

(** C10.  Whatever the form, the instant and the fate of the calls,
    [createSaleMutation] leaves the debtors table as it found it, and so
    does the submit handler that starts it: no debtor row is inserted or
    updated, whether the sale is paid, pending or overdue. *)
Theorem createSale_leaves_debtors_alone (form : SaleForm) (now : Z) (w : World) :
  debtors (store (snd (createSaleMutation form now w))) = debtors (store w) /\
  debtors (store (snd (handleSubmit form now w))) = debtors (store w).
Proof.
  split; [apply createSale_keeps_debtors|].
  unfold handleSubmit.
  destruct (String.eqb (customerName form) EmptyString || is_empty (selectedProducts form));
    [reflexivity|].
  destruct (negb (is_empty (stockIssues (selectedProducts form)))); [reflexivity|].
  pose proof (createSale_keeps_debtors form now w) as H.
  destruct (createSaleMutation form now w) as [[sale|e] w']; exact H.
Qed.

(** C3, as the code has it.  When [createSaleMutation] returns a sale,
    its total_amount is the sum over the cart lines of selling price
    times quantity and its total_cost the sum of cost times quantity,
    each product rounded to double precision and the products added up
    in double precision, line after line in cart order; the sale is in
    the sales table, and the sale_items table has grown by one row per
    cart line, in cart order, each carrying the new sale's id and the
    line's product, quantity, unit price and unit cost. *)
Theorem sale_totals_and_items (form : SaleForm) (now : Z) (w w' : World) (sale : Sale.row) :
  createSaleMutation form now w = (Returned sale, w') ->
  Sale.total_amount sale
  = fsum_where everything (fun l => sellingPrice l * float_of_Z (quantity l))%float
               (selectedProducts form) /\
  Sale.total_cost sale
  = fsum_where everything (fun l => Product.cost (product l) * float_of_Z (quantity l))%float
               (selectedProducts form) /\
  In sale (sales (store w')) /\
  exists rows,
    sale_items (store w') = sale_items (store w) ++ rows /\
    List.length rows = List.length (selectedProducts form) /\
    map values_of rows
    = map (fun l => mkItem (Sale.id sale) (Product.id (product l)) (quantity l)
                           (sellingPrice l) (Product.cost (product l)))
          (selectedProducts form).
Proof.
  intros H. apply createSale_returned in H.
  destruct H as (Ha & Hc & _ & Hs & (n & Hi) & _ & _).
  split; [rewrite Ha; apply reduce_fsum|].
  split; [rewrite Hc; apply reduce_fsum|].
  split; [rewrite Hs; apply in_or_app; right; left; reflexivity|].
  exists (number_rows n (saleItems (Sale.id sale) (selectedProducts form))).
  split; [exact Hi|].
  assert (Hv := values_of_number_rows n (saleItems (Sale.id sale) (selectedProducts form))).
  split; [|exact Hv].
  rewrite <- (length_map values_of), Hv. unfold saleItems. apply length_map.
Qed.

(** ** Stock *)

Lemma stock_of_rows (pid : uuid) (s : Store) :
  stock_of pid s
  = match filter (fun p => Nat.eqb (Product.id p) pid) (products s) with
    | [p] => Some (Product.stock_quantity p)
    | _ => None
    end.
Proof.
  unfold stock_of, products_stock; simpl.
  destruct (filter _ (products s)) as [|p [|p' rest]]; reflexivity.
Qed.

Lemma filter_update_other {A} (p q : A -> bool) (f : A -> A) (rows : list A) :
  (forall r, p (f r) = p r) ->
  (forall r, p r = true -> q r = false) ->
  filter p (update_where q f rows) = filter p rows.
Proof.
  intros Hp Hq. unfold update_where.
  induction rows as [|r rest IH]; simpl; [reflexivity|].
  destruct (q r) eqn:Eq.
  - rewrite Hp. destruct (p r) eqn:Ep.
    + rewrite (Hq r Ep) in Eq. discriminate.
    + exact IH.
  - destruct (p r); [f_equal|]; exact IH.
Qed.

Lemma stock_of_written (pid : uuid) (q now S0 : Z) (s : Store) :
  stock_of pid s = Some S0 ->
  stock_of pid (snd (products_set_stock pid q now s)) = Some q.
Proof.
  rewrite !stock_of_rows. unfold products_set_stock; simpl.
  rewrite filter_update_where by reflexivity.
  destruct (filter _ (products s)) as [|p [|p' rest]]; simpl; congruence.
Qed.

Lemma stock_of_other (pid other : uuid) (q now : Z) (s : Store) :
  other <> pid ->
  stock_of pid (snd (products_set_stock other q now s)) = stock_of pid s.
Proof.
  intros Hne. rewrite !stock_of_rows. unfold products_set_stock; simpl.
  rewrite filter_update_other; [reflexivity|reflexivity|].
  intros r Hr. apply Nat.eqb_eq in Hr. apply Nat.eqb_neq. congruence.
Qed.

Lemma stock_writes_step (now : Z) (line : CartLine) (rest : list CartLine) (s : Store) :
  with_products s (stock_writes now (line :: rest) (products s))
  = let s1 := snd (products_set_stock (Product.id (product line))
                     (Product.stock_quantity (product line) - quantity line) now s) in
    with_products s1 (stock_writes now rest (products s1)).
Proof. reflexivity. Qed.

Lemma stock_writes_elsewhere (pid : uuid) (now : Z) (cart : list CartLine) (s : Store) :
  lines_of pid cart = [] ->
  stock_of pid (with_products s (stock_writes now cart (products s))) = stock_of pid s.
Proof.
  revert s. induction cart as [|l rest IH]; intros s Hl.
  - destruct s; reflexivity.
  - unfold lines_of in Hl. simpl in Hl.
    destruct (Nat.eqb (Product.id (product l)) pid) eqn:E; [discriminate|].
    rewrite stock_writes_step. cbv zeta. rewrite IH by exact Hl.
    apply stock_of_other. apply Nat.eqb_neq. exact E.
Qed.

Lemma stock_writes_line (pid : uuid) (now S0 : Z) (cart : list CartLine)
  (line : CartLine) (s : Store) :
  lines_of pid cart = [line] ->
  stock_of pid s = Some S0 ->
  stock_of pid (with_products s (stock_writes now cart (products s)))
  = Some (Product.stock_quantity (product line) - quantity line).
Proof.
  revert s. induction cart as [|l rest IH]; intros s Hl Hs.
  - discriminate.
  - unfold lines_of in Hl. simpl in Hl. rewrite stock_writes_step. cbv zeta.
    destruct (Nat.eqb (Product.id (product l)) pid) eqn:E.
    + injection Hl as -> Hrest. apply Nat.eqb_eq in E.
      rewrite stock_writes_elsewhere by exact Hrest.
      rewrite E. apply (stock_of_written pid _ now S0). exact Hs.
    + apply IH; [exact Hl|].
      rewrite stock_of_other; [exact Hs|]. apply Nat.eqb_neq. exact E.
Qed.

Lemma stockIssues_In (cart : list CartLine) (line : CartLine) :
  In line cart ->
  Product.stock_quantity (product line) < quantity line ->
  is_empty (stockIssues cart) = false.
Proof.
  intros Hin Hlt.
  assert (H : In line (stockIssues cart)).
  { unfold stockIssues. apply filter_In. split; [exact Hin|].
    apply Z.ltb_lt. exact Hlt. }
  destruct (stockIssues cart); [contradiction|reflexivity].
Qed.

Lemma handleSubmit_rejects (form : SaleForm) (now : Z) (w : World) (line : CartLine) :
  In line (selectedProducts form) ->
  Product.stock_quantity (product line) < quantity line ->
  snd (handleSubmit form now w) = w /\
  destructive (fst (handleSubmit form now w)) = true.
Proof.
  intros Hin Hlt. unfold handleSubmit.
  destruct (String.eqb (customerName form) EmptyString || is_empty (selectedProducts form));
    [auto|].
  rewrite (stockIssues_In _ line Hin Hlt). auto.
Qed.

Lemma restore_loop_quiet (now : Z) (items : list SaleItem.row) (w : World) :
  quiet w ->
  exists w',
    for_of items
      (fun item =>
         found <- await (products_stock (SaleItem.product_id item)) ;;
         match data found with
         | Some stock =>
             await (products_set_stock (SaleItem.product_id item)
                      (stock + SaleItem.quantity item) now) ;;;
             ret tt
         | None => ret tt
         end) w = (Returned tt, w') /\
    store w' = restore_store now items (store w) /\ quiet w'.
Proof.
  revert w. induction items as [|item rest IH]; intros w Hq; simpl.
  - exists w. auto.
  - unfold bind at 1. rewrite (bind_await_quiet _ _ w Hq).
    set (w1 := mkWorld _ _ _).
    assert (Hq1 : quiet w1) by (apply quiet_tl; exact Hq).
    change (data (fst (products_stock (SaleItem.product_id item) (store w))))
      with (stock_of (SaleItem.product_id item) (store w)).
    change (restore_store now (item :: rest) (store w))
      with (restore_store now rest (restore_step now (store w) item)).
    unfold restore_step.
    destruct (stock_of (SaleItem.product_id item) (store w)) as [stock|].
    + rewrite (bind_await_quiet _ _ w1 Hq1). unfold ret at 1.
      set (w2 := mkWorld _ _ _).
      destruct (IH w2) as (w' & Hrun & Hs & Hq'); [apply (quiet_tl w1); exact Hq1|].
      exists w'. auto.
    + unfold ret at 1.
      destruct (IH w1 Hq1) as (w' & Hrun & Hs & Hq').
      exists w'. auto.
Qed.

Lemma deleteSale_quiet (saleId : uuid) (now : Z) (w : World) :
  quiet w ->
  exists w',
    deleteSaleMutation saleId now w = (Returned tt, w') /\
    store w'
    = snd (sales_delete saleId
             (restore_store now
                (filter (fun i => Nat.eqb (SaleItem.sale_id i) saleId)
                        (sale_items (store w)))
                (store w))).
Proof.
  intros Hq. unfold deleteSaleMutation.
  rewrite (bind_await_quiet _ _ w Hq). unfold sale_items_of at 1 2; cbn [fst snd data ok].
  set (w1 := mkWorld _ _ _).
  assert (Hq1 : quiet w1) by (apply quiet_tl; exact Hq).
  destruct (restore_loop_quiet now
              (filter (fun i => Nat.eqb (SaleItem.sale_id i) saleId) (sale_items (store w)))
              w1 Hq1) as (w2 & Hrun & Hs & Hq2).
  unfold bind at 1. rewrite Hrun.
  rewrite (bind_await_quiet _ _ w2 Hq2). rewrite Hs.
  eexists. split; reflexivity.
Qed.

Lemma restore_store_stock (pid : uuid) (now : Z) (items : list SaleItem.row)
  (s : Store) (S0 : Z) :
  stock_of pid s = Some S0 ->
  stock_of pid (restore_store now items s)
  = Some (S0 + sum_where (fun i => Nat.eqb (SaleItem.product_id i) pid)
                         SaleItem.quantity items).
Proof.
  revert s S0. induction items as [|item rest IH]; intros s S0 Hs; simpl.
  - rewrite Hs. f_equal. lia.
  - unfold restore_store in *. simpl.
    destruct (Nat.eqb (SaleItem.product_id item) pid) eqn:E.
    + apply Nat.eqb_eq in E. unfold restore_step at 2. rewrite E, Hs.
      rewrite (IH _ (S0 + SaleItem.quantity item)).
      * f_equal. lia.
      * apply (stock_of_written pid _ now S0). exact Hs.
    + rewrite (IH _ S0).
      * reflexivity.
      * unfold restore_step.
        destruct (stock_of (SaleItem.product_id item) s); [|exact Hs].
        rewrite stock_of_other; [exact Hs|]. apply Nat.eqb_neq. exact E.
Qed.

(** C2, as the code has it.  For a product whose stock in the store is
    S and whose line in the cart holds the product row as it was fetched
    when the line was added, at stock S':
    - a [createSaleMutation] that returns a sale, run on a cart whose
      one line for the product sells q units, leaves the product's stock
      at S' - q, which is S - q when the line holds the stock of the
      store;
    - a submission whose cart asks more of the product than S' is turned
      down by the submit handler, which writes nothing;
    - a [deleteSaleMutation] whose calls go through, on a sale holding q
      units of the product, leaves the product's stock at S + q,
      whatever S and q are: nothing bounds the restored stock. *)
Theorem stock_after_sale_and_deletion (pid : uuid) (S0 : Z) :
  (forall form now w w' sale line,
      createSaleMutation form now w = (Returned sale, w') ->
      lines_of pid (selectedProducts form) = [line] ->
      stock_of pid (store w) = Some S0 ->
      stock_of pid (store w')
      = Some (Product.stock_quantity (product line) - quantity line) /\
      (Product.stock_quantity (product line) = S0 ->
       stock_of pid (store w') = Some (S0 - quantity line))) /\
  (forall form now w line,
      In line (selectedProducts form) ->
      Product.stock_quantity (product line) < quantity line ->
      snd (handleSubmit form now w) = w /\
      destructive (fst (handleSubmit form now w)) = true) /\
  (forall saleId now w,
      quiet w ->
      stock_of pid (store w) = Some S0 ->
      fst (deleteSaleMutation saleId now w) = Returned tt /\
      stock_of pid (store (snd (deleteSaleMutation saleId now w)))
      = Some (S0 + units_sold saleId pid (store w))).
Proof.
  split; [|split].
  - intros form now w w' sale line Hrun Hline Hs.
    apply createSale_returned in Hrun.
    destruct Hrun as (_ & _ & _ & _ & _ & Hp & _).
    assert (Hafter : stock_of pid (store w')
                     = Some (Product.stock_quantity (product line) - quantity line)).
    { rewrite <- (stock_writes_line pid now S0 (selectedProducts form) line (store w)
                    Hline Hs).
      rewrite !stock_of_rows. simpl. rewrite Hp. reflexivity. }
    split; [exact Hafter|]. intros Hsnap. rewrite Hafter, Hsnap. reflexivity.
  - intros form now w line Hin Hlt.
    apply (handleSubmit_rejects form now w line Hin Hlt).
  - intros saleId now w Hq Hs.
    destruct (deleteSale_quiet saleId now w Hq) as (w' & Hrun & Hst).
    rewrite Hrun. simpl. split; [reflexivity|].
    rewrite Hst. unfold units_sold.
    rewrite <- (restore_store_stock pid now _ (store w) S0 Hs).
    rewrite !stock_of_rows. reflexivity.
Qed.

Lemma stock_after_sale_and_deletion_witness :
  stock_of 20 (store (snd (createSaleMutation ann_buys_soap 9000 calm_shop)))
  = Some (3 - 2) /\
  snd (handleSubmit ann_wants_five 9000 calm_shop) = calm_shop /\
  stock_of 20 (store (snd (deleteSaleMutation 10 9000 calm_shop)))
  = Some (3 + units_sold 10 20 shop).
Proof.
  destruct (stock_after_sale_and_deletion 20 3) as (Hsale & Hreject & Hdel).
  split; [|split].
  - apply (Hsale ann_buys_soap 9000 calm_shop _ soap_sale two_soaps);
      reflexivity.
  - apply (Hreject ann_wants_five 9000 calm_shop five_soaps);
      [left; reflexivity | reflexivity].
  - apply (Hdel 10%nat 9000 calm_shop); reflexivity.
Defined.

(** C2, as the specification words it, fails: with three soaps in stock,
    a cart line made when there were ten sells five; the sale is
    recorded, and the stock is left at five, which is neither 3 - 5 nor
    what a rejected sale leaves. *)
Lemma stale_cart_line_sets_the_stock :
  stock_of 20 (store calm_shop) = Some 3 /\
  lines_of 20 (selectedProducts ann_wants_five_late) = [five_soaps_of_ten] /\
  quantity five_soaps_of_ten = 5 /\
  fst (createSaleMutation ann_wants_five_late 9000 calm_shop)
  = Returned (Sale.mk 40 100 7 75 50 paid None 9000) /\
  stock_of 20 (store (snd (createSaleMutation ann_wants_five_late 9000 calm_shop)))
  = Some 5 /\
  ~ (forall pid S0 form now w w' sale line,
        createSaleMutation form now w = (Returned sale, w') ->
        lines_of pid (selectedProducts form) = [line] ->
        stock_of pid (store w) = Some S0 ->
        stock_of pid (store w') = Some (S0 - quantity line)).
Proof.
  repeat split.
  intros H.
  specialize (H 20%nat 3 ann_wants_five_late 9000 calm_shop
                (snd (createSaleMutation ann_wants_five_late 9000 calm_shop))
                (Sale.mk 40 100 7 75 50 paid None 9000) five_soaps_of_ten
                eq_refl eq_refl eq_refl).
  discriminate H.
Qed.

Lemma sale_totals_and_items_witness :
  Sale.total_amount soap_sale = (0 + 15 * 2)%float /\
  Sale.total_cost soap_sale = (0 + 10 * 2)%float.
Proof.
  destruct (sale_totals_and_items ann_buys_soap 9000 calm_shop
              (snd (createSaleMutation ann_buys_soap 9000 calm_shop)) soap_sale
              eq_refl) as (Ha & Hc & _).
  split; [exact Ha | exact Hc].
Defined.

(** C3, as the specification words it, fails: three soaps at 0.1 each
    are recorded with a total of 0.30000000000000004, which is not
    three times the price; the total is the rounded product. *)
Lemma rounded_total_is_not_the_exact_sum :
  fst (createSaleMutation ann_buys_cheap_soap 9000 calm_shop)
  = Returned (Sale.mk 40 100 7 0.30000000000000004 30 paid None 9000) /\
  Qeq_bool (value 0.30000000000000004) (value 0.1 * inject_Z 3) = false /\
  ~ (forall form now w w' sale,
        createSaleMutation form now w = (Returned sale, w') ->
        (value (Sale.total_amount sale)
         == exact_sum (fun l => value (sellingPrice l) * inject_Z (quantity l))
                      (selectedProducts form))%Q).
Proof.
  split; [reflexivity|]. split; [vm_compute; reflexivity|].
  intros H.
  specialize (H ann_buys_cheap_soap 9000 calm_shop
                (snd (createSaleMutation ann_buys_cheap_soap 9000 calm_shop))
                (Sale.mk 40 100 7 0.30000000000000004 30 paid None 9000) eq_refl).
  apply Qeq_bool_iff in H. vm_compute in H. discriminate H.
Qed.

(** C4, as the code has it.  When the customer name is filled in and some
    cart line asks for more than the stock_quantity the line holds for
    its product, the submit handler answers with the "Insufficient
    Stock" toast, whose text lists the names of exactly the products of
    the offending lines, and makes no call at all: the world, and with
    it every table, is as before. *)
Theorem insufficient_stock_is_rejected (form : SaleForm) (now : Z) (w : World)
  (line : CartLine) :
  customerName form <> EmptyString ->
  In line (selectedProducts form) ->
  Product.stock_quantity (product line) < quantity line ->
  handleSubmit form now w
  = (mkToast "Insufficient Stock"
       (String.append "Not enough stock for: "
          (String.concat ", "
             (map (fun p => Product.name (product p))
                  (stockIssues (selectedProducts form)))))
       true, w) /\
  (forall l, In l (stockIssues (selectedProducts form))
             <-> In l (selectedProducts form) /\
                 Product.stock_quantity (product l) < quantity l).
Proof.
  intros Hname Hin Hlt. split.
  - unfold handleSubmit.
    apply String.eqb_neq in Hname. rewrite Hname.
    destruct (selectedProducts form) as [|l0 rest] eqn:Ecart; [contradiction|].
    simpl orb. cbv iota.
    rewrite (stockIssues_In (l0 :: rest) line Hin Hlt). reflexivity.
  - intros l. unfold stockIssues. rewrite filter_In, Z.ltb_lt. reflexivity.
Qed.

Lemma insufficient_stock_is_rejected_witness :
  handleSubmit ann_wants_five 9000 calm_shop
  = (mkToast "Insufficient Stock" "Not enough stock for: Soap" true, calm_shop).
Proof.
  refine (proj1 (insufficient_stock_is_rejected ann_wants_five 9000 calm_shop
                   five_soaps _ _ _)).
  - discriminate.
  - left. reflexivity.
  - reflexivity.
Defined.

(** C4, as the specification words it, fails: Ann's cart asks for five
    soaps while the store holds three, but its line was made when there
    were ten; the submission is accepted, a sale and a sale item are
    written and the stock is changed. *)
Lemma stale_cart_line_oversells :
  customerName ann_wants_five_late <> EmptyString /\
  In five_soaps_of_ten (selectedProducts ann_wants_five_late) /\
  stock_of (Product.id (product five_soaps_of_ten)) (store calm_shop) = Some 3 /\
  3 < quantity five_soaps_of_ten /\
  destructive (fst (handleSubmit ann_wants_five_late 9000 calm_shop)) = false /\
  title (fst (handleSubmit ann_wants_five_late 9000 calm_shop)) <> "Insufficient Stock" /\
  sales (store (snd (handleSubmit ann_wants_five_late 9000 calm_shop)))
  = sales shop ++ [Sale.mk 40 100 7 75 50 paid None 9000] /\
  sale_items (store (snd (handleSubmit ann_wants_five_late 9000 calm_shop)))
  = sale_items shop ++ [SaleItem.mk 41 40 20 5 15 10] /\
  stock_of 20 (store (snd (handleSubmit ann_wants_five_late 9000 calm_shop))) = Some 5 /\
  ~ (forall form now w line S0,
        customerName form <> EmptyString ->
        In line (selectedProducts form) ->
        stock_of (Product.id (product line)) (store w) = Some S0 ->
        S0 < quantity line ->
        store (snd (handleSubmit form now w)) = store w).
Proof.
  split; [discriminate|]. split; [left; reflexivity|].
  split; [reflexivity|]. split; [reflexivity|]. split; [reflexivity|].
  split; [discriminate|]. split; [reflexivity|]. split; [reflexivity|].
  split; [reflexivity|].
  intros H.
  assert (F : store (snd (handleSubmit ann_wants_five_late 9000 calm_shop))
              = store calm_shop).
  { apply (H ann_wants_five_late 9000 calm_shop five_soaps_of_ten 3).
    - discriminate.
    - left. reflexivity.
    - reflexivity.
    - reflexivity. }
  apply (f_equal (stock_of 20)) in F. discriminate F.
Qed.

(** C6 at a store whose third call fails.  Deleting Ann's sale reads its
    items, reads the stock of soap, and fails to write the restored
    stock; the failure is dropped, the sale is deleted, and the mutation
    succeeds with the two units not returned to stock. *)
Theorem deleteSale_swallows_failed_restore :
  units_sold 10 20 shop = 2 /\
  stock_of 20 shop = Some 3 /\
  fst (deleteSaleMutation 10 9000 third_call_fails) = Returned tt /\
  sales (store (snd (deleteSaleMutation 10 9000 third_call_fails)))
  = [sale_of_bob; sale_of_cy] /\
  stock_of 20 (store (snd (deleteSaleMutation 10 9000 third_call_fails))) = Some 3.
Proof.
  repeat split.
Qed.

(** X29.  Where [markAsPaidMutation] does check: an error of its first
    call is thrown as it is, and nothing was written. *)
Lemma markPaid_first_error_thrown (now : Z) (d : uuid) (w : World) (e : Err) :
  next_fault w = Some e ->
  fst (markAsPaidMutation now d w) = Thrown e /\
  store (snd (markAsPaidMutation now d w)) = store w.
Proof.
  intros Hf. unfold markAsPaidMutation, bind, await. rewrite Hf. simpl. auto.
Qed.


(** The customer lookup of [createSaleMutation] treats a failed call as
    "no such customer": Ann, who is in the customers table, is inserted
    a second time and the sale is attached to the new row. *)
Lemma createSale_duplicates_customer_on_failed_lookup :
  fst (createSaleMutation ann_buys_soap 9000 second_call_fails)
  = Returned (Sale.mk 41 40 7 30 20 paid None 9000) /\
  customers (store (snd (createSaleMutation ann_buys_soap 9000 second_call_fails)))
  = customers shop ++ [Customer.mk 40 "Ann" None None].
Proof.
  split; reflexivity.
Qed.

(** ** Urgency of a due date: the three classes *)

Lemma daysUntilDue_le (due now n : Z) :
  daysUntilDue due now <= n <-> due - now <= n * day_ms.
Proof.
  unfold daysUntilDue.
  assert (Hd : 0 < day_ms) by reflexivity.
  pose proof (proj1 (ceil_div_spec (due - now) day_ms _ Hd) eq_refl) as H.
  split; intros; nia.
Qed.

(** X1.  The due-date cell is yellow ("Due soon") exactly when the due
    date is less than a whole day in the past and at most seven days
    ahead, and green exactly when it is more than seven days ahead; the
    icon always goes with the colour. *)
Theorem due_soon_window (due now : Z) :
  (getStatusColor due now = "text-yellow-600"
   <-> now - day_ms < due <= now + 7 * day_ms) /\
  (getStatusColor due now = "text-green-600" <-> now + 7 * day_ms < due) /\
  (getStatusIcon due now = AlertTriangle <-> getStatusColor due now = "text-red-600") /\
  (getStatusIcon due now = Clock <-> getStatusColor due now = "text-yellow-600") /\
  (getStatusIcon due now = CheckCircle <-> getStatusColor due now = "text-green-600").
Proof.
  pose proof (daysUntilDue_negative due now) as Hneg.
  pose proof (daysUntilDue_le due now 7) as H7.
  unfold getStatusColor, getStatusIcon.
  destruct (daysUntilDue due now <? 0) eqn:E0.
  - apply Z.ltb_lt in E0.
    repeat split; intros; try discriminate; try lia.
  - apply Z.ltb_ge in E0.
    destruct (daysUntilDue due now <=? 7) eqn:E7.
    + apply Z.leb_le in E7.
      repeat split; intros; try discriminate; try lia.
    + apply Z.leb_gt in E7.
      repeat split; intros; try discriminate; try lia.
Qed.

(** X2.  The status text counts whole days: "n days overdue" is shown
    with n at least 1 when between n and n + 1 whole days have passed
    since the due date, "Due today" from the due instant until a whole
    day has passed, and "n days left" with n at least 1 when the due
    date is ahead by more than n - 1 and at most n days. *)
Theorem due_label_counts_whole_days (due now : Z) :
  (forall n, dueLabel due now = DaysOverdue n
             <-> 1 <= n /\ n * day_ms <= now - due < (n + 1) * day_ms) /\
  (dueLabel due now = DueToday <-> now - day_ms < due <= now) /\
  (forall n, dueLabel due now = DaysLeft n
             <-> 1 <= n /\ (n - 1) * day_ms < due - now <= n * day_ms).
Proof.
  assert (Hd : 0 < day_ms) by reflexivity.
  pose proof (fun n => ceil_div_spec (due - now) day_ms n Hd) as Hc.
  fold (daysUntilDue due now) in Hc.
  unfold dueLabel.
  destruct (daysUntilDue due now <? 0) eqn:E0.
  - apply Z.ltb_lt in E0.
    pose proof (proj1 (Hc _) eq_refl) as Hb.
    split; [|split].
    + intros n. split.
      * intros H. injection H as <-. nia.
      * intros (Hn & Hlo & Hhi). f_equal.
        assert (daysUntilDue due now = - n) by (apply Hc; nia). lia.
    + split; [discriminate|]. intros H. nia.
    + intros n. split; [discriminate|]. intros (Hn & Hlo & Hhi). nia.
  - apply Z.ltb_ge in E0.
    destruct (daysUntilDue due now =? 0) eqn:Ez.
    + apply Z.eqb_eq in Ez. apply Hc in Ez.
      split; [|split].
      * intros n. split; [discriminate|]. intros (Hn & Hlo & Hhi). nia.
      * split; [intros _; lia | reflexivity].
      * intros n. split; [discriminate|]. intros (Hn & Hlo & Hhi). nia.
    + apply Z.eqb_neq in Ez.
      pose proof (proj1 (Hc _) eq_refl) as Hb.
      split; [|split].
      * intros n. split; [discriminate|]. intros (Hn & Hlo & Hhi). nia.
      * split; [discriminate|]. intros H.
        exfalso. apply Ez. apply Hc. lia.
      * intros n. split.
        -- intros H. injection H as <-. split; [lia | exact Hb].
        -- intros (Hn & Hb'). f_equal. apply Hc. exact Hb'.
Qed.

(** ** Debtor statistics: what the figures add up to *)

Lemma count_where_bounds {A} (keep : A -> bool) (rows : list A) :
  0 <= count_where keep rows <= Z.of_nat (List.length rows).
Proof.
  induction rows as [|r rest IH]; simpl List.length; simpl count_where; [lia|].
  destruct (keep r); lia.
Qed.

Lemma count_where_le {A} (p q : A -> bool) (rows : list A) :
  (forall r, p r = true -> q r = true) ->
  count_where p rows <= count_where q rows.
Proof.
  intros Hpq. induction rows as [|r rest IH]; simpl; [lia|].
  destruct (p r) eqn:Ep.
  - rewrite (Hpq r Ep). lia.
  - destruct (q r); lia.
Qed.

Lemma count_where_split {A} (keep : A -> bool) (rows : list A) :
  count_where keep rows + count_where (fun r => negb (keep r)) rows
  = Z.of_nat (List.length rows).
Proof.
  induction rows as [|r rest IH]; [reflexivity|].
  simpl List.length. simpl count_where. rewrite Nat2Z.inj_succ.
  destruct (keep r); simpl negb; cbv iota; lia.
Qed.

(** X3.  For every list of debtors the overdue count is between zero and
    the count of active debtors, and the active debtors and the resolved
    debtors together are all the debtors. *)
Theorem debtor_counts_add_up (now : Z) (ds : list Debtor.row) :
  0 <= overdueDebtors (debtorStats now (Some ds))
    <= activeDebtors (debtorStats now (Some ds)) /\
  activeDebtors (debtorStats now (Some ds)) + count_where Debtor.is_resolved ds
  = Z.of_nat (List.length ds) /\
  activeDebtors (debtorStats now (Some ds)) <= Z.of_nat (List.length ds).
Proof.
  rewrite debtorStats_sums. simpl. split; [split|split].
  - apply count_where_bounds.
  - apply count_where_le. intros r. unfold overdue_at.
    destruct (unresolved r); [reflexivity|discriminate].
  - rewrite <- (count_where_split Debtor.is_resolved ds).
    unfold unresolved. lia.
  - apply count_where_bounds.
Qed.

(** X4.  When the read of the debtors fails, the statistics query of the
    Debtors page still succeeds and shows four zeros, while
    [fetchDebtorStats] throws the store's error; neither writes. *)
Theorem page_stats_hide_a_failed_read (now : Z) (w : World) (e : Err) :
  next_fault w = Some e ->
  fst (debtorStats_queryFn now w) = Returned (mkStats 0 0 0 0) /\
  fst (fetchDebtorStats now w) = Thrown e /\
  store (snd (debtorStats_queryFn now w)) = store w /\
  store (snd (fetchDebtorStats now w)) = store w.
Proof.
  intros Hf. unfold debtorStats_queryFn, fetchDebtorStats, bind, await.
  rewrite Hf. simpl. auto.
Qed.

Lemma page_stats_hide_a_failed_read_witness :
  fst (debtorStats_queryFn 6000 first_call_fails) = Returned (mkStats 0 0 0 0) /\
  fst (fetchDebtorStats 6000 first_call_fails)
  = Thrown (PostgrestError "TypeError: Failed to fetch").
Proof.
  destruct (page_stats_hide_a_failed_read 6000 first_call_fails _ eq_refl)
    as (H1 & H2 & _).
  split; [exact H1 | exact H2].
Defined.

(** ** Frames of computations *)

Lemma every_run_ret (R : Store -> Store -> Prop) {A} (a : A) :
  (forall s, R s s) -> every_run R (ret a).
Proof. intros Hrefl w. apply Hrefl. Qed.

Lemma every_run_throw (R : Store -> Store -> Prop) {A} (e : Err) :
  (forall s, R s s) -> every_run R (@throw A e).
Proof. intros Hrefl w. apply Hrefl. Qed.

Lemma every_run_bind (R : Store -> Store -> Prop) {A B} (m : M A) (k : A -> M B) :
  (forall s1 s2 s3, R s1 s2 -> R s2 s3 -> R s1 s3) ->
  every_run R m -> (forall a, every_run R (k a)) -> every_run R (bind m k).
Proof.
  intros Htrans Hm Hk w. unfold bind. specialize (Hm w).
  destruct (m w) as [[a|e] w1]; simpl in *.
  - apply (Htrans _ _ _ Hm). apply (Hk a w1).
  - exact Hm.
Qed.

Lemma every_run_await (R : Store -> Store -> Prop) {A}
  (query : Store -> response A * Store) :
  (forall s, R s s) -> (forall s, R s (snd (query s))) -> every_run R (await query).
Proof.
  intros Hrefl Hq w. unfold await. destruct (next_fault w); [apply Hrefl|].
  specialize (Hq (store w)). destruct (query (store w)). exact Hq.
Qed.

Lemma every_run_throw_if_error (R : Store -> Store -> Prop) {A} (r : response A) :
  (forall s, R s s) -> every_run R (throw_if_error r).
Proof. intros Hrefl w. unfold throw_if_error. destruct (error r); apply Hrefl. Qed.

Lemma every_run_for_of (R : Store -> Store -> Prop) {A} (xs : list A)
  (body : A -> M unit) :
  (forall s, R s s) ->
  (forall s1 s2 s3, R s1 s2 -> R s2 s3 -> R s1 s3) ->
  (forall x, every_run R (body x)) -> every_run R (for_of xs body).
Proof.
  intros Hrefl Htrans Hbody. induction xs as [|x rest IH]; simpl.
  - apply every_run_ret. exact Hrefl.
  - apply every_run_bind; auto.
Qed.

Lemma map_update_where {A B} (p : A -> bool) (f : A -> A) (g : A -> B) (rows : list A) :
  (forall r, g (f r) = g r) -> map g (update_where p f rows) = map g rows.
Proof.
  intros Hg. unfold update_where. rewrite map_map. apply map_ext.
  intros r. destruct (p r); [apply Hg|reflexivity].
Qed.

Lemma update_where_none {A} (p : A -> bool) (f : A -> A) (rows : list A) :
  filter p rows = [] -> update_where p f rows = rows.
Proof.
  unfold update_where. induction rows as [|r rest IH]; simpl; [reflexivity|].
  destruct (p r); [discriminate|]. intros H. f_equal. exact (IH H).
Qed.

(** ** Marking a debt as paid: edges *)

Lemma marks_only_refl (d : uuid) (s : Store) : marks_only d s s.
Proof. unfold marks_only. repeat split. Qed.

Lemma marks_only_trans (d : uuid) (s1 s2 s3 : Store) :
  marks_only d s1 s2 -> marks_only d s2 s3 -> marks_only d s1 s3.
Proof.
  unfold marks_only.
  intros (A1 & A2 & A3 & A4 & A5 & A6) (B1 & B2 & B3 & B4 & B5 & B6).
  repeat split; congruence.
Qed.

(** X5.  Whatever the fate of its calls, [markAsPaidMutation] on a debtor
    leaves products, customers and sale items as they were, leaves every
    row of any other debtor as it was, changes no id, reference, amount
    or due date of a debtor row, and changes nothing of a sale but its
    payment status. *)
Theorem markPaid_changes_only_flags (now : Z) (d : uuid) (w : World) :
  marks_only d (store w) (store (snd (markAsPaidMutation now d w))).
Proof.
  revert w. change (every_run (marks_only d) (markAsPaidMutation now d)).
  pose proof (marks_only_refl d) as Hrefl.
  pose proof (marks_only_trans d) as Htrans.
  unfold markAsPaidMutation.
  apply every_run_bind; [exact Htrans| |intros r].
  { apply every_run_await; [exact Hrefl|]. intros s.
    unfold marks_only, debtors_resolve; simpl. repeat split.
    - apply filter_update_other; [reflexivity|].
      intros r Hr. apply negb_true_iff in Hr. exact Hr.
    - apply map_update_where. reflexivity. }
  apply every_run_bind; [exact Htrans|apply every_run_throw_if_error; exact Hrefl|].
  intros _.
  apply every_run_bind; [exact Htrans| |intros debtor].
  { apply every_run_await; [exact Hrefl|]. intros s. apply Hrefl. }
  destruct (data debtor) as [sid|]; [|apply every_run_ret; exact Hrefl].
  apply every_run_bind; [exact Htrans| |intros r'; apply every_run_throw_if_error; exact Hrefl].
  apply every_run_await; [exact Hrefl|]. intros s.
  unfold marks_only, sales_set_paid; simpl. repeat split.
  apply map_update_where. reflexivity.
Qed.

Lemma with_debtors_same (s : Store) : with_debtors s (debtors s) = s.
Proof. destruct s; reflexivity. Qed.

(** X6.  Marking as paid a debtor id that no row carries succeeds when
    the calls go through, and changes nothing. *)
Theorem markPaid_unknown_debtor (now : Z) (d : uuid) (w : World) :
  quiet w ->
  filter (fun r => Nat.eqb (Debtor.id r) d) (debtors (store w)) = [] ->
  fst (markAsPaidMutation now d w) = Returned tt /\
  store (snd (markAsPaidMutation now d w)) = store w.
Proof.
  intros Hq Hnone. destruct (markPaid_quiet now d w Hq) as (Hret & Hs & _).
  split; [exact Hret|]. rewrite Hs. unfold markPaid_store.
  rewrite sale_id_after_resolve.
  unfold debtors_sale_id at 1. simpl. rewrite Hnone. simpl.
  rewrite update_where_none by exact Hnone. apply with_debtors_same.
Qed.

Lemma markPaid_unknown_debtor_witness :
  fst (markAsPaidMutation 6000 99 calm_shop) = Returned tt /\
  store (snd (markAsPaidMutation 6000 99 calm_shop)) = shop.
Proof.
  exact (markPaid_unknown_debtor 6000 99 calm_shop eq_refl eq_refl).
Defined.

(** X7.  When the update of the sale fails, after the update of the
    debtor and the lookup of its sale went through, [markAsPaidMutation]
    throws the store's error as it is and nothing is undone: the debtor
    stays resolved and the sales table is as before. *)
Theorem markPaid_sale_update_fails (now : Z) (d : uuid) (w : World) (e : Err)
  (script : list (option Err)) (r : Debtor.row) :
  faults w = None :: None :: Some e :: script ->
  filter (fun y => Nat.eqb (Debtor.id y) d) (debtors (store w)) = [r] ->
  fst (markAsPaidMutation now d w) = Thrown e /\
  debtors (store (snd (markAsPaidMutation now d w)))
  = update_where (fun y => Nat.eqb (Debtor.id y) d) (Debtor.resolve now)
                 (debtors (store w)) /\
  In (Debtor.resolve now r) (debtors (store (snd (markAsPaidMutation now d w)))) /\
  sales (store (snd (markAsPaidMutation now d w))) = sales (store w).
Proof.
  intros Hf Hr.
  assert (Hlook : filter (fun y => Nat.eqb (Debtor.id y) d)
                    (update_where (fun y => Nat.eqb (Debtor.id y) d) (Debtor.resolve now)
                                  (debtors (store w)))
                  = [Debtor.resolve now r]).
  { rewrite filter_update_where by reflexivity. rewrite Hr. reflexivity. }
  assert (Hrun : markAsPaidMutation now d w
                 = (Thrown e,
                    mkWorld (snd (debtors_resolve now d (store w))) script (auth_user w))).
  { unfold markAsPaidMutation, bind, await, next_fault. rewrite Hf. simpl.
    rewrite Hlook. simpl. reflexivity. }
  rewrite Hrun. simpl. repeat split.
  assert (Hin : In (Debtor.resolve now r)
                   (filter (fun y => Nat.eqb (Debtor.id y) d)
                      (update_where (fun y => Nat.eqb (Debtor.id y) d) (Debtor.resolve now)
                                    (debtors (store w)))))
    by (rewrite Hlook; left; reflexivity).
  apply filter_In in Hin. exact (proj1 Hin).
Qed.

Lemma markPaid_sale_update_fails_witness :
  fst (markAsPaidMutation 6000 1 third_call_fails)
  = Thrown (PostgrestError "TypeError: Failed to fetch") /\
  sales (store (snd (markAsPaidMutation 6000 1 third_call_fails))) = sales shop.
Proof.
  destruct (markPaid_sale_update_fails 6000 1 third_call_fails _ [] ann_owes
              eq_refl eq_refl) as (H1 & _ & _ & H4).
  split; [exact H1 | exact H4].
Defined.

Lemma markPaid_when_calls_go_through_witness :
  fst (markAsPaidMutation 6000 1 calm_shop) = Returned tt /\
  (forall r', In r' (debtors (store (snd (markAsPaidMutation 6000 1 calm_shop)))) ->
              Debtor.id r' = 1%nat -> Debtor.is_resolved r' = true) /\
  (forall x, In x (sales (store (snd (markAsPaidMutation 6000 1 calm_shop)))) ->
             Sale.id x = Debtor.sale_id ann_owes -> Sale.payment_status x = paid).
Proof.
  exact (markPaid_when_calls_go_through 6000 1 calm_shop ann_owes eq_refl eq_refl).
Defined.

Lemma markPaid_first_error_thrown_witness :
  fst (markAsPaidMutation 6000 1 first_call_fails)
  = Thrown (PostgrestError "TypeError: Failed to fetch") /\
  store (snd (markAsPaidMutation 6000 1 first_call_fails)) = shop.
Proof.
  exact (markPaid_first_error_thrown 6000 1 first_call_fails _ eq_refl).
Defined.

Lemma sum_where_update_one {A} (p keep : A -> bool) (g : A -> A) (f : A -> Z)
  (rows : list A) (r : A) :
  filter p rows = [r] ->
  sum_where keep f (update_where p g rows)
  = sum_where keep f rows
    - (if keep r then f r else 0) + (if keep (g r) then f (g r) else 0).
Proof.
  induction rows as [|x rest IH]; simpl; [discriminate|].
  destruct (p x) eqn:Ep; intros H.
  - injection H as -> Hrest.
    fold (update_where p g rest). rewrite (update_where_none p g rest Hrest). lia.
  - fold (update_where p g rest). rewrite (IH H). lia.
Qed.

Lemma count_where_as_sum {A} (keep : A -> bool) (rows : list A) :
  count_where keep rows = sum_where keep (fun _ => 1) rows.
Proof. induction rows as [|x rest IH]; simpl; [reflexivity|]. rewrite IH. reflexivity. Qed.

Lemma debtors_after_markPaid (now : Z) (d : uuid) (s : Store) :
  debtors (markPaid_store now d s)
  = update_where (fun y => Nat.eqb (Debtor.id y) d) (Debtor.resolve now) (debtors s).
Proof.
  unfold markPaid_store.
  destruct (data (fst (debtors_sale_id d (snd (debtors_resolve now d s))))); reflexivity.
Qed.

Lemma fsum_from_update_where {A} (p keep keep' : A -> bool) (g : A -> A)
  (f : A -> float) (rows : list A) (acc : float) :
  (forall r, keep' r = if p r then keep (g r) else keep r) ->
  (forall r, f (g r) = f r) ->
  fsum_from keep f acc (update_where p g rows) = fsum_from keep' f acc rows.
Proof.
  intros Hkeep Hf. unfold update_where. revert acc.
  induction rows as [|r rest IH]; intros acc; simpl; [reflexivity|].
  rewrite Hkeep. destruct (p r); [rewrite Hf|]; apply IH.
Qed.

(** X8.  When its calls go through, marking an unresolved debtor as paid
    takes its amount out of the outstanding total and puts it into the
    resolved total: afterwards the outstanding total shows the sum of
    amount_owed over the other unresolved debtors, and the resolved
    total shows the sum over the resolved debtors and the debtor just
    paid, each taken in table order; the count of active debtors is one
    less, and so is the overdue count if the debtor was overdue at the
    instant the statistics are taken. *)
Theorem markPaid_moves_amount_to_resolved (now t : Z) (d : uuid) (w : World)
  (r : Debtor.row) :
  quiet w ->
  filter (fun y => Nat.eqb (Debtor.id y) d) (debtors (store w)) = [r] ->
  Debtor.is_resolved r = false ->
  let before := debtorStats t (Some (debtors (store w))) in
  let after :=
    debtorStats t (Some (debtors (store (snd (markAsPaidMutation now d w))))) in
  shows (totalOutstanding after)
        (fsum_where (fun y => unresolved y && negb (Nat.eqb (Debtor.id y) d))
                    Debtor.amount_owed (debtors (store w))) /\
  shows (totalResolved after)
        (fsum_where (fun y => Debtor.is_resolved y || Nat.eqb (Debtor.id y) d)
                    Debtor.amount_owed (debtors (store w))) /\
  activeDebtors after = activeDebtors before - 1 /\
  overdueDebtors after
  = overdueDebtors before - (if Debtor.due_date r <? t then 1 else 0).
Proof.
  intros Hq Hr Hopen before after. subst before after.
  destruct (markPaid_quiet now d w Hq) as (_ & Hs & _).
  rewrite Hs, debtors_after_markPaid, !debtorStats_sums.
  cbn [totalOutstanding totalResolved activeDebtors overdueDebtors].
  split; [|split].
  - unfold fsum_where.
    rewrite (fsum_from_update_where _ unresolved
               (fun y => unresolved y && negb (Nat.eqb (Debtor.id y) d))).
    + apply or_zero_shows.
    + intros y. unfold unresolved. simpl.
      destruct (Nat.eqb (Debtor.id y) d); simpl;
        [rewrite andb_false_r | rewrite andb_true_r]; reflexivity.
    + reflexivity.
  - unfold fsum_where.
    rewrite (fsum_from_update_where _ Debtor.is_resolved
               (fun y => Debtor.is_resolved y || Nat.eqb (Debtor.id y) d)).
    + apply or_zero_shows.
    + intros y. simpl.
      destruct (Nat.eqb (Debtor.id y) d); simpl;
        [rewrite orb_true_r | rewrite orb_false_r]; reflexivity.
    + reflexivity.
  - rewrite !count_where_as_sum.
    rewrite !(sum_where_update_one _ _ _ _ _ r Hr).
    unfold overdue_at, unresolved. simpl. rewrite Hopen. simpl.
    split; lia.
Qed.

Lemma markPaid_moves_amount_to_resolved_witness :
  shows (totalOutstanding
           (debtorStats 6000
              (Some (debtors (store (snd (markAsPaidMutation 7000 1 calm_shop)))))))
        45%float /\
  shows (totalResolved
           (debtorStats 6000
              (Some (debtors (store (snd (markAsPaidMutation 7000 1 calm_shop)))))))
        (30 + 70)%float.
Proof.
  destruct (markPaid_moves_amount_to_resolved 7000 6000 1 calm_shop ann_owes
              eq_refl eq_refl eq_refl) as (Hout & Hres & _).
  split; [exact Hout | exact Hres].
Defined.

(** ** Editing the cart *)

Lemma increment_first_ids (pid : uuid) (cart : list CartLine) :
  map (fun l => Product.id (product l)) (increment_first pid cart)
  = map (fun l => Product.id (product l)) cart.
Proof.
  induction cart as [|l rest IH]; simpl; [reflexivity|].
  destruct (Nat.eqb (Product.id (product l)) pid); simpl; [reflexivity|].
  rewrite IH. reflexivity.
Qed.

Lemma increment_first_positive (pid : uuid) (cart : list CartLine) :
  Forall (fun l => 0 < quantity l) cart ->
  Forall (fun l => 0 < quantity l) (increment_first pid cart).
Proof.
  induction 1 as [|l rest Hl Hrest IH]; simpl; [constructor|].
  destruct (Nat.eqb (Product.id (product l)) pid); constructor; simpl; auto; lia.
Qed.

Lemma existsb_id_false (pid : uuid) (cart : list CartLine) :
  existsb (fun l => Nat.eqb (Product.id (product l)) pid) cart = false ->
  ~ In pid (map (fun l => Product.id (product l)) cart).
Proof.
  intros Hex Hin. apply in_map_iff in Hin. destruct Hin as (l & Hid & Hl).
  assert (existsb (fun l => Nat.eqb (Product.id (product l)) pid) cart = true).
  { apply existsb_exists. exists l. split; [exact Hl|]. apply Nat.eqb_eq. exact Hid. }
  congruence.
Qed.

Lemma NoDup_map_filter {A B} (g : A -> B) (keep : A -> bool) (rows : list A) :
  NoDup (map g rows) -> NoDup (map g (filter keep rows)).
Proof.
  induction rows as [|r rest IH]; simpl; [auto|].
  intros H. inversion H as [|x xs Hnotin Hnodup]; subst.
  destruct (keep r); simpl; [|auto].
  constructor; [|auto].
  intros Hin. apply Hnotin. apply in_map_iff in Hin.
  destruct Hin as (y & Hy & Hyin). apply filter_In in Hyin.
  apply in_map_iff. exists y. tauto.
Qed.

(** X9.  Starting from a cart with one line per product and every
    quantity at least one (the empty cart is one), adding a product,
    removing a product, setting a quantity and setting a price each give
    such a cart again. *)
Theorem cart_edits_keep_one_line_per_product (cart : list CartLine) :
  cart_ok cart ->
  (forall p, cart_ok (addProductToSale cart p)) /\
  (forall pid, cart_ok (removeProductFromSale cart pid)) /\
  (forall pid q, cart_ok (updateProductQuantity cart pid q)) /\
  (forall pid price, cart_ok (updateSellingPrice cart pid price)).
Proof.
  intros (Hnodup & Hpos).
  assert (Hremove : forall pid, cart_ok (removeProductFromSale cart pid)).
  { intros pid. unfold removeProductFromSale. split.
    - apply NoDup_map_filter. exact Hnodup.
    - apply Forall_forall. intros l Hl. apply filter_In in Hl.
      exact (proj1 (Forall_forall _ _) Hpos l (proj1 Hl)). }
  split; [|split; [exact Hremove|split]].
  - intros p. unfold addProductToSale.
    destruct (existsb _ cart) eqn:Ex.
    + split; [rewrite increment_first_ids; exact Hnodup|].
      apply increment_first_positive. exact Hpos.
    + split.
      * rewrite map_app. simpl.
        apply Permutation_NoDup
          with (l := Product.id p :: map (fun l => Product.id (product l)) cart).
        -- apply Permutation_cons_append.
        -- constructor; [apply existsb_id_false; exact Ex | exact Hnodup].
      * apply Forall_app. split; [exact Hpos|]. constructor; [simpl; lia|constructor].
  - intros pid q. unfold updateProductQuantity.
    destruct (q <=? 0) eqn:Eq; [apply Hremove|]. apply Z.leb_gt in Eq.
    split.
    + rewrite map_map.
      erewrite map_ext; [exact Hnodup|].
      intros l. simpl. destruct (Nat.eqb (Product.id (product l)) pid); reflexivity.
    + apply Forall_map. apply (Forall_impl _ (P := fun l => 0 < quantity l)); [|exact Hpos].
      intros l Hl. destruct (Nat.eqb (Product.id (product l)) pid); simpl; lia.
  - intros pid price. unfold updateSellingPrice. split.
    + rewrite map_map.
      erewrite map_ext; [exact Hnodup|].
      intros l. simpl. destruct (Nat.eqb (Product.id (product l)) pid); reflexivity.
    + apply Forall_map. apply (Forall_impl _ (P := fun l => 0 < quantity l)); [|exact Hpos].
      intros l Hl. destruct (Nat.eqb (Product.id (product l)) pid); simpl; exact Hl.
Qed.

Lemma cart_edits_keep_one_line_per_product_witness :
  cart_ok (addProductToSale [two_soaps] rice) /\
  cart_ok (updateProductQuantity [two_soaps] 20 0).
Proof.
  assert (Hok : cart_ok [two_soaps]).
  { split.
    - constructor; [intros []|constructor].
    - constructor; [reflexivity|constructor]. }
  destruct (cart_edits_keep_one_line_per_product [two_soaps] Hok)
    as (Hadd & _ & Hset & _).
  split; [apply Hadd | apply Hset].
Defined.

Lemma cart_quantity_increment_first (pid other : uuid) (cart : list CartLine) :
  cart_quantity other (increment_first pid cart)
  = cart_quantity other cart
    + (if existsb (fun l => Nat.eqb (Product.id (product l)) pid) cart
       then if Nat.eqb pid other then 1 else 0
       else 0).
Proof.
  unfold cart_quantity. induction cart as [|l rest IH]; simpl; [reflexivity|].
  destruct (Nat.eqb (Product.id (product l)) pid) eqn:E; simpl.
  - apply Nat.eqb_eq in E. rewrite E.
    destruct (Nat.eqb pid other); lia.
  - rewrite IH. lia.
Qed.

Lemma cart_quantity_app (pid : uuid) (a b : list CartLine) :
  cart_quantity pid (a ++ b) = cart_quantity pid a + cart_quantity pid b.
Proof.
  unfold cart_quantity. induction a as [|l rest IH]; simpl; [reflexivity|].
  rewrite IH. lia.
Qed.

Lemma increment_first_keeps_snapshots (pid : uuid) (cart : list CartLine) :
  map (fun l => (product l, sellingPrice l)) (increment_first pid cart)
  = map (fun l => (product l, sellingPrice l)) cart.
Proof.
  induction cart as [|l rest IH]; simpl; [reflexivity|].
  destruct (Nat.eqb (Product.id (product l)) pid); simpl; [reflexivity|].
  rewrite IH. reflexivity.
Qed.

(** X10.  Adding a product to the cart raises the units asked of that
    product by one and leaves the units of every other product as they
    were.  When the product already has a line, no line is added and the
    lines keep the product rows and the selling prices they had: a
    second click does not refresh the stock or cost the line carries. *)
Theorem add_product_asks_one_more_unit (cart : list CartLine) (p : Product.row) :
  cart_quantity (Product.id p) (addProductToSale cart p)
  = cart_quantity (Product.id p) cart + 1 /\
  (forall other, other <> Product.id p ->
     cart_quantity other (addProductToSale cart p)
     = cart_quantity other cart) /\
  (In (Product.id p) (map (fun l => Product.id (product l)) cart) ->
   map (fun l => (product l, sellingPrice l)) (addProductToSale cart p)
   = map (fun l => (product l, sellingPrice l)) cart).
Proof.
  unfold addProductToSale.
  destruct (existsb (fun l => Nat.eqb (Product.id (product l)) (Product.id p)) cart) eqn:Ex.
  - split; [|split].
    + rewrite cart_quantity_increment_first, Ex, Nat.eqb_refl. reflexivity.
    + intros other Hne. rewrite cart_quantity_increment_first, Ex.
      destruct (Nat.eqb (Product.id p) other) eqn:E; [|lia].
      apply Nat.eqb_eq in E. congruence.
    + intros _. apply increment_first_keeps_snapshots.
  - split; [|split].
    + rewrite cart_quantity_app. unfold cart_quantity at 2. simpl.
      rewrite Nat.eqb_refl. lia.
    + intros other Hne. rewrite cart_quantity_app. unfold cart_quantity at 2. simpl.
      destruct (Nat.eqb (Product.id p) other) eqn:E; [|lia].
      apply Nat.eqb_eq in E. congruence.
    + intros Hin. exfalso. exact (existsb_id_false _ _ Ex Hin).
Qed.

Lemma cart_quantity_absent (pid : uuid) (cart : list CartLine) :
  ~ In pid (map (fun l => Product.id (product l)) cart) -> cart_quantity pid cart = 0.
Proof.
  unfold cart_quantity. induction cart as [|l rest IH]; simpl; [reflexivity|].
  intros Hnot. destruct (Nat.eqb (Product.id (product l)) pid) eqn:E.
  - apply Nat.eqb_eq in E. exfalso. apply Hnot. left. exact E.
  - rewrite IH; [lia|]. intros H. apply Hnot. right. exact H.
Qed.

Lemma removed_product_absent (pid : uuid) (cart : list CartLine) :
  ~ In pid (map (fun l => Product.id (product l)) (removeProductFromSale cart pid)).
Proof.
  unfold removeProductFromSale. intros Hin. apply in_map_iff in Hin.
  destruct Hin as (l & Hid & Hl). apply filter_In in Hl. destruct Hl as (_ & Hneg).
  apply negb_true_iff, Nat.eqb_neq in Hneg. contradiction.
Qed.

Lemma cart_quantity_remove_other (pid other : uuid) (cart : list CartLine) :
  other <> pid ->
  cart_quantity other (removeProductFromSale cart pid) = cart_quantity other cart.
Proof.
  intros Hne. unfold cart_quantity, removeProductFromSale.
  induction cart as [|l rest IH]; simpl; [reflexivity|].
  destruct (Nat.eqb (Product.id (product l)) pid) eqn:E; simpl.
  - apply Nat.eqb_eq in E.
    destruct (Nat.eqb (Product.id (product l)) other) eqn:E'.
    + apply Nat.eqb_eq in E'. congruence.
    + exact IH.
  - rewrite IH. reflexivity.
Qed.

Lemma cart_quantity_set (pid : uuid) (q : Z) (cart : list CartLine) :
  NoDup (map (fun l => Product.id (product l)) cart) ->
  In pid (map (fun l => Product.id (product l)) cart) ->
  cart_quantity pid
    (map (fun p => if Nat.eqb (Product.id (product p)) pid
                   then mkLine (product p) q (sellingPrice p) else p) cart) = q.
Proof.
  unfold cart_quantity. induction cart as [|l rest IH]; simpl; [contradiction|].
  intros Hnodup Hin. inversion Hnodup as [|x xs Hnotin Hrest]; subst.
  destruct (Nat.eqb (Product.id (product l)) pid) eqn:E; simpl.
  - rewrite E. apply Nat.eqb_eq in E. rewrite E in Hnotin.
    assert (Hz : sum_where (fun l0 => Nat.eqb (Product.id (product l0)) pid) quantity
                   (map (fun p => if Nat.eqb (Product.id (product p)) pid
                                  then mkLine (product p) q (sellingPrice p) else p) rest)
                 = 0).
    { apply cart_quantity_absent. rewrite map_map.
      erewrite map_ext; [exact Hnotin|].
      intros a. simpl. destruct (Nat.eqb (Product.id (product a)) pid); reflexivity. }
    rewrite Hz. lia.
  - rewrite E. destruct Hin as [Hin|Hin].
    + apply Nat.eqb_neq in E. contradiction.
    + rewrite (IH Hrest Hin). lia.
Qed.

Lemma cart_quantity_set_other (pid other : uuid) (q : Z) (cart : list CartLine) :
  other <> pid ->
  cart_quantity other
    (map (fun p => if Nat.eqb (Product.id (product p)) pid
                   then mkLine (product p) q (sellingPrice p) else p) cart)
  = cart_quantity other cart.
Proof.
  intros Hne. unfold cart_quantity. induction cart as [|l rest IH]; simpl; [reflexivity|].
  rewrite IH. destruct (Nat.eqb (Product.id (product l)) pid) eqn:E; simpl; [|reflexivity].
  apply Nat.eqb_eq in E.
  destruct (Nat.eqb (Product.id (product l)) other) eqn:E'; [|reflexivity].
  apply Nat.eqb_eq in E'. congruence.
Qed.

(** X11.  In a cart with one line per product, setting the quantity of a
    product that has a line makes the cart ask exactly that quantity of
    it, or nothing at all when the quantity is zero or negative, in
    which case the product's line is gone; the other products are asked
    what they were asked before. *)
Theorem set_quantity_sets_or_removes (cart : list CartLine) (pid : uuid) (q : Z) :
  cart_ok cart ->
  In pid (map (fun l => Product.id (product l)) cart) ->
  cart_quantity pid (updateProductQuantity cart pid q) = Z.max q 0 /\
  (q <= 0 ->
   ~ In pid (map (fun l => Product.id (product l)) (updateProductQuantity cart pid q))) /\
  (forall other, other <> pid ->
     cart_quantity other (updateProductQuantity cart pid q) = cart_quantity other cart).
Proof.
  intros (Hnodup & _) Hin. unfold updateProductQuantity.
  destruct (q <=? 0) eqn:Eq.
  - apply Z.leb_le in Eq. split; [|split].
    + rewrite cart_quantity_absent by apply removed_product_absent. lia.
    + intros _. apply removed_product_absent.
    + intros other Hne. apply cart_quantity_remove_other. exact Hne.
  - apply Z.leb_gt in Eq. split; [|split].
    + rewrite cart_quantity_set by assumption. lia.
    + intros H. lia.
    + intros other Hne. apply cart_quantity_set_other. exact Hne.
Qed.

Lemma set_quantity_sets_or_removes_witness :
  cart_quantity 20 (updateProductQuantity [two_soaps] 20 5) = Z.max 5 0.
Proof.
  refine (proj1 (set_quantity_sets_or_removes [two_soaps] 20 5 _ _)).
  - split.
    + constructor; [intros []|constructor].
    + constructor; [reflexivity|constructor].
  - left. reflexivity.
Defined.

(** ** Submitting the sale *)

Lemma cart_ok_one_line (cart : list CartLine) (line : CartLine) :
  NoDup (map (fun l => Product.id (product l)) cart) ->
  In line cart ->
  lines_of (Product.id (product line)) cart = [line].
Proof.
  unfold lines_of. induction cart as [|l rest IH]; simpl; [contradiction|].
  intros Hnodup Hin. inversion Hnodup as [|x xs Hnotin Hrest]; subst.
  destruct Hin as [->|Hin].
  - rewrite Nat.eqb_refl. f_equal.
    destruct (filter _ rest) as [|l' rest'] eqn:Ef; [reflexivity|].
    exfalso. apply Hnotin.
    assert (Hl' : In l' (filter (fun l0 => Nat.eqb (Product.id (product l0))
                                              (Product.id (product line))) rest))
      by (rewrite Ef; left; reflexivity).
    apply filter_In in Hl'. destruct Hl' as (Hin' & Hid). apply Nat.eqb_eq in Hid.
    apply in_map_iff. exists l'. auto.
  - destruct (Nat.eqb (Product.id (product l)) (Product.id (product line))) eqn:E.
    + exfalso. apply Nat.eqb_eq in E. apply Hnotin. rewrite E.
      apply in_map_iff. exists line. auto.
    + apply IH; assumption.
Qed.

Lemma no_stock_issue (cart : list CartLine) (line : CartLine) :
  is_empty (stockIssues cart) = true -> In line cart ->
  quantity line <= Product.stock_quantity (product line).
Proof.
  intros Hempty Hin.
  destruct (Z.le_gt_cases (quantity line) (Product.stock_quantity (product line)))
    as [H|H]; [exact H|].
  rewrite (stockIssues_In cart line Hin H) in Hempty. discriminate.
Qed.

(** X12.  When the submit handler answers with the success toast (the
    only one that is not destructive), for a cart with one line per
    product: [createSaleMutation] returned a sale, and every product of
    the cart that the store holds is left with the stock its line
    carried minus the quantity sold, which is not negative. *)
Theorem accepted_sale_leaves_no_negative_stock (form : SaleForm) (now : Z)
  (w : World) (line : CartLine) (S0 : Z) :
  cart_ok (selectedProducts form) ->
  destructive (fst (handleSubmit form now w)) = false ->
  In line (selectedProducts form) ->
  stock_of (Product.id (product line)) (store w) = Some S0 ->
  (exists sale,
     createSaleMutation form now w = (Returned sale, snd (handleSubmit form now w))) /\
  stock_of (Product.id (product line)) (store (snd (handleSubmit form now w)))
  = Some (Product.stock_quantity (product line) - quantity line) /\
  0 <= Product.stock_quantity (product line) - quantity line.
Proof.
  intros (Hnodup & _) Hok Hin Hstock. unfold handleSubmit in *.
  destruct (String.eqb (customerName form) EmptyString
            || is_empty (selectedProducts form)); [discriminate|].
  destruct (is_empty (stockIssues (selectedProducts form))) eqn:Eissues;
    simpl negb in *; cbv iota in *; [|discriminate].
  destruct (createSaleMutation form now w) as [[sale|e] w'] eqn:Erun;
    [|discriminate].
  simpl. split; [exists sale; reflexivity|]. split.
  - apply createSale_returned in Erun.
    destruct Erun as (_ & _ & _ & _ & _ & Hp & _).
    rewrite <- (stock_writes_line _ now S0 (selectedProducts form) line (store w)
                  (cart_ok_one_line _ _ Hnodup Hin) Hstock).
    rewrite !stock_of_rows. simpl. rewrite Hp. reflexivity.
  - pose proof (no_stock_issue _ line Eissues Hin). lia.
Qed.

Lemma accepted_sale_leaves_no_negative_stock_witness :
  stock_of 20 (store (snd (handleSubmit ann_buys_soap 9000 calm_shop))) = Some (3 - 2).
Proof.
  refine (proj1 (proj2 (accepted_sale_leaves_no_negative_stock ann_buys_soap 9000
                          calm_shop two_soaps 3 _ _ _ _))).
  - split.
    + constructor; [intros []|constructor].
    + constructor; [reflexivity|constructor].
  - reflexivity.
  - left. reflexivity.
  - reflexivity.
Defined.

(** X13.  Without a signed-in user, and also when the call that asks for
    the user fails, [createSaleMutation] throws "Not authenticated" and
    writes nothing. *)
Theorem createSale_needs_a_user (form : SaleForm) (now : Z) (w : World) :
  auth_user w = None \/ next_fault w <> None ->
  fst (createSaleMutation form now w) = Thrown (JsError "Not authenticated") /\
  store (snd (createSaleMutation form now w)) = store w.
Proof.
  intros H. unfold createSaleMutation, bind, getUser.
  destruct (next_fault w) as [e|] eqn:Ef.
  - simpl. auto.
  - destruct H as [H|H]; [|congruence]. rewrite H. simpl. auto.
Qed.

Lemma createSale_needs_a_user_witness :
  fst (createSaleMutation ann_buys_soap 9000 first_call_fails)
  = Thrown (JsError "Not authenticated").
Proof.
  refine (proj1 (createSale_needs_a_user ann_buys_soap 9000 first_call_fails _)).
  right. discriminate.
Defined.

(** ** Which customer a sale is attached to *)

Lemma createSale_quiet_run (form : SaleForm) (now : Z) (w : World) (userId : uuid) :
  quiet w -> auth_user w = Some userId ->
  exists sale w',
    createSaleMutation form now w = (Returned sale, w') /\ quiet w' /\
    Sale.user_id sale = userId /\
    match filter (fun c => String.eqb (Customer.name c) (customerName form))
                 (customers (store w)) with
    | [c] =>
        customers (store w') = customers (store w) /\
        Sale.customer_id sale = Customer.id c /\
        Sale.id sale = next_id (store w)
    | _ =>
        customers (store w')
        = customers (store w)
          ++ [Customer.mk (next_id (store w)) (customerName form)
                (or_null (customerEmail form)) (or_null (customerPhone form))] /\
        Sale.customer_id sale = next_id (store w) /\
        Sale.id sale = S (next_id (store w))
    end.
Proof.
  intros Hq Hu. unfold createSaleMutation.
  unfold bind at 1. rewrite (getUser_quiet w Hq), Hu.
  set (w1 := mkWorld _ _ _).
  assert (Hq1 : quiet w1) by (apply quiet_tl; exact Hq).
  rewrite (bind_await_quiet _ _ w1 Hq1).
  set (w2 := mkWorld _ _ _).
  assert (Hq2 : quiet w2) by (apply quiet_tl; exact Hq1).
  unfold bind at 1.
  set (matches := filter (fun c => String.eqb (Customer.name c) (customerName form))
                         (customers (store w))).
  assert (Hc : exists cid w3,
    match data (fst (customers_by_name (customerName form) (store w1))) with
    | Some cid => ret cid
    | None =>
        newCustomer <- await (customers_insert (customerName form)
                                (or_null (customerEmail form))
                                (or_null (customerPhone form))) ;;
        throw_if_error newCustomer ;;;
        match data newCustomer with
        | Some cid => ret cid
        | None => throw TypeError
        end
    end w2 = (Returned cid, w3) /\ quiet w3 /\
    match matches with
    | [c] => store w3 = store w /\ cid = Customer.id c
    | _ => store w3 = snd (customers_insert (customerName form)
                             (or_null (customerEmail form))
                             (or_null (customerPhone form)) (store w)) /\
           cid = next_id (store w)
    end).
  { unfold customers_by_name at 1. cbn [fst snd store w1].
    fold matches.
    assert (Hins : exists cid w3,
      (newCustomer <- await (customers_insert (customerName form)
                               (or_null (customerEmail form))
                               (or_null (customerPhone form))) ;;
       throw_if_error newCustomer ;;;
       match data newCustomer with
       | Some cid => ret cid
       | None => throw TypeError
       end) w2 = (Returned cid, w3) /\ quiet w3 /\
      store w3 = snd (customers_insert (customerName form)
                        (or_null (customerEmail form))
                        (or_null (customerPhone form)) (store w)) /\
      cid = next_id (store w)).
    { rewrite (bind_await_quiet _ _ w2 Hq2). simpl.
      eexists; eexists; split; [reflexivity|].
      split; [apply (quiet_tl w2); exact Hq2|]. split; reflexivity. }
    destruct matches as [|c [|c' rest]]; simpl.
    - destruct Hins as (cid & w3 & H1 & H2 & H3 & H4). exists cid, w3. auto.
    - exists (Customer.id c), w2. repeat split. exact Hq2.
    - destruct Hins as (cid & w3 & H1 & H2 & H3 & H4). exists cid, w3. auto. }
  destruct Hc as (cid & w3 & -> & Hq3 & Hcase).
  rewrite (bind_await_quiet _ _ w3 Hq3).
  unfold sales_insert at 1 2; cbn [fst snd].
  set (w4 := mkWorld _ _ _).
  assert (Hq4 : quiet w4) by (apply quiet_tl; exact Hq3).
  rewrite bind_throw_if_ok. cbn [data ok].
  rewrite (bind_await_quiet _ _ w4 Hq4).
  unfold sale_items_insert at 1 2; cbn [fst snd].
  set (w5 := mkWorld _ _ _).
  assert (Hq5 : quiet w5) by (apply (quiet_tl w4); exact Hq4).
  rewrite bind_throw_if_ok.
  destruct (stock_loop_quiet now (selectedProducts form) w5 Hq5) as (w6 & Hloop & Hq6).
  unfold bind at 1. rewrite Hloop.
  eexists; eexists; split; [reflexivity|]. split; [exact Hq6|].
  split; [reflexivity|].
  apply stock_loop_returned in Hloop. rewrite Hloop.
  subst w5 w4. cbn [store with_products with_sale_items with_sales customers
                    Sale.customer_id Sale.id].
  destruct matches as [|c [|c' rest]].
  - destruct Hcase as (-> & ->). simpl. auto.
  - destruct Hcase as (-> & ->). auto.
  - destruct Hcase as (-> & ->). simpl. auto.
Qed.

(** X14.  With a signed-in user and every call going through,
    [createSaleMutation] returns a sale stamped with that user.  When
    exactly one customer carries the name typed in, the sale is attached
    to it and no customer is inserted; when none does, and also when
    several do, a new customer of that name is inserted (empty email and
    phone stored as null) and the sale is attached to the new row. *)
Theorem sale_customer_is_found_or_inserted (form : SaleForm) (now : Z) (w : World)
  (userId : uuid) :
  quiet w -> auth_user w = Some userId ->
  exists sale,
    fst (createSaleMutation form now w) = Returned sale /\
    Sale.user_id sale = userId /\
    match filter (fun c => String.eqb (Customer.name c) (customerName form))
                 (customers (store w)) with
    | [c] =>
        customers (store (snd (createSaleMutation form now w))) = customers (store w) /\
        Sale.customer_id sale = Customer.id c
    | _ =>
        customers (store (snd (createSaleMutation form now w)))
        = customers (store w)
          ++ [Customer.mk (next_id (store w)) (customerName form)
                (or_null (customerEmail form)) (or_null (customerPhone form))] /\
        Sale.customer_id sale = next_id (store w)
    end.
Proof.
  intros Hq Hu.
  destruct (createSale_quiet_run form now w userId Hq Hu)
    as (sale & w' & -> & _ & Huser & Hcase).
  exists sale. split; [reflexivity|]. split; [exact Huser|]. simpl.
  destruct (filter _ (customers (store w))) as [|c [|c' rest]]; tauto.
Qed.

Lemma sale_customer_is_found_or_inserted_witness :
  exists sale,
    fst (createSaleMutation ann_buys_soap 9000 calm_shop) = Returned sale /\
    Sale.user_id sale = 7%nat /\
    customers (store (snd (createSaleMutation ann_buys_soap 9000 calm_shop)))
    = customers shop /\
    Sale.customer_id sale = 100%nat.
Proof.
  exact (sale_customer_is_found_or_inserted ann_buys_soap 9000 calm_shop 7 eq_refl eq_refl).
Defined.

(** ** A sale and its deletion *)

Lemma number_rows_of_sale (n saleId : uuid) (cart : list CartLine) :
  filter (fun i => Nat.eqb (SaleItem.sale_id i) saleId)
         (number_rows n (saleItems saleId cart))
  = number_rows n (saleItems saleId cart).
Proof.
  revert n. induction cart as [|l rest IH]; intros n; simpl; [reflexivity|].
  rewrite Nat.eqb_refl. f_equal. apply IH.
Qed.

Lemma number_rows_units (n saleId pid : uuid) (cart : list CartLine) :
  sum_where (fun i => Nat.eqb (SaleItem.product_id i) pid) SaleItem.quantity
            (number_rows n (saleItems saleId cart))
  = cart_quantity pid cart.
Proof.
  unfold cart_quantity. revert n.
  induction cart as [|l rest IH]; intros n; simpl; [reflexivity|].
  rewrite IH. reflexivity.
Qed.

Lemma older_items_of_no_later_sale (saleId bound : uuid) (items : list SaleItem.row) :
  Forall (fun i => (SaleItem.sale_id i < bound)%nat) items ->
  (bound <= saleId)%nat ->
  filter (fun i => Nat.eqb (SaleItem.sale_id i) saleId) items = [].
Proof.
  intros Hall Hle. induction Hall as [|i rest Hi Hrest IH]; simpl; [reflexivity|].
  destruct (Nat.eqb (SaleItem.sale_id i) saleId) eqn:E; [|exact IH].
  apply Nat.eqb_eq in E. lia.
Qed.

Lemma cart_quantity_one_line (pid : uuid) (cart : list CartLine) (line : CartLine) :
  lines_of pid cart = [line] -> cart_quantity pid cart = quantity line.
Proof.
  intros H. unfold cart_quantity. rewrite <- sum_where_filter.
  fold (lines_of pid cart). rewrite H. simpl. lia.
Qed.

(** X15.  With a signed-in user and every call going through, recording
    a sale and then deleting that sale brings the stock of a product
    back to where it was: the product has one cart line, which carries
    the stock S the store holds; after the sale the stock is S - q, and
    after the deletion it is S again.  The sale items present before all
    belong to sales with earlier identifiers. *)
Theorem sale_then_deletion_restores_stock (form : SaleForm) (now later : Z)
  (w : World) (userId pid : uuid) (line : CartLine) (S0 : Z) :
  quiet w -> auth_user w = Some userId ->
  lines_of pid (selectedProducts form) = [line] ->
  stock_of pid (store w) = Some S0 ->
  Product.stock_quantity (product line) = S0 ->
  Forall (fun i => (SaleItem.sale_id i < next_id (store w))%nat)
         (sale_items (store w)) ->
  exists sale w1,
    createSaleMutation form now w = (Returned sale, w1) /\
    stock_of pid (store w1) = Some (S0 - quantity line) /\
    fst (deleteSaleMutation (Sale.id sale) later w1) = Returned tt /\
    stock_of pid (store (snd (deleteSaleMutation (Sale.id sale) later w1))) = Some S0.
Proof.
  intros Hq Hu Hline Hstock Hsnap Hold.
  destruct (createSale_quiet_run form now w userId Hq Hu)
    as (sale & w1 & Hrun & Hq1 & _ & Hcase).
  exists sale, w1. split; [exact Hrun|].
  assert (Hid : (next_id (store w) <= Sale.id sale)%nat).
  { destruct (filter _ (customers (store w))) as [|c [|c' rest]];
      destruct Hcase as (_ & _ & ->); lia. }
  apply createSale_returned in Hrun.
  destruct Hrun as (_ & _ & _ & _ & (n & Hitems) & Hp & _).
  assert (Hafter : stock_of pid (store w1) = Some (S0 - quantity line)).
  { rewrite <- Hsnap.
    rewrite <- (stock_writes_line pid now S0 (selectedProducts form) line (store w)
                  Hline Hstock).
    rewrite !stock_of_rows. simpl. rewrite Hp. reflexivity. }
  split; [exact Hafter|].
  destruct (deleteSale_quiet (Sale.id sale) later w1 Hq1) as (w2 & Hdel & Hst).
  rewrite Hdel. simpl. split; [reflexivity|].
  rewrite Hst.
  assert (Hrestored :
    stock_of pid
      (restore_store later
         (filter (fun i => Nat.eqb (SaleItem.sale_id i) (Sale.id sale))
                 (sale_items (store w1))) (store w1))
    = Some S0).
  { rewrite (restore_store_stock pid later _ (store w1) _ Hafter).
    rewrite Hitems, filter_app.
    rewrite (older_items_of_no_later_sale _ _ _ Hold Hid). simpl.
    rewrite number_rows_of_sale, number_rows_units.
    rewrite (cart_quantity_one_line pid _ line Hline). f_equal. lia. }
  rewrite <- Hrestored. rewrite !stock_of_rows. reflexivity.
Qed.

Lemma sale_then_deletion_restores_stock_witness :
  exists sale w1,
    createSaleMutation ann_buys_soap 9000 calm_shop = (Returned sale, w1) /\
    stock_of 20 (store w1) = Some (3 - quantity two_soaps) /\
    fst (deleteSaleMutation (Sale.id sale) 9500 w1) = Returned tt /\
    stock_of 20 (store (snd (deleteSaleMutation (Sale.id sale) 9500 w1))) = Some 3.
Proof.
  refine (sale_then_deletion_restores_stock ann_buys_soap 9000 9500 calm_shop 7 20
            two_soaps 3 _ _ _ _ _ _); try reflexivity.
  repeat constructor.
Defined.

(** ** Nothing is rolled back *)

(** X16.  When the insert of the sale items fails, after the user was
    read, the customer found and the sale inserted, [createSaleMutation]
    throws the store's error as it is and leaves the sale behind: the
    sales table has the new sale with its totals, the sale_items table
    has no row for it, and no stock was written. *)
Theorem createSale_items_insert_fails (form : SaleForm) (now : Z) (w : World)
  (userId : uuid) (c : Customer.row) (e : Err) (script : list (option Err)) :
  faults w = None :: None :: None :: Some e :: script ->
  auth_user w = Some userId ->
  filter (fun x => String.eqb (Customer.name x) (customerName form))
         (customers (store w)) = [c] ->
  fst (createSaleMutation form now w) = Thrown e /\
  sales (store (snd (createSaleMutation form now w)))
  = sales (store w)
    ++ [Sale.mk (next_id (store w)) (Customer.id c) userId
          (totalAmount (selectedProducts form)) (totalCost (selectedProducts form))
          (paymentStatus form) (or_null (dueDate form)) now] /\
  sale_items (store (snd (createSaleMutation form now w))) = sale_items (store w) /\
  products (store (snd (createSaleMutation form now w))) = products (store w).
Proof.
  intros Hf Hu Hc.
  unfold createSaleMutation, bind, getUser, await, next_fault.
  rewrite Hf, Hu. cbn [tl faults store auth_user].
  unfold customers_by_name. rewrite Hc. cbn [single ok data fst snd].
  unfold ret at 1. cbn [tl faults store auth_user].
  unfold sales_insert. cbn [fst snd ok error data throw_if_error ret tl faults store auth_user].
  simpl. auto.
Qed.

Lemma createSale_items_insert_fails_witness :
  fst (createSaleMutation ann_buys_soap 9000
         (mkWorld shop [None; None; None; Some PGRST116] (Some 7%nat)))
  = Thrown PGRST116 /\
  sale_items (store (snd (createSaleMutation ann_buys_soap 9000
                            (mkWorld shop [None; None; None; Some PGRST116] (Some 7%nat)))))
  = sale_items shop.
Proof.
  destruct (createSale_items_insert_fails ann_buys_soap 9000
              (mkWorld shop [None; None; None; Some PGRST116] (Some 7%nat))
              7 (Customer.mk 100 "Ann" None None) PGRST116 [] eq_refl eq_refl eq_refl)
    as (H1 & _ & H3 & _).
  split; [exact H1 | exact H3].
Defined.

(** ** Deleting a sale: edges and frame *)

Lemma with_products_same (s : Store) : with_products s (products s) = s.
Proof. destruct s; reflexivity. Qed.

Lemma delete_where_none {A} (p : A -> bool) (rows : list A) :
  filter p rows = [] -> delete_where p rows = rows.
Proof.
  unfold delete_where. induction rows as [|r rest IH]; simpl; [reflexivity|].
  destruct (p r); [discriminate|]. intros H. simpl. f_equal. exact (IH H).
Qed.

(** X17.  When every call goes through, [deleteSaleMutation] succeeds
    also for a sale identifier that no sale and no sale item carries,
    and then changes nothing. *)
Theorem deleteSale_unknown_sale (saleId : uuid) (now : Z) (w : World) :
  quiet w ->
  filter (fun i => Nat.eqb (SaleItem.sale_id i) saleId) (sale_items (store w)) = [] ->
  filter (fun x => Nat.eqb (Sale.id x) saleId) (sales (store w)) = [] ->
  fst (deleteSaleMutation saleId now w) = Returned tt /\
  store (snd (deleteSaleMutation saleId now w)) = store w.
Proof.
  intros Hq Hitems Hsales.
  destruct (deleteSale_quiet saleId now w Hq) as (w' & Hrun & Hst).
  rewrite Hrun. simpl. split; [reflexivity|].
  rewrite Hst, Hitems. simpl. unfold sales_delete. simpl.
  rewrite (delete_where_none _ _ Hsales). destruct (store w); reflexivity.
Qed.

Lemma deleteSale_unknown_sale_witness :
  fst (deleteSaleMutation 99 9000 calm_shop) = Returned tt /\
  store (snd (deleteSaleMutation 99 9000 calm_shop)) = shop.
Proof.
  exact (deleteSale_unknown_sale 99 9000 calm_shop eq_refl eq_refl eq_refl).
Defined.

Lemma deletes_only_refl (saleId : uuid) (s : Store) : deletes_only saleId s s.
Proof. unfold deletes_only. repeat split; auto. Qed.

Lemma deletes_only_trans (saleId : uuid) (s1 s2 s3 : Store) :
  deletes_only saleId s1 s2 -> deletes_only saleId s2 s3 -> deletes_only saleId s1 s3.
Proof.
  unfold deletes_only.
  intros (A1 & A2 & A3 & A4 & A5) (B1 & B2 & B3 & B4 & B5).
  repeat split; try congruence; auto.
Qed.

(** X18.  Whatever the fate of its calls, [deleteSaleMutation] writes
    nothing to customers and debtors (a debtor of the deleted sale stays
    as it is), changes nothing of a product but its stock and update
    stamp, adds no sale and removes no sale with another identifier. *)
Theorem deleteSale_touches_only_stock_and_the_sale (saleId : uuid) (now : Z) (w : World) :
  deletes_only saleId (store w) (store (snd (deleteSaleMutation saleId now w))).
Proof.
  revert w. change (every_run (deletes_only saleId) (deleteSaleMutation saleId now)).
  pose proof (deletes_only_refl saleId) as Hrefl.
  pose proof (deletes_only_trans saleId) as Htrans.
  unfold deleteSaleMutation.
  apply every_run_bind; [exact Htrans| |intros items].
  { apply every_run_await; [exact Hrefl|]. intros s. apply Hrefl. }
  apply every_run_bind; [exact Htrans| |intros _].
  { destruct (data items) as [rows|]; [|apply every_run_ret; exact Hrefl].
    apply every_run_for_of; [exact Hrefl|exact Htrans|]. intros item.
    apply every_run_bind; [exact Htrans| |intros found].
    { apply every_run_await; [exact Hrefl|]. intros s. apply Hrefl. }
    destruct (data found) as [stock|]; [|apply every_run_ret; exact Hrefl].
    apply every_run_bind; [exact Htrans| |intros _; apply every_run_ret; exact Hrefl].
    apply every_run_await; [exact Hrefl|]. intros s.
    unfold deletes_only, products_set_stock; simpl. repeat split; auto.
    apply map_update_where. reflexivity. }
  apply every_run_bind; [exact Htrans| |intros r; apply every_run_throw_if_error; exact Hrefl].
  apply every_run_await; [exact Hrefl|]. intros s.
  unfold deletes_only, sales_delete, delete_where; simpl. repeat split.
  - intros x Hx. apply filter_In in Hx. exact (proj1 Hx).
  - intros x Hx Hne. apply filter_In. split; [exact Hx|].
    apply negb_true_iff, Nat.eqb_neq. exact Hne.
Qed.

(** ** Reports when the read fails *)

(** X19.  When their read of the sales fails, the dashboard totals, the
    analysis totals and a chart point still come back, all figures
    zero, and nothing is thrown. *)
Theorem period_queries_hide_a_failed_read (start end_ : Z) (label : string)
  (w : World) (e : Err) :
  next_fault w = Some e ->
  fst (Dashboard.stats start end_ w) = Returned (Report.mkTotals 0 0 0 0) /\
  fst (Analysis.analyticsData start end_ w) = Returned (Report.mkTotals 0 0 0 0) /\
  fst (chartPoint label start end_ w) = Returned (mkPoint label 0 0 0).
Proof.
  intros Hf.
  unfold Dashboard.stats, Analysis.analyticsData, chartPoint, bind, await.
  rewrite Hf. simpl. auto.
Qed.

Lemma period_queries_hide_a_failed_read_witness :
  fst (Dashboard.stats 500 4000 first_call_fails) = Returned (Report.mkTotals 0 0 0 0).
Proof.
  exact (proj1 (period_queries_hide_a_failed_read 500 4000 "Jan 01" first_call_fails _
                  eq_refl)).
Defined.

(** ** The chart against the totals *)

Lemma closed_is_half_open_or_end (a b : Z) (x : Sale.row) :
  in_closed a b x = in_half_open a b x || at_day_end a b x.
Proof.
  unfold in_closed, in_half_open, at_day_end.
  destruct (a <=? Sale.sale_date x); simpl; [|reflexivity].
  destruct (Sale.sale_date x <=? b) eqn:E1, (Sale.sale_date x <? b) eqn:E2,
           (Sale.sale_date x =? b) eqn:E3; simpl; try reflexivity;
    rewrite ?Z.leb_le, ?Z.leb_gt, ?Z.ltb_lt, ?Z.ltb_ge, ?Z.eqb_eq, ?Z.eqb_neq in *; lia.
Qed.

Lemma half_open_excludes_end (a b : Z) (x : Sale.row) :
  at_day_end a b x = true -> in_half_open a b x = false.
Proof.
  unfold in_half_open, at_day_end.
  destruct (a <=? Sale.sale_date x); simpl; [|discriminate].
  intros H. apply Z.eqb_eq in H. apply Z.ltb_ge. lia.
Qed.

(** X20.  For the same bounds, a chart point is computed as the
    dashboard totals are, but over fewer sales: its sales and expenses
    show the sums of total_amount and total_cost over the sales dated
    from the lower bound up to, but not including, the upper bound, and
    its profit is the difference of these two figures.  A sale dated
    exactly at the upper bound is counted by the totals and left out by
    the chart point; when no sale is dated exactly there, the chart
    point carries the figures of the totals. *)
Theorem chart_day_leaves_out_its_last_instant (label : string) (dayStart dayEnd : Z)
  (w : World) :
  next_fault w = None ->
  let rows := sales (store w) in
  exists point totals,
    fst (chartPoint label dayStart dayEnd w) = Returned point /\
    fst (Dashboard.stats dayStart dayEnd w) = Returned totals /\
    shows (chart_sales point)
          (fsum_where (in_half_open dayStart dayEnd) Sale.total_amount rows) /\
    shows (chart_expenses point)
          (fsum_where (in_half_open dayStart dayEnd) Sale.total_cost rows) /\
    chart_profit point = (chart_sales point - chart_expenses point)%float /\
    shows (Report.totalRevenue totals)
          (fsum_where (in_closed dayStart dayEnd) Sale.total_amount rows) /\
    shows (Report.totalCost totals)
          (fsum_where (in_closed dayStart dayEnd) Sale.total_cost rows) /\
    (forall x, at_day_end dayStart dayEnd x = true ->
               in_closed dayStart dayEnd x = true /\
               in_half_open dayStart dayEnd x = false) /\
    ((forall x, In x rows -> at_day_end dayStart dayEnd x = false) ->
     chart_sales point = Report.totalRevenue totals /\
     chart_expenses point = Report.totalCost totals /\
     chart_profit point = Report.totalProfit totals).
Proof.
  intros Hf rows.
  unfold chartPoint, Dashboard.stats, bind, await. rewrite Hf.
  unfold sales_in_day, sales_in_period, ret.
  cbn [fst snd data ok option_map].
  change (fun x : Sale.row => (dayStart <=? Sale.sale_date x) && (Sale.sale_date x <=? dayEnd))
    with (in_closed dayStart dayEnd).
  change (fun x : Sale.row => (dayStart <=? Sale.sale_date x) && (Sale.sale_date x <? dayEnd))
    with (in_half_open dayStart dayEnd).
  fold rows.
  eexists; eexists. split; [reflexivity|]. split; [reflexivity|].
  cbn [chart_sales chart_expenses chart_profit].
  unfold sum_total_amount, sum_total_cost. rewrite !reduce_filter_fsum.
  split; [apply or_zero_shows|]. split; [apply or_zero_shows|].
  split; [reflexivity|].
  rewrite metrics_sums.
  cbn [Report.totalRevenue Report.totalCost Report.totalProfit].
  split; [apply or_zero_shows|]. split; [apply or_zero_shows|].
  split.
  - intros x Hend. split; [|apply half_open_excludes_end; exact Hend].
    rewrite closed_is_half_open_or_end, Hend. apply orb_true_r.
  - intros Hnone.
    assert (Hsame : forall f,
      fsum_where (in_half_open dayStart dayEnd) f rows
      = fsum_where (in_closed dayStart dayEnd) f rows).
    { intros f. apply fsum_from_ext; [|reflexivity].
      intros x Hx. rewrite closed_is_half_open_or_end, (Hnone x Hx).
      symmetry. apply orb_false_r. }
    rewrite !Hsame. repeat split.
Qed.

Lemma chart_day_leaves_out_its_last_instant_witness :
  exists point totals,
    fst (chartPoint "Jan 01" 500 4000 calm_shop) = Returned point /\
    fst (Dashboard.stats 500 4000 calm_shop) = Returned totals /\
    shows (chart_sales point) 70%float /\
    shows (Report.totalRevenue totals) (30 + 70)%float.
Proof.
  destruct (chart_day_leaves_out_its_last_instant "Jan 01" 500 4000 calm_shop eq_refl)
    as (point & totals & Hp & Ht & Hs & _ & _ & Hr & _).
  exists point, totals. repeat split; assumption.
Defined.

(** ** Grouping the items sold *)

Lemma map_get_set (k k' : string) (v : Figures.t) (m : JsMap) :
  map_get k (map_set k' v m) = if String.eqb k' k then Some v else map_get k m.
Proof.
  unfold map_get. induction m as [|e rest IH]; simpl.
  - destruct (String.eqb k' k); reflexivity.
  - destruct (String.eqb (fst e) k') eqn:E1; simpl.
    + apply String.eqb_eq in E1. rewrite E1.
      destruct (String.eqb k' k); reflexivity.
    + destruct (String.eqb (fst e) k) eqn:E2; simpl; [|exact IH].
      apply String.eqb_eq in E2. rewrite <- E2.
      rewrite String.eqb_sym, E1. reflexivity.
Qed.

Lemma map_get_In (k : string) (g : Figures.t) (m : JsMap) :
  NoDup (map fst m) -> (In (k, g) m <-> map_get k m = Some g).
Proof.
  unfold map_get. induction m as [|e rest IH]; simpl.
  - intros _. split; [contradiction|discriminate].
  - intros Hnodup. inversion Hnodup as [|x xs Hnotin Hrest]; subst.
    destruct (String.eqb (fst e) k) eqn:E; simpl.
    + apply String.eqb_eq in E. split.
      * intros [He|Hin]; [subst e; reflexivity|].
        exfalso. apply Hnotin. rewrite E. apply in_map_iff. exists (k, g). auto.
      * intros H. injection H as Hg. left. destruct e; simpl in *. congruence.
    + rewrite <- (IH Hrest). split; [|tauto].
      intros [He|Hin]; [|exact Hin].
      subst e. simpl in E. rewrite String.eqb_refl in E. discriminate.
Qed.

Lemma map_get_None (k : string) (m : JsMap) :
  map_get k m = None <-> ~ In k (map fst m).
Proof.
  unfold map_get. induction m as [|e rest IH]; simpl; [tauto|].
  destruct (String.eqb (fst e) k) eqn:E; simpl.
  - apply String.eqb_eq in E. split; [discriminate|]. intros H. exfalso. auto.
  - apply String.eqb_neq in E. rewrite IH. tauto.
Qed.

Lemma map_set_keys (k : string) (v : Figures.t) (m : JsMap) :
  map fst (map_set k v m)
  = if existsb (fun e => String.eqb (fst e) k) m then map fst m else map fst m ++ [k].
Proof.
  induction m as [|e rest IH]; simpl; [reflexivity|].
  destruct (String.eqb (fst e) k) eqn:E; simpl.
  - apply String.eqb_eq in E. rewrite E. reflexivity.
  - rewrite IH. destruct (existsb _ rest); reflexivity.
Qed.

Lemma map_set_NoDup (k : string) (v : Figures.t) (m : JsMap) :
  NoDup (map fst m) -> NoDup (map fst (map_set k v m)).
Proof.
  intros Hnodup. rewrite map_set_keys.
  destruct (existsb (fun e => String.eqb (fst e) k) m) eqn:Ex; [exact Hnodup|].
  apply Permutation_NoDup with (l := k :: map fst m).
  - apply Permutation_cons_append.
  - constructor; [|exact Hnodup].
    intros Hin. apply in_map_iff in Hin. destruct Hin as (e & He & Hin).
    assert (existsb (fun e => String.eqb (fst e) k) m = true).
    { apply existsb_exists. exists e. split; [exact Hin|].
      apply String.eqb_eq. exact He. }
    congruence.
Qed.

Lemma tally_is_add_item (key : Perf.row -> string) (m : JsMap) (item : Perf.row) :
  tally key m item
  = map_set (key item)
      (add_item (match map_get (key item) m with
                 | Some c => c
                 | None => Figures.mk 0 0 0 0
                 end) item) m.
Proof. reflexivity. Qed.

Lemma group_by_NoDup (key : Perf.row -> string) (rows : list Perf.row) (m : JsMap) :
  NoDup (map fst m) -> NoDup (map fst (fold_left (tally key) rows m)).
Proof.
  revert m. induction rows as [|item rest IH]; intros m Hm; simpl; [exact Hm|].
  apply IH. rewrite tally_is_add_item. apply map_set_NoDup. exact Hm.
Qed.

Lemma fold_add_item (rows : list Perf.row) (c : Figures.t) :
  fold_left add_item rows c
  = Figures.mk
      (fsum_from everything item_revenue (Figures.revenue c) rows)
      (fsum_from everything item_cost (Figures.cost c) rows)
      (fsum_from everything item_profit (Figures.profit c) rows)
      (Figures.quantity c + sum_where everything Perf.quantity rows).
Proof.
  revert c. induction rows as [|item rest IH]; intros c; simpl.
  - destruct c; simpl. f_equal; lia.
  - rewrite IH. unfold add_item; simpl. f_equal; lia.
Qed.

Lemma group_by_lookup (key : Perf.row -> string) (k : string)
  (rows : list Perf.row) (m : JsMap) :
  map_get k (fold_left (tally key) rows m)
  = match filter (fun i => String.eqb (key i) k) rows with
    | [] => map_get k m
    | mine =>
        Some (fold_left add_item mine
                (match map_get k m with
                 | Some c => c
                 | None => Figures.mk 0 0 0 0
                 end))
    end.
Proof.
  revert m. induction rows as [|item rest IH]; intros m; simpl; [reflexivity|].
  rewrite IH, tally_is_add_item, map_get_set.
  destruct (String.eqb (key item) k) eqn:E.
  - apply String.eqb_eq in E. rewrite E.
    destruct (filter (fun i => String.eqb (key i) k) rest); reflexivity.
  - reflexivity.
Qed.

Lemma group_by_entry (key : Perf.row -> string) (rows : list Perf.row)
  (k : string) (g : Figures.t) :
  In (k, g) (group_by key (Some rows))
  <-> (exists i, In i rows /\ key i = k) /\ g = group_figures key k rows.
Proof.
  unfold group_by.
  rewrite map_get_In by (apply group_by_NoDup; constructor).
  rewrite group_by_lookup. simpl map_get.
  unfold group_figures, fsum_where.
  rewrite <- (fsum_from_filter (fun i => String.eqb (key i) k) item_revenue rows).
  rewrite <- (fsum_from_filter (fun i => String.eqb (key i) k) item_cost rows).
  rewrite <- (fsum_from_filter (fun i => String.eqb (key i) k) item_profit rows).
  rewrite <- (sum_where_filter (fun i => String.eqb (key i) k) Perf.quantity rows).
  destruct (filter (fun i => String.eqb (key i) k) rows) as [|i0 mine] eqn:Ef.
  - split; [discriminate|]. intros ((i & Hin & Hk) & _).
    assert (Hi : In i (filter (fun i => String.eqb (key i) k) rows)).
    { apply filter_In. split; [exact Hin|]. apply String.eqb_eq. exact Hk. }
    rewrite Ef in Hi. contradiction.
  - rewrite fold_add_item. cbn [Figures.revenue Figures.cost Figures.profit Figures.quantity].
    assert (Hex : exists i, In i rows /\ key i = k).
    { exists i0.
      assert (Hi : In i0 (filter (fun i => String.eqb (key i) k) rows))
        by (rewrite Ef; left; reflexivity).
      apply filter_In in Hi. destruct Hi as (Hin & Hk).
      apply String.eqb_eq in Hk. auto. }
    split.
    + intros H. injection H as Hg. split; [exact Hex|].
      rewrite <- Hg. reflexivity.
    + intros (_ & ->). reflexivity.
Qed.

(** X21.  The breakdown by category has one entry per category that
    occurs among the items (items without product or category under
    "Uncategorized"), and the breakdown by product one entry per product
    name ("Unknown" for items without product or name).  The quantity of
    an entry is the sum of quantity over the items of its group; its
    revenue, its cost and its profit are the sums over those items of
    quantity times unit price, of quantity times unit cost and of the
    difference of the two, each product, difference and sum rounded to
    double precision and the items taken in the order they were read.
    With no items, and on null data, both are empty. *)
Theorem breakdown_groups_are_sums (rows : list Perf.row) :
  NoDup (map fst (categoryData (Some rows))) /\
  (forall k g, In (k, g) (categoryData (Some rows))
               <-> (exists i, In i rows /\ category_of i = k) /\
                   g = group_figures category_of k rows) /\
  NoDup (map fst (group_by product_name_of (Some rows))) /\
  (forall k g, In (k, g) (group_by product_name_of (Some rows))
               <-> (exists i, In i rows /\ product_name_of i = k) /\
                   g = group_figures product_name_of k rows) /\
  categoryData (Some []) = [] /\ categoryData None = [] /\
  topProducts (Some []) = [] /\ topProducts None = [].
Proof.
  split; [apply group_by_NoDup; constructor|].
  split; [intros k g; apply group_by_entry|].
  split; [apply group_by_NoDup; constructor|].
  split; [intros k g; apply group_by_entry|].
  repeat split.
Qed.

Lemma sum_figure_set (f : Figures.t -> Z) (k : string) (v : Figures.t) (m : JsMap) :
  sum_figure f (map_set k v m)
  = sum_figure f m
    - (match map_get k m with Some c => f c | None => 0 end) + f v.
Proof.
  unfold sum_figure, map_get. induction m as [|e rest IH]; simpl; [lia|].
  destruct (String.eqb (fst e) k); simpl; [lia|]. rewrite IH. lia.
Qed.

Lemma sum_figure_group_by (f : Figures.t -> Z) (h : Perf.row -> Z)
  (key : Perf.row -> string) (rows : list Perf.row) (m : JsMap) :
  (forall c i, f (add_item c i) = f c + h i) ->
  f (Figures.mk 0 0 0 0) = 0 ->
  sum_figure f (fold_left (tally key) rows m)
  = sum_figure f m + sum_where everything h rows.
Proof.
  intros Hadd Hzero. revert m.
  induction rows as [|item rest IH]; intros m; simpl; [lia|].
  rewrite IH, tally_is_add_item, sum_figure_set, Hadd.
  destruct (map_get (key item) m); [lia|]. rewrite Hzero. lia.
Qed.

Lemma group_by_quantities (key : Perf.row -> string) (rows : list Perf.row) :
  sum_figure Figures.quantity (group_by key (Some rows)) = totalQuantitySold (Some rows).
Proof.
  unfold group_by, totalQuantitySold. simpl option_map.
  rewrite int_or_zero_Some, reduce_sum.
  rewrite (sum_figure_group_by Figures.quantity Perf.quantity) by reflexivity.
  reflexivity.
Qed.

(** X22.  Grouping loses no unit and counts none twice: the quantities
    of the categories add up to the total quantity sold that the page
    reports, and so do the quantities of the products. *)
Theorem breakdown_quantities_add_up (rows : list Perf.row) :
  sum_figure Figures.quantity (categoryData (Some rows)) = totalQuantitySold (Some rows) /\
  sum_figure Figures.quantity (group_by product_name_of (Some rows))
  = totalQuantitySold (Some rows).
Proof. split; apply group_by_quantities. Qed.

(** ** The most profitable products *)

Lemma insert_by_profit_perm (x : string * Figures.t) (l : JsMap) :
  Permutation (insert_by_profit x l) (x :: l).
Proof.
  induction l as [|y rest IH]; simpl; [reflexivity|].
  destruct (sorts_after x y); [|reflexivity].
  rewrite IH. apply perm_swap.
Qed.

Lemma sort_by_profit_perm (l : JsMap) : Permutation (sort_by_profit l) l.
Proof.
  induction l as [|x rest IH]; simpl; [reflexivity|].
  rewrite insert_by_profit_perm. constructor. exact IH.
Qed.

(** The comparator sends [a] behind [b] exactly when the profit of [a]
    is less than the profit of [b]. *)
Lemma sorts_after_less (a b : string * Figures.t) :
  sorts_after a b = (Figures.profit (snd a) <? Figures.profit (snd b))%float.
Proof. unfold sorts_after, compare_profit. apply sub_positive. Qed.

Lemma insert_by_profit_sorted (x : string * Figures.t) (l : JsMap) :
  profits_are_numbers (x :: l) ->
  StronglySorted by_profit l -> StronglySorted by_profit (insert_by_profit x l).
Proof.
  unfold profits_are_numbers. intros Hn Hs.
  inversion Hn as [|x' l' Hx Hl]; subst. clear Hn.
  induction Hs as [|y rest Hrest IH Hy]; simpl.
  - constructor; constructor.
  - inversion Hl as [|y' rest' Hyn Hrn]; subst.
    rewrite sorts_after_less.
    destruct (Figures.profit (snd x) <? Figures.profit (snd y))%float eqn:E.
    + constructor; [exact (IH Hrn)|].
      apply Forall_forall. intros z Hz.
      apply (Permutation_in _ (insert_by_profit_perm x rest)) in Hz.
      destruct Hz as [<-|Hz]; [|exact (proj1 (Forall_forall _ _) Hy z Hz)].
      unfold by_profit. rewrite leb_not_ltb by assumption.
      rewrite (ltb_asym _ _ E). reflexivity.
    + constructor; [constructor; assumption|].
      constructor; [unfold by_profit; rewrite leb_not_ltb, E by assumption; reflexivity|].
      apply Forall_forall. intros z Hz.
      pose proof (proj1 (Forall_forall _ _) Hy z Hz) as Hyz.
      pose proof (proj1 (Forall_forall _ _) Hrn z Hz) as Hzn.
      unfold by_profit in *. rewrite leb_not_ltb in Hyz by assumption.
      apply negb_true_iff in Hyz.
      rewrite leb_not_ltb by assumption.
      rewrite (ltb_neg_trans _ _ _ Hyn E Hyz). reflexivity.
Qed.

Lemma sort_by_profit_sorted (l : JsMap) :
  profits_are_numbers l -> StronglySorted by_profit (sort_by_profit l).
Proof.
  unfold profits_are_numbers.
  induction l as [|x rest IH]; intros Hn; simpl; [constructor|].
  inversion Hn as [|x' l' Hx Hl]; subst.
  apply insert_by_profit_sorted; [|exact (IH Hl)].
  constructor; [exact Hx|].
  apply Forall_forall. intros z Hz.
  apply (Permutation_in _ (sort_by_profit_perm rest)) in Hz.
  exact (proj1 (Forall_forall _ _) Hl z Hz).
Qed.

Lemma sorted_firstn_above_skipn (n : nat) (l : JsMap) (a b : string * Figures.t) :
  StronglySorted by_profit l ->
  In a (firstn n l) -> In b (skipn n l) -> by_profit a b.
Proof.
  revert l. induction n as [|n IH]; intros l Hs Ha Hb; simpl in *; [contradiction|].
  destruct l as [|x rest]; simpl in *; [contradiction|].
  inversion Hs as [|y ys Hrest Hx]; subst.
  destruct Ha as [<-|Ha].
  - apply (proj1 (Forall_forall _ _) Hx).
    rewrite <- (firstn_skipn n rest). apply in_or_app. right. exact Hb.
  - exact (IH rest Hrest Ha Hb).
Qed.

Lemma sorted_firstn (n : nat) (l : JsMap) :
  StronglySorted by_profit l -> StronglySorted by_profit (firstn n l).
Proof.
  revert l. induction n as [|n IH]; intros l Hs; simpl; [constructor|].
  destruct l as [|x rest]; [constructor|].
  inversion Hs as [|y ys Hrest Hx]; subst.
  constructor; [apply IH; exact Hrest|].
  apply Forall_forall. intros z Hz.
  apply (proj1 (Forall_forall _ _) Hx).
  rewrite <- (firstn_skipn n rest). apply in_or_app. left. exact Hz.
Qed.

(** X23.  The top products are at most ten entries of the breakdown by
    product; together with the entries left out they make up the whole
    breakdown, and nothing is left out when there are at most ten
    products.  When every profit in the breakdown is a number, they are
    listed with the greater profit first, and no entry left out has a
    greater profit than a listed one. *)
Theorem top_products_are_the_most_profitable (pp : option (list Perf.row)) :
  (List.length (topProducts pp) <= 10)%nat /\
  exists rest,
    Permutation (topProducts pp ++ rest) (group_by product_name_of pp) /\
    ((List.length (group_by product_name_of pp) <= 10)%nat -> rest = []) /\
    (profits_are_numbers (group_by product_name_of pp) ->
     StronglySorted by_profit (topProducts pp) /\
     (forall a b, In a (topProducts pp) -> In b rest -> by_profit a b)).
Proof.
  unfold topProducts.
  set (sorted := sort_by_profit (group_by product_name_of pp)).
  assert (Hp : Permutation sorted (group_by product_name_of pp))
    by apply sort_by_profit_perm.
  split; [apply firstn_le_length|].
  exists (skipn 10 sorted). split; [|split].
  - rewrite firstn_skipn. exact Hp.
  - intros Hlen. apply skipn_all2.
    rewrite (Permutation_length Hp). exact Hlen.
  - intros Hn.
    assert (Hs : StronglySorted by_profit sorted)
      by (apply sort_by_profit_sorted; exact Hn).
    split; [apply sorted_firstn; exact Hs|].
    intros a b. apply sorted_firstn_above_skipn. exact Hs.
Qed.

Lemma top_products_are_the_most_profitable_witness :
  profits_are_numbers (group_by product_name_of (Some items_sold)) /\
  topProducts (Some items_sold)
  = [("Rice", Figures.mk 45 24 21 3); ("Soap", Figures.mk 44.5 30 14.5 3)] /\
  StronglySorted by_profit (topProducts (Some items_sold)).
Proof.
  assert (Hn : profits_are_numbers (group_by product_name_of (Some items_sold)))
    by (repeat constructor).
  split; [exact Hn|]. split; [reflexivity|].
  destruct (top_products_are_the_most_profitable (Some items_sold))
    as (_ & rest & _ & _ & Hsorted).
  exact (proj1 (Hsorted Hn)).
Defined.

(** Where a profit is not a number the order is lost.  Ten units at a
    price and at a cost of 1e308 overflow to a profit that is not a
    number; the comparator sends it behind nothing and nothing behind
    it, so soap, with a profit of 1, stays in front of it and salt, with
    a profit of 2, stays behind it. *)
Lemma a_profit_that_is_no_number_breaks_the_order :
  map fst (topProducts (Some items_that_overflow)) = ["Soap"; "Rice"; "Salt"] /\
  map (fun e => Figures.profit (snd e)) (topProducts (Some items_that_overflow))
  = [1; nan; 2]%float /\
  ~ profits_are_numbers (group_by product_name_of (Some items_that_overflow)) /\
  ~ StronglySorted by_profit (topProducts (Some items_that_overflow)).
Proof.
  split; [reflexivity|]. split; [reflexivity|]. split.
  - intros Hn. inversion Hn as [|x rest _ Hrest]; subst.
    inversion Hrest as [|y rest' Hrice _]; subst. discriminate Hrice.
  - intros Hs. inversion Hs as [|x rest _ Hfirst]; subst.
    inversion Hfirst as [|y rest' Hrice _]; subst.
    discriminate Hrice.
Qed.

(** ** Recording a sale keeps sales and items matched *)

Lemma tidy_shop_matches : sales_match_items tidy_shop.
Proof.
  unfold sales_match_items, tidy_shop; simpl.
  split; [|split; [|split]].
  - constructor; [intros [H|[]]; discriminate H|].
    constructor; [intros []|constructor].
  - repeat constructor.
  - repeat constructor.
  - constructor; [split; reflexivity|]. constructor; [split; reflexivity|constructor].
Defined.

Lemma customer_step_ids (form : SaleForm) (existing : response uuid)
  (w w' : World) (cid : uuid) :
  match data existing with
  | Some cid => ret cid
  | None =>
      newCustomer <- await (customers_insert (customerName form)
                              (or_null (customerEmail form))
                              (or_null (customerPhone form))) ;;
      throw_if_error newCustomer ;;;
      match data newCustomer with
      | Some cid => ret cid
      | None => throw TypeError
      end
  end w = (Returned cid, w') ->
  (next_id (store w) <= next_id (store w'))%nat.
Proof.
  destruct (data existing) as [c|].
  - intros H; inversion H; subst. lia.
  - intros H. apply bind_returned in H. destruct H as (r & w1 & Ha & H).
    apply await_run in Ha. destruct Ha as (r1 & E & Hcase).
    inversion E; subst r1; clear E.
    apply bind_returned in H. destruct H as ([] & w2 & Ht & H).
    unfold throw_if_error in Ht. destruct (error r) eqn:Er; [discriminate|].
    inversion Ht; subst w2.
    destruct (data r); [|discriminate]. inversion H; subst w1.
    destruct Hcase as [(e & -> & _)|Hq]; [discriminate|].
    unfold customers_insert in Hq. injection Hq as _ Hs. rewrite <- Hs.
    simpl. lia.
Qed.

Lemma createSale_returned_ids (form : SaleForm) (now : Z) (w w' : World) (sale : Sale.row) :
  createSaleMutation form now w = (Returned sale, w') ->
  (next_id (store w) <= Sale.id sale)%nat /\
  (Sale.id sale < next_id (store w'))%nat.
Proof.
  unfold createSaleMutation. intros H.
  apply bind_returned in H. destruct H as (user & w1 & Hu & H).
  apply getUser_run in Hu.
  destruct user as [userId|]; [|discriminate].
  apply bind_returned in H. destruct H as (existing & w2 & Hex & H).
  apply await_run in Hex. destruct Hex as (r & E & Hex).
  inversion E; subst r; clear E.
  assert (Hs2 : store w2 = store w).
  { rewrite <- Hu. destruct Hex as [(e & _ & Hs)|Hq]; [exact Hs|].
    unfold customers_by_name in Hq. injection Hq as _ Hs. symmetry. exact Hs. }
  clear Hex Hu w1.
  apply bind_returned in H. destruct H as (cid & w3 & Hc & H).
  apply customer_step_ids in Hc. rewrite Hs2 in Hc.
  apply bind_returned in H. destruct H as (rs & w4 & Hins & H).
  apply await_run in Hins. destruct Hins as (r & E & Hins).
  inversion E; subst r; clear E.
  apply bind_returned in H. destruct H as ([] & w5 & Ht & H).
  unfold throw_if_error in Ht. destruct (error rs) eqn:Er; [discriminate|].
  inversion Ht; subst w5; clear Ht.
  destruct Hins as [(e & -> & _)|Hq]; [discriminate|].
  unfold sales_insert in Hq. injection Hq as Hrs Hs4. subst rs. simpl in H.
  set (row := Sale.mk _ _ _ _ _ _ _ _) in *.
  apply bind_returned in H. destruct H as (ri & w5 & Hitems & H).
  apply await_run in Hitems. destruct Hitems as (r & E & Hitems).
  inversion E; subst r; clear E.
  apply bind_returned in H. destruct H as ([] & w6 & Ht & H).
  unfold throw_if_error in Ht. destruct (error ri) eqn:Eri; [discriminate|].
  inversion Ht; subst w6; clear Ht.
  destruct Hitems as [(e & -> & _)|Hq]; [discriminate|].
  unfold sale_items_insert in Hq. injection Hq as _ Hs5.
  apply bind_returned in H. destruct H as ([] & w6 & Hloop & H).
  inversion H; subst sale w6; clear H.
  apply stock_loop_returned in Hloop.
  rewrite Hloop, <- Hs5, <- Hs4. simpl. lia.
Qed.

Lemma items_of_cart (f : SaleItem.row -> float) (g : CartLine -> float) (n sid : uuid)
  (cart : list CartLine) (acc : float) :
  (forall m l, f (SaleItem.mk m sid (Product.id (product l)) (quantity l)
                              (sellingPrice l) (Product.cost (product l))) = g l) ->
  fsum_from (fun i => Nat.eqb (SaleItem.sale_id i) sid) f acc
            (number_rows n (saleItems sid cart))
  = fsum_from everything g acc cart.
Proof.
  intros Hfg. revert n acc.
  induction cart as [|l rest IH]; intros n acc; simpl; [reflexivity|].
  rewrite Nat.eqb_refl, Hfg. apply IH.
Qed.

Lemma items_of_other_sale (n sid other : uuid) (cart : list CartLine) :
  other <> sid ->
  filter (fun i => Nat.eqb (SaleItem.sale_id i) other)
         (number_rows n (saleItems sid cart)) = [].
Proof.
  intros Hne. revert n. induction cart as [|l rest IH]; intros n; simpl; [reflexivity|].
  destruct (Nat.eqb sid other) eqn:E; [|apply IH].
  apply Nat.eqb_eq in E. congruence.
Qed.

(** X25.  In a store where every sale has its own identifier and carries
    the totals of its items, a [createSaleMutation] that returns a sale
    leaves a store of the same kind: the new sale has an identifier of
    its own, and its totals are what its new items add up to, unit price
    times quantity and unit cost times quantity, in double precision and
    in the order of the items. *)
Theorem recorded_sale_matches_its_items (form : SaleForm) (now : Z) (w w' : World)
  (sale : Sale.row) :
  sales_match_items (store w) ->
  createSaleMutation form now w = (Returned sale, w') ->
  sales_match_items (store w').
Proof.
  intros (Hnodup & Hsales & Hitems & Hheads) Hrun.
  destruct (createSale_returned_ids form now w w' sale Hrun) as (Hlo & Hhi).
  apply createSale_returned in Hrun.
  destruct Hrun as (Ha & Hc & _ & Hs & (n & Hi) & _ & _).
  unfold sales_match_items, items_total, fsum_where. rewrite Hs, Hi.
  split; [|split; [|split]].
  - rewrite map_app. simpl.
    apply Permutation_NoDup with (l := Sale.id sale :: map Sale.id (sales (store w))).
    + apply Permutation_cons_append.
    + constructor; [|exact Hnodup].
      intros Hin. apply in_map_iff in Hin. destruct Hin as (x & Hx & Hin).
      pose proof (proj1 (Forall_forall _ _) Hsales x Hin) as Hlt. simpl in Hlt. lia.
  - apply Forall_app. split.
    + apply (Forall_impl _ (P := fun x => (Sale.id x < next_id (store w))%nat));
        [intros x Hx; lia | exact Hsales].
    + constructor; [exact Hhi|constructor].
  - apply Forall_app. split.
    + apply (Forall_impl _ (P := fun i => (SaleItem.sale_id i < next_id (store w))%nat));
        [intros i Hx; lia | exact Hitems].
    + apply Forall_forall. intros i Hin.
      assert (Hsid : In i (filter (fun i => Nat.eqb (SaleItem.sale_id i) (Sale.id sale))
                             (number_rows n (saleItems (Sale.id sale)
                                               (selectedProducts form)))))
        by (rewrite number_rows_of_sale; exact Hin).
      apply filter_In in Hsid. destruct Hsid as (_ & Hsid).
      apply Nat.eqb_eq in Hsid. rewrite Hsid. exact Hhi.
  - apply Forall_app. split.
    + apply Forall_forall. intros x Hx.
      pose proof (proj1 (Forall_forall _ _) Hsales x Hx) as Hlt. simpl in Hlt.
      pose proof (proj1 (Forall_forall _ _) Hheads x Hx) as (Hxa & Hxc).
      unfold items_total, fsum_where in Hxa, Hxc.
      rewrite !fsum_from_app.
      rewrite !(fsum_from_none (fun i => Nat.eqb (SaleItem.sale_id i) (Sale.id x)) _
                  (number_rows n (saleItems (Sale.id sale) (selectedProducts form))))
        by (apply items_of_other_sale; lia).
      split; assumption.
    + constructor; [|constructor]. rewrite !fsum_from_app.
      rewrite !(fsum_from_none (fun i => Nat.eqb (SaleItem.sale_id i) (Sale.id sale)) _
                  (sale_items (store w)))
        by (apply (older_items_of_no_later_sale _ (next_id (store w))); assumption).
      rewrite (items_of_cart _ (fun l => sellingPrice l * float_of_Z (quantity l))%float)
        by reflexivity.
      rewrite (items_of_cart _
                 (fun l => Product.cost (product l) * float_of_Z (quantity l))%float)
        by reflexivity.
      rewrite Ha, Hc. unfold totalAmount, totalCost. rewrite !reduce_fsum.
      split; reflexivity.
Qed.

Lemma recorded_sale_matches_its_items_witness :
  sales_match_items
    (store (snd (createSaleMutation ann_buys_cheap_soap 9000
                   (mkWorld tidy_shop [] (Some 7%nat))))).
Proof.
  apply (recorded_sale_matches_its_items ann_buys_cheap_soap 9000
           (mkWorld tidy_shop [] (Some 7%nat)) _
           (Sale.mk 40 100 7 0.30000000000000004 30 paid None 9000) tidy_shop_matches).
  reflexivity.
Defined.

(** ** Properties of the tables that the operations keep *)

Lemma keeps_refl (P : Store -> Prop) (s : Store) : keeps P s s.
Proof. unfold keeps. auto. Qed.

Lemma keeps_trans (P : Store -> Prop) (s1 s2 s3 : Store) :
  keeps P s1 s2 -> keeps P s2 s3 -> keeps P s1 s3.
Proof. unfold keeps. auto. Qed.

Lemma Forall_update_where {A} (P : A -> Prop) (p : A -> bool) (f : A -> A)
  (rows : list A) :
  (forall r, P r -> P (f r)) ->
  Forall P rows -> Forall P (update_where p f rows).
Proof.
  intros Hf Hall. unfold update_where. apply Forall_map.
  apply Forall_forall. intros r Hr.
  pose proof (proj1 (Forall_forall _ _) Hall r Hr) as HP.
  destruct (p r); [apply Hf; exact HP | exact HP].
Qed.

Lemma Forall_filter {A} (P : A -> Prop) (keep : A -> bool) (rows : list A) :
  Forall P rows -> Forall P (filter keep rows).
Proof.
  intros Hall. apply Forall_forall. intros r Hr. apply filter_In in Hr.
  exact (proj1 (Forall_forall _ _) Hall r (proj1 Hr)).
Qed.

Lemma paid_sale_keeps_match (sid : uuid) (s : Store) :
  keeps sales_match_items s (snd (sales_set_paid sid s)).
Proof.
  unfold keeps, sales_match_items, sales_set_paid, items_total; simpl.
  intros (Hnodup & Hsales & Hitems & Hheads).
  split; [|split; [|split]].
  - rewrite map_update_where by reflexivity. exact Hnodup.
  - apply Forall_update_where; [|exact Hsales]. intros r Hr. exact Hr.
  - exact Hitems.
  - apply Forall_update_where; [|exact Hheads]. intros r Hr. exact Hr.
Qed.

Lemma deleted_sale_keeps_match (sid : uuid) (s : Store) :
  keeps sales_match_items s (snd (sales_delete sid s)).
Proof.
  unfold keeps, sales_match_items, sales_delete, delete_where, items_total; simpl.
  intros (Hnodup & Hsales & Hitems & Hheads).
  split; [|split; [|split]].
  - apply NoDup_map_filter. exact Hnodup.
  - apply Forall_filter. exact Hsales.
  - exact Hitems.
  - apply Forall_filter. exact Hheads.
Qed.

(** X26.  Marking a debt as paid and deleting a sale keep sales and items
    matched, whatever the fate of their calls: in a store where every
    sale has its own identifier and carries the totals of its items,
    they leave such a store. *)
Theorem paying_and_deleting_keep_sales_matched (now : Z) (id_ : uuid) (w : World) :
  sales_match_items (store w) ->
  sales_match_items (store (snd (markAsPaidMutation now id_ w))) /\
  sales_match_items (store (snd (deleteSaleMutation id_ now w))).
Proof.
  pose proof (keeps_refl sales_match_items) as Hrefl.
  pose proof (keeps_trans sales_match_items) as Htrans.
  assert (Hpaid : every_run (keeps sales_match_items) (markAsPaidMutation now id_)).
  { unfold markAsPaidMutation.
    apply every_run_bind; [exact Htrans| |intros r].
    { apply every_run_await; [exact Hrefl|]. intros s H. exact H. }
    apply every_run_bind; [exact Htrans|apply every_run_throw_if_error; exact Hrefl|].
    intros _.
    apply every_run_bind; [exact Htrans| |intros debtor].
    { apply every_run_await; [exact Hrefl|]. intros s. apply Hrefl. }
    destruct (data debtor) as [sid|]; [|apply every_run_ret; exact Hrefl].
    apply every_run_bind;
      [exact Htrans| |intros r'; apply every_run_throw_if_error; exact Hrefl].
    apply every_run_await; [exact Hrefl|]. intros s. apply paid_sale_keeps_match. }
  assert (Hdel : every_run (keeps sales_match_items) (deleteSaleMutation id_ now)).
  { unfold deleteSaleMutation.
    apply every_run_bind; [exact Htrans| |intros items].
    { apply every_run_await; [exact Hrefl|]. intros s. apply Hrefl. }
    apply every_run_bind; [exact Htrans| |intros _].
    { destruct (data items) as [rows|]; [|apply every_run_ret; exact Hrefl].
      apply every_run_for_of; [exact Hrefl|exact Htrans|]. intros item.
      apply every_run_bind; [exact Htrans| |intros found].
      { apply every_run_await; [exact Hrefl|]. intros s. apply Hrefl. }
      destruct (data found) as [stock|]; [|apply every_run_ret; exact Hrefl].
      apply every_run_bind; [exact Htrans| |intros _; apply every_run_ret; exact Hrefl].
      apply every_run_await; [exact Hrefl|]. intros s H. exact H. }
    apply every_run_bind;
      [exact Htrans| |intros r; apply every_run_throw_if_error; exact Hrefl].
    apply every_run_await; [exact Hrefl|]. intros s. apply deleted_sale_keeps_match. }
  intros H. split; [exact (Hpaid w H) | exact (Hdel w H)].
Qed.

Lemma paying_and_deleting_keep_sales_matched_witness :
  sales_match_items
    (store (snd (markAsPaidMutation 9000 1 (mkWorld tidy_shop [] (Some 7%nat))))) /\
  sales_match_items
    (store (snd (deleteSaleMutation 1 9000 (mkWorld tidy_shop [] (Some 7%nat))))).
Proof.
  exact (paying_and_deleting_keep_sales_matched 9000 1
           (mkWorld tidy_shop [] (Some 7%nat)) tidy_shop_matches).
Defined.

(** ** Stock is never negative *)

Lemma stock_writes_never_negative (now : Z) (cart : list CartLine)
  (rows : list Product.row) :
  is_empty (stockIssues cart) = true ->
  Forall (fun p => 0 <= Product.stock_quantity p) rows ->
  Forall (fun p => 0 <= Product.stock_quantity p) (stock_writes now cart rows).
Proof.
  intros Hissues. unfold stock_writes.
  assert (Hall : forall line, In line cart ->
                   quantity line <= Product.stock_quantity (product line))
    by (intros line; apply no_stock_issue; exact Hissues).
  clear Hissues. revert rows.
  induction cart as [|l rest IH]; intros rows Hrows; simpl; [exact Hrows|].
  apply IH; [intros line Hl; apply Hall; right; exact Hl|].
  apply Forall_map. apply Forall_forall. intros r Hr.
  destruct (Nat.eqb (Product.id r) (Product.id (product l))); simpl.
  - pose proof (Hall l (or_introl eq_refl)). lia.
  - exact (proj1 (Forall_forall _ _) Hrows r Hr).
Qed.

Lemma every_run_for_of_in (R : Store -> Store -> Prop) {A} (xs : list A)
  (body : A -> M unit) :
  (forall s, R s s) ->
  (forall s1 s2 s3, R s1 s2 -> R s2 s3 -> R s1 s3) ->
  (forall x, In x xs -> every_run R (body x)) -> every_run R (for_of xs body).
Proof.
  intros Hrefl Htrans. induction xs as [|x rest IH]; intros Hbody; simpl.
  - apply every_run_ret. exact Hrefl.
  - apply every_run_bind; [exact Htrans|apply Hbody; left; reflexivity|].
    intros _. apply IH. intros y Hy. apply Hbody. right. exact Hy.
Qed.

Lemma createSale_never_writes_negative_stock (form : SaleForm) (now : Z) :
  is_empty (stockIssues (selectedProducts form)) = true ->
  every_run (keeps stock_never_negative) (createSaleMutation form now).
Proof.
  intros Hissues.
  pose proof (keeps_refl stock_never_negative) as Hrefl.
  pose proof (keeps_trans stock_never_negative) as Htrans.
  assert (Hsame : forall {A} (query : Store -> response A * Store),
             (forall s, products (snd (query s)) = products s) ->
             every_run (keeps stock_never_negative) (await query)).
  { intros A query Hq. apply every_run_await; [exact Hrefl|].
    intros s. unfold keeps, stock_never_negative. rewrite Hq. auto. }
  unfold createSaleMutation.
  apply every_run_bind; [exact Htrans| |].
  { intros w. unfold getUser. destruct (next_fault w); apply Hrefl. }
  intros [userId|]; [|apply every_run_throw; exact Hrefl].
  apply every_run_bind; [exact Htrans|apply Hsame; reflexivity|]. intros existing.
  apply every_run_bind; [exact Htrans| |].
  { destruct (data existing); [apply every_run_ret; exact Hrefl|].
    apply every_run_bind; [exact Htrans|apply Hsame; reflexivity|]. intros r.
    apply every_run_bind; [exact Htrans|apply every_run_throw_if_error; exact Hrefl|].
    intros _.
    destruct (data r); [apply every_run_ret|apply every_run_throw]; exact Hrefl. }
  intros cid.
  apply every_run_bind; [exact Htrans|apply Hsame; reflexivity|]. intros rs.
  apply every_run_bind; [exact Htrans|apply every_run_throw_if_error; exact Hrefl|].
  intros _.
  destruct (data rs) as [sale|]; [|apply every_run_throw; exact Hrefl].
  apply every_run_bind; [exact Htrans|apply Hsame; reflexivity|]. intros ri.
  apply every_run_bind; [exact Htrans|apply every_run_throw_if_error; exact Hrefl|].
  intros _.
  apply every_run_bind; [exact Htrans| |intros; apply every_run_ret; exact Hrefl].
  apply every_run_for_of_in; [exact Hrefl|exact Htrans|]. intros line Hline.
  apply every_run_bind;
    [exact Htrans| |intros r; apply every_run_throw_if_error; exact Hrefl].
  apply every_run_await; [exact Hrefl|]. intros s.
  unfold keeps, stock_never_negative, products_set_stock; simpl. intros Hs.
  apply Forall_map. apply Forall_forall. intros r Hr.
  destruct (Nat.eqb (Product.id r) (Product.id (product line))); simpl.
  - pose proof (no_stock_issue _ line Hissues Hline). lia.
  - exact (proj1 (Forall_forall _ _) Hs r Hr).
Qed.

(** X27.  The submit handler never leaves a negative stock: if no
    product has a negative stock before, none has one after, whether the
    submission was turned down, the sale was recorded, or a call failed
    on the way. *)
Theorem submit_never_leaves_negative_stock (form : SaleForm) (now : Z) (w : World) :
  stock_never_negative (store w) ->
  stock_never_negative (store (snd (handleSubmit form now w))).
Proof.
  intros Hs. unfold handleSubmit.
  destruct (String.eqb (customerName form) EmptyString
            || is_empty (selectedProducts form)); [exact Hs|].
  destruct (is_empty (stockIssues (selectedProducts form))) eqn:Eissues;
    simpl negb; cbv iota; [|exact Hs].
  pose proof (createSale_never_writes_negative_stock form now Eissues w Hs) as H.
  destruct (createSaleMutation form now w) as [[sale|e] w']; exact H.
Qed.

Lemma submit_never_leaves_negative_stock_witness :
  stock_never_negative (store (snd (handleSubmit ann_buys_soap 9000 calm_shop))).
Proof.
  apply (submit_never_leaves_negative_stock ann_buys_soap 9000 calm_shop).
  unfold stock_never_negative. simpl.
  constructor; [discriminate|]. constructor; [discriminate|constructor].
Defined.
